(** * Transaction pruning (package txn, prune.go)

    A shallow embedding of the decision heuristic, the option defaults, the
    argument validation and orchestration of [CleanAndPrune], the stats
    pointer lookup, the collection-name filter, the token-to-id slice and
    the two [Remover] strategies, with the properties the design document
    states about them.

    Conventions.  A Go [int] is a [Z] in the 64-bit two's-complement range
    and arithmetic on it wraps ([GoInt]).  A [float32] is an IEEE-754
    binary32 value over the standard library's [spec_float], rounding to
    nearest even ([Float32]).  A [string] is Rocq's [string] (a byte
    sequence, as in Go).  A nil pointer or a nil [error] is [None].  A call
    that can panic ends in [Returns] or in [Panics] ([returned]).  The
    database driver (package mgo) is outside the package: every reply it
    gives is an argument of the model, so a theorem quantified over the
    driver holds for every behaviour of the database. *)

From Stdlib Require Import ZArith List String Ascii Bool Lia Permutation.
From Stdlib Require Import Floats.SpecFloat.
Import ListNotations.

Local Open Scope string_scope.
Local Open Scope list_scope.
Local Open Scope Z_scope.

(* ================================================================== *)
(** * Part I: the program *)

(* ------------------------------------------------------------------ *)
(** ** Go's [int] *)

Module GoInt.

Definition min_int : Z := - 2 ^ 63.
Definition max_int : Z := 2 ^ 63 - 1.

Definition is_int (z : Z) : Prop := min_int <= z <= max_int.

(** Two's-complement wrap-around of an exact result. *)
Definition wrap (z : Z) : Z := (z + 2 ^ 63) mod 2 ^ 64 - 2 ^ 63.

Definition add (a b : Z) : Z := wrap (a + b).
Definition sub (a b : Z) : Z := wrap (a - b).

End GoInt.

(* ------------------------------------------------------------------ *)
(** ** Go's [float32] *)

Module Float32.

Definition prec : Z := 24.
Definition emax : Z := 128.

Definition float32 : Set := spec_float.

(** The conversion [float32(n)] of an integer: the nearest binary32 value,
    ties to even. *)
Definition of_int (n : Z) : float32 := binary_normalize prec emax n 0 false.

Definition mul (x y : float32) : float32 := SFmul prec emax x y.

(** [x == y] and [x >= y]; both are false as soon as one side is NaN. *)
Definition eqb (x y : float32) : bool := SFeqb x y.
Definition geb (x y : float32) : bool := SFleb y x.

Definition zero : float32 := S754_zero false.

(** [exact_le_scaled n x k]: [n * x <= k] over the exact value of [x],
    cross-multiplied by its power of two (false for NaN and for [0 * inf]). *)
Definition exact_le_scaled (n : Z) (x : float32) (k : Z) : bool :=
  match x with
  | S754_zero _ => 0 <=? k
  | S754_finite s m e =>
      let sm := if s then Z.neg m else Z.pos m in
      if 0 <=? e then n * sm * 2 ^ e <=? k
      else n * sm <=? k * 2 ^ (- e)
  | S754_infinity s =>
      match n ?= 0 with
      | Eq => false
      | Gt => s
      | Lt => negb s
      end
  | S754_nan => false
  end.

End Float32.

Import Float32.

(* ------------------------------------------------------------------ *)
(** ** Constants of prune.go *)

Definition defaultPruneFactor : float32 := of_int 2.
Definition defaultMinNewTransactions : Z := 100.
Definition defaultMaxNewTransactions : Z := 100000.
Definition defaultSmallBatchTransactionCount : Z := 1000.

(** [time.Duration] counts nanoseconds in an [int64]. *)
Definition Duration : Set := Z.
Definition Millisecond : Duration := 1000000.
Definition defaultBatchTransactionSleepTime : Duration := 10 * Millisecond.

Definition maxBulkOps : Z := 1000.

(** [time.Time]: an instant; prune.go only passes it along. *)
Definition Time : Set := Z.

(* ------------------------------------------------------------------ *)
(** ** Errors *)

(** The error values prune.go creates, wraps or tests for.  A message
    built with a format string is kept as its constructor and arguments. *)
Inductive error : Set :=
| ErrNotFound                                  (* mgo.ErrNotFound *)
| ErrExternal (msg : string)                   (* any other error of the driver or of a sweep *)
| ErrNilTxns                                   (* "nil Txns not valid" *)
| ErrSleepRange (sleep hi : Duration)          (* "TxnBatchSleepTime (%s) must be between 0s and %s" *)
| ErrBatchTooSmall (size lo hi : Z)            (* "TxnBatchSize %d too small, ..." *)
| ErrBatchTooBig (size lo hi : Z)              (* "TxnBatchSize %d too big, ..." *)
| ErrLoadPointer (cause : error)               (* "failed to load pruning stats pointer: %v" *)
| ErrLoadStats (cause : error)                 (* "failed to load pruning stats: %v" *)
| ErrTrace (cause : error).                    (* errors.Trace of a non-nil error *)

(** [err == mgo.ErrNotFound]. *)
Definition is_not_found (e : error) : bool :=
  match e with
  | ErrNotFound => true
  | _ => false
  end.

(** [errors.Trace]: nil stays nil. *)
Definition Trace (e : option error) : option error :=
  match e with
  | None => None
  | Some c => Some (ErrTrace c)
  end.

(** The errors [CleanAndPruneArgs.validate] reports. *)
Definition is_config_error (e : error) : bool :=
  match e with
  | ErrNilTxns | ErrSleepRange _ _ | ErrBatchTooSmall _ _ _ | ErrBatchTooBig _ _ _ => true
  | _ => false
  end.

(** The run-time panics prune.go can run into. *)
Inductive panic : Set :=
| SliceOutOfRange                 (* slice bounds out of range *)
| InvalidObjectIdHex (s : string) (* "invalid input to ObjectIdHex: %q" *)
| NilDereference.                 (* invalid memory address or nil pointer dereference *)

(** How a call that can panic ends. *)
Inductive returned (A : Type) : Type :=
| Returns (a : A)
| Panics (p : panic).

Arguments Returns {A} a.
Arguments Panics {A} p.

(* ------------------------------------------------------------------ *)
(** ** Prune options and the decision *)

(** The option structure as prune.go reads and writes it.  [PruneFactor] is
    multiplied with a [float32] in [shouldPrune], so it is a [float32]. *)
Record PruneOptions : Set := mkPruneOptions {
  PruneFactor : float32;
  MinNewTransactions : Z;
  MaxNewTransactions : Z;
  MaxTime : Time;
  MaxBatchTransactions : Z;
  MaxBatches : Z;
  SmallBatchTransactionCount : Z;
  BatchTransactionSleepTime : Duration
}.

(** Assignments to one field of the structure. *)
Definition set_PruneFactor (o : PruneOptions) (v : float32) : PruneOptions :=
  mkPruneOptions v (MinNewTransactions o) (MaxNewTransactions o) (MaxTime o)
    (MaxBatchTransactions o) (MaxBatches o) (SmallBatchTransactionCount o)
    (BatchTransactionSleepTime o).

Definition set_MinNewTransactions (o : PruneOptions) (v : Z) : PruneOptions :=
  mkPruneOptions (PruneFactor o) v (MaxNewTransactions o) (MaxTime o)
    (MaxBatchTransactions o) (MaxBatches o) (SmallBatchTransactionCount o)
    (BatchTransactionSleepTime o).

Definition set_MaxNewTransactions (o : PruneOptions) (v : Z) : PruneOptions :=
  mkPruneOptions (PruneFactor o) (MinNewTransactions o) v (MaxTime o)
    (MaxBatchTransactions o) (MaxBatches o) (SmallBatchTransactionCount o)
    (BatchTransactionSleepTime o).

Definition set_MaxBatches (o : PruneOptions) (v : Z) : PruneOptions :=
  mkPruneOptions (PruneFactor o) (MinNewTransactions o) (MaxNewTransactions o)
    (MaxTime o) (MaxBatchTransactions o) v (SmallBatchTransactionCount o)
    (BatchTransactionSleepTime o).

Definition set_SmallBatchTransactionCount (o : PruneOptions) (v : Z) : PruneOptions :=
  mkPruneOptions (PruneFactor o) (MinNewTransactions o) (MaxNewTransactions o)
    (MaxTime o) (MaxBatchTransactions o) (MaxBatches o) v
    (BatchTransactionSleepTime o).

Definition set_BatchTransactionSleepTime (o : PruneOptions) (v : Duration) : PruneOptions :=
  mkPruneOptions (PruneFactor o) (MinNewTransactions o) (MaxNewTransactions o)
    (MaxTime o) (MaxBatchTransactions o) (MaxBatches o)
    (SmallBatchTransactionCount o) v.

Section Defaults.

(** Lower bound of the batch size, a constant declared next to the
    incremental pruner. *)
Variable pruneMinTxnBatchSize : Z.

(** The function updates the structure behind its pointer; here it returns
    the updated structure.  It has no result in Go, hence no error
    component. *)
Definition validatePruneOptions (pruneOptions : PruneOptions) : PruneOptions :=
  let o := pruneOptions in
  let o := if eqb (PruneFactor o) zero
           then set_PruneFactor o defaultPruneFactor else o in
  let o := if MinNewTransactions o =? 0
           then set_MinNewTransactions o defaultMinNewTransactions else o in
  let o := if MaxNewTransactions o =? 0
           then set_MaxNewTransactions o defaultMaxNewTransactions else o in
  let o := if MaxBatches o <=? 0
           then set_MaxBatches o 1 else o in
  let o := if BatchTransactionSleepTime o <? 0
           then set_BatchTransactionSleepTime o defaultBatchTransactionSleepTime
           else o in
  if SmallBatchTransactionCount o <? pruneMinTxnBatchSize
  then set_SmallBatchTransactionCount o defaultSmallBatchTransactionCount
  else o.

End Defaults.

Definition shouldPrune (oldCount newCount : Z) (pruneOptions : PruneOptions)
  : bool * string :=
  if oldCount <? 0 then (true, "no pruning run found")
  else
    let difference := GoInt.sub newCount oldCount in
    if difference <? MinNewTransactions pruneOptions
    then (false, "not enough new transactions")
    else if MaxNewTransactions pruneOptions <? difference
    then (true, "too many new transactions")
    else
      let factored := mul (of_int oldCount) (PruneFactor pruneOptions) in
      if geb (of_int newCount) factored
      then (true, "transactions have grown significantly")
      else (false, "transactions have not grown significantly").

(** The growth test of [shouldPrune], in [float32] as the program runs it. *)
Definition grown (oldCount newCount : Z) (o : PruneOptions) : bool :=
  geb (of_int newCount) (mul (of_int oldCount) (PruneFactor o)).

(** The decision as the design document words it: the same cascade, with
    the difference and the growth test taken in exact arithmetic. *)
Definition shouldPrune_exact (oldCount newCount : Z) (pruneOptions : PruneOptions)
  : bool * string :=
  if oldCount <? 0 then (true, "no pruning run found")
  else if newCount - oldCount <? MinNewTransactions pruneOptions
  then (false, "not enough new transactions")
  else if MaxNewTransactions pruneOptions <? newCount - oldCount
  then (true, "too many new transactions")
  else if exact_le_scaled oldCount (PruneFactor pruneOptions) newCount
  then (true, "transactions have grown significantly")
  else (false, "transactions have not grown significantly").

(** The options of the worked examples: Min 100, MaxNew 100000, Factor 2.0. *)
Definition exampleOptions : PruneOptions :=
  mkPruneOptions defaultPruneFactor 100 100000 0 0 1 1000
    defaultBatchTransactionSleepTime.

(** The same with the ceiling on new transactions raised to 100 million. *)
Definition largeOptions : PruneOptions :=
  set_MaxNewTransactions exampleOptions 100000000.

(** All fields unset, but for a negative sleep. *)
Definition unsetOptions : PruneOptions :=
  mkPruneOptions zero 0 0 0 0 0 0 (-5).

(* ------------------------------------------------------------------ *)
(** ** The orchestrator *)

(** A collection handle ([*mgo.Collection]), known by the full name of the
    collection it designates. *)
Record Collection : Set := mkCollection { FullName : string }.

Record CleanAndPruneArgs : Set := mkCleanAndPruneArgs {
  Txns : option Collection;
  TxnsCount : Z;
  Args_MaxTime : Time;
  MaxTransactionsToProcess : Z;
  Multithreaded : bool;
  TxnBatchSize : Z;
  TxnBatchSleepTime : Duration
}.

Definition set_TxnBatchSize (a : CleanAndPruneArgs) (v : Z) : CleanAndPruneArgs :=
  mkCleanAndPruneArgs (Txns a) (TxnsCount a) (Args_MaxTime a)
    (MaxTransactionsToProcess a) (Multithreaded a) v (TxnBatchSleepTime a).

Record CleanupStats : Set := mkCleanupStats {
  CollectionsInspected : Z;
  DocsInspected : Z;
  DocsCleaned : Z;
  StashDocumentsRemoved : Z;
  TransactionsRemoved : Z;
  ShouldRetry : bool
}.

(** [var stats CleanupStats]. *)
Definition zeroCleanupStats : CleanupStats := mkCleanupStats 0 0 0 0 0 false.

(** The arguments [CleanAndPrune] hands to a sweep (the progress channel,
    which only feeds the reporting thread, is left out). *)
Record IncrementalPruneArgs : Set := mkIncrementalPruneArgs {
  Inc_MaxTime : Time;
  ReverseOrder : bool;
  Inc_TxnBatchSize : Z;
  Inc_TxnBatchSleepTime : Duration
}.

(** What [CleanAndPrune] does that is visible from outside.  A sweep is
    listed where its closure hands the result of [Prune] to the critical
    section. *)
Inductive event : Set :=
| EvStartReporting                                         (* startReportingThread *)
| EvSweep (a : IncrementalPruneArgs) (txns : option Collection)  (* pruner.Prune(args.Txns) *)
| EvWarnSecondError (e : error)                            (* "second error while handling initial error" *)
| EvStop.                                                  (* close(stop) *)

Section Orchestrator.

(** Bounds declared next to the incremental pruner. *)
Variables pruneTxnBatchSize pruneMinTxnBatchSize pruneMaxTxnBatchSize : Z.
Variable maxBatchSleepTime : Duration.

(** The statistics of a sweep, a structure of the incremental pruner: its
    zero value, the counters [CleanAndPrune] reads (64-bit), and the
    combination of two of them. *)
Variable PrunerStats : Type.
Variable zeroPrunerStats : PrunerStats.
Variables TxnsRemoved DocQueuesCleaned StashDocsRemoved : PrunerStats -> Z.
Variables DocCacheMisses DocCacheHits CollectionQueries : PrunerStats -> Z.
Variable CombineStats : PrunerStats -> PrunerStats -> PrunerStats.

(** The outcome of [NewIncrementalPruner(a).Prune(txns)]: whatever the
    sweep finds in the database. *)
Variable Prune : IncrementalPruneArgs -> option Collection -> PrunerStats * option error.

(** [validate] may set the batch size behind its pointer: it returns the
    arguments as it leaves them, and its error. *)
Definition validate (args : CleanAndPruneArgs) : CleanAndPruneArgs * option error :=
  match Txns args with
  | None => (args, Some ErrNilTxns)
  | Some _ =>
      if (TxnBatchSleepTime args <? 0) || (maxBatchSleepTime <? TxnBatchSleepTime args)
      then (args, Some (ErrSleepRange (TxnBatchSleepTime args) maxBatchSleepTime))
      else
        let args := if TxnBatchSize args =? 0
                    then set_TxnBatchSize args pruneTxnBatchSize else args in
        if TxnBatchSize args <? pruneMinTxnBatchSize
        then (args, Some (ErrBatchTooSmall (TxnBatchSize args)
                            pruneMinTxnBatchSize pruneMaxTxnBatchSize))
        else if pruneMaxTxnBatchSize <? TxnBatchSize args
        then (args, Some (ErrBatchTooBig (TxnBatchSize args)
                            pruneMinTxnBatchSize pruneMaxTxnBatchSize))
        else (args, None)
  end.

(** The state both sweeps share under the mutex: [pstats], [anyErr], and
    the events so far. *)
Definition shared : Type := PrunerStats * option error * list event.

(** The critical section at the end of the [prune] closure, run with the
    result of one sweep. *)
Definition merge (st : shared) (res : PrunerStats * option error) : shared :=
  let '(pstats, anyErr, log) := st in
  let '(thisPstats, err) := res in
  let pstats := CombineStats pstats thisPstats in
  match anyErr, err with
  | None, _ => (pstats, Trace err, log)
  | Some _, Some e => (pstats, anyErr, log ++ [EvWarnSecondError e])
  | Some _, None => (pstats, anyErr, log)
  end.

(** The closure [prune] of [CleanAndPrune], as a step on the state it
    shares: it calls [Prune] with the arguments of its direction, and
    hands the result to the critical section, where the sweep is
    recorded. *)
Definition prune (args : CleanAndPruneArgs) (reversed : bool) (st : shared) : shared :=
  let a := mkIncrementalPruneArgs (Args_MaxTime args) reversed
             (TxnBatchSize args) (TxnBatchSleepTime args) in
  let thisResult := Prune a (Txns args) in
  let '(pstats, anyErr, log) := st in
  merge (pstats, anyErr, log ++ [EvSweep a (Txns args)]) thisResult.

(** [CleanAndPrune].  With [Multithreaded] the reverse sweep runs in its
    own goroutine beside the forward one; the two meet only in the
    critical section, so a run is determined by the results of the sweeps
    and by which of them enters the critical section first
    ([reverseFirst]).  The result carries the events of the run, the
    sweeps in the order of their critical sections; when the two calls of
    [Prune] start is up to the scheduler and is not recorded. *)
Definition CleanAndPrune (reverseFirst : bool) (args : CleanAndPruneArgs)
  : CleanupStats * option error * list event :=
  let stats := zeroCleanupStats in
  match validate args with
  | (_, Some err) => (stats, Some err, [])
  | (args, None) =>
      let st0 : shared := (zeroPrunerStats, None, [EvStartReporting]) in
      let '(pstats, anyErr, log) :=
        if Multithreaded args
        then if reverseFirst
             then prune args false (prune args true st0)
             else prune args true (prune args false st0)
        else prune args false st0 in
      let events := log ++ [EvStop] in
      match anyErr with
      | Some e => (stats, Trace (Some e), events)
      | None =>
          (mkCleanupStats
             (GoInt.wrap (CollectionQueries pstats))
             (GoInt.wrap (DocCacheMisses pstats + DocCacheHits pstats))
             (GoInt.wrap (DocQueuesCleaned pstats))
             (GoInt.wrap (StashDocsRemoved pstats))
             (GoInt.wrap (TxnsRemoved pstats))
             false,
           None, events)
      end
  end.

End Orchestrator.

(** A concrete sweep statistics structure, with field-wise addition. *)
Record sweepStats : Set := mkSweepStats {
  sw_TxnsRemoved : Z;
  sw_DocQueuesCleaned : Z;
  sw_StashDocsRemoved : Z;
  sw_DocCacheMisses : Z;
  sw_DocCacheHits : Z;
  sw_CollectionQueries : Z
}.

Definition sweepStats_add (a b : sweepStats) : sweepStats :=
  mkSweepStats
    (sw_TxnsRemoved a + sw_TxnsRemoved b)
    (sw_DocQueuesCleaned a + sw_DocQueuesCleaned b)
    (sw_StashDocsRemoved a + sw_StashDocsRemoved b)
    (sw_DocCacheMisses a + sw_DocCacheMisses b)
    (sw_DocCacheHits a + sw_DocCacheHits b)
    (sw_CollectionQueries a + sw_CollectionQueries b).

(** [CleanAndPrune] over that structure, with batch sizes in [10, 1000000],
    default 1000, and sleeps of at most one second. *)
Definition CleanAndPrune_demo
  (sweep : IncrementalPruneArgs -> option Collection -> sweepStats * option error) :=
  CleanAndPrune 1000 10 1000000 (1000 * Millisecond)
    sweepStats (mkSweepStats 0 0 0 0 0 0)
    sw_TxnsRemoved sw_DocQueuesCleaned sw_StashDocsRemoved
    sw_DocCacheMisses sw_DocCacheHits sw_CollectionQueries
    sweepStats_add sweep.

(** A sweep that removes 7 transactions, cleans 3 documents, and then
    fails. *)
Definition failingSweep (a : IncrementalPruneArgs) (c : option Collection)
  : sweepStats * option error :=
  (mkSweepStats 7 3 1 4 2 5, Some (ErrExternal "connection reset")).

(** A sweep that does the same work and succeeds. *)
Definition workingSweep (a : IncrementalPruneArgs) (c : option Collection)
  : sweepStats * option error :=
  (mkSweepStats 7 3 1 4 2 5, None).

Definition demoArgs (multi : bool) (size : Z) (sleep : Duration) : CleanAndPruneArgs :=
  mkCleanAndPruneArgs (Some (mkCollection "juju.txns")) 0 0 0 multi size sleep.

(* ------------------------------------------------------------------ *)
(** ** The stats pointer *)

(** [bson.ObjectId]: twelve raw bytes held in a string. *)
Definition ObjectId : Set := string.

(** The values that occur as document identifiers and fields here. *)
Inductive bson_value : Set :=
| BNil
| BString (s : string)
| BInt (n : Z)
| BObjectId (id : ObjectId).

Definition bson_value_eqb (a b : bson_value) : bool :=
  match a, b with
  | BNil, BNil => true
  | BString s, BString t => String.eqb s t
  | BInt n, BInt m => n =? m
  | BObjectId i, BObjectId j => String.eqb i j
  | _, _ => false
  end.

(** [bson.M], a map from field names to values; [m[k]] is nil for an
    absent key. *)
Definition bsonM : Set := list (string * bson_value).

Fixpoint M_get (m : bsonM) (k : string) : bson_value :=
  match m with
  | [] => BNil
  | (k', v) :: rest => if String.eqb k' k then v else M_get rest k
  end.

Record pruneStats : Set := mkPruneStats {
  Id : ObjectId;
  Started : Time;
  Completed : Time;
  TxnsBefore : Z;
  TxnsAfter : Z;
  StashDocsBefore : Z;
  StashDocsAfter : Z
}.

(** The result of [FindId(id).One(&out)]: the decoded document, or the
    error ([ErrNotFound] when no document has that id). *)
Inductive one_result (A : Type) : Type :=
| OneOk (a : A)
| OneErr (e : error).

Arguments OneOk {A} a.
Arguments OneErr {A} e.

(** The stats collection as [getPruneLastTxnsCount] reads it: a lookup by
    id decoded into a [bson.M], and one decoded into a [pruneStats]. *)
Record StatsCollection : Type := mkStatsCollection {
  FindId_M : bson_value -> one_result bsonM;
  FindId_pruneStats : bson_value -> one_result pruneStats
}.

Definition getPruneLastTxnsCount (txnsPrune : StatsCollection) : Z * option error :=
  match FindId_M txnsPrune (BString "last") with
  | OneErr err =>
      if is_not_found err then (-1, None)
      else (-1, Some (ErrLoadPointer err))
  | OneOk ptrDoc =>
      match FindId_pruneStats txnsPrune (M_get ptrDoc "id") with
      | OneErr err =>
          if is_not_found err then (-1, None)
          else (-1, Some (ErrLoadStats err))
      | OneOk doc => (TxnsAfter doc, None)
      end
  end.

(** A healthy collection that holds exactly the documents [docs], keyed by
    their ids. *)
Fixpoint lookup_doc (docs : list (bson_value * bsonM)) (id : bson_value) : option bsonM :=
  match docs with
  | [] => None
  | (k, d) :: rest => if bson_value_eqb k id then Some d else lookup_doc rest id
  end.

Definition int_field (m : bsonM) (k : string) : Z :=
  match M_get m k with
  | BInt n => n
  | _ => 0
  end.

Definition id_field (m : bsonM) (k : string) : ObjectId :=
  match M_get m k with
  | BObjectId i => i
  | _ => EmptyString
  end.

Definition decode_pruneStats (m : bsonM) : pruneStats :=
  mkPruneStats (id_field m "_id") (int_field m "started") (int_field m "completed")
    (int_field m "txns-before") (int_field m "txns-after")
    (int_field m "stash-docs-before") (int_field m "stash-docs-after").

Definition storedCollection (docs : list (bson_value * bsonM)) : StatsCollection :=
  mkStatsCollection
    (fun id => match lookup_doc docs id with
               | Some d => OneOk d
               | None => OneErr ErrNotFound
               end)
    (fun id => match lookup_doc docs id with
               | Some d => OneOk (decode_pruneStats d)
               | None => OneErr ErrNotFound
               end).

(** A pointer that names a snapshot which is gone. *)
Definition brokenPointerDocs : list (bson_value * bsonM) :=
  [ (BString "last", [("_id", BString "last"); ("id", BObjectId "0123456789ab")]) ].

(** A pointer with its snapshot: 4200 transactions after the last run. *)
Definition healthyDocs : list (bson_value * bsonM) :=
  [ (BString "last", [("_id", BString "last"); ("id", BObjectId "0123456789ab")]);
    (BObjectId "0123456789ab",
       [("_id", BObjectId "0123456789ab"); ("txns-before", BInt 9000);
        ("txns-after", BInt 4200)]) ].

(** A collection whose every read fails with [e]. *)
Definition failingCollection (e : error) : StatsCollection :=
  mkStatsCollection (fun _ => OneErr e) (fun _ => OneErr e).

(* ------------------------------------------------------------------ *)
(** ** Collection names and tokens *)

(** [strings.HasPrefix(s, prefix)]. *)
Definition HasPrefix (s prefix : string) : bool := String.prefix prefix s.

(** The closure [hasTxnReferences] of [txnCollections]; the cases of its
    switch are tried in order. *)
Definition hasTxnReferences (txnsName name : string) : bool :=
  if String.eqb name (String.append txnsName ".stash") then true
  else if String.eqb name txnsName || HasPrefix name (String.append txnsName ".")
  then false
  else if String.eqb name "statuseshistory" then false
  else if HasPrefix name "system." then false
  else true.

Definition txnCollections (inNames : list string) (txnsName : string) : list string :=
  fold_left
    (fun outNames name =>
       if hasTxnReferences txnsName name then outNames ++ [name] else outNames)
    inNames [].

(** The filter as the design document words it: the stash collection, or
    none of the four exclusions. *)
Definition keptBySpec (txnsName name : string) : bool :=
  String.eqb name (String.append txnsName ".stash")
  || negb (String.eqb name txnsName
           || HasPrefix name (String.append txnsName ".")
           || String.eqb name "statuseshistory"
           || HasPrefix name "system.").

(** [s[:n]]: the first [n] bytes of [s]; the slice is out of range, and
    the program panics, when [s] is shorter. *)
Definition slice_to (s : string) (n : nat) : option string :=
  if (n <=? String.length s)%nat then Some (substring 0 n s) else None.

(** The value of a hexadecimal digit, of either case ([encoding/hex]). *)
Definition fromHexChar (c : ascii) : option N :=
  let n := N_of_ascii c in
  if ((48 <=? n) && (n <=? 57))%N then Some (n - 48)%N          (* '0'..'9' *)
  else if ((97 <=? n) && (n <=? 102))%N then Some (n - 97 + 10)%N   (* 'a'..'f' *)
  else if ((65 <=? n) && (n <=? 70))%N then Some (n - 65 + 10)%N    (* 'A'..'F' *)
  else None.

(** [hex.DecodeString]: one byte per pair of digits; an error ([None]) on
    a byte that is no digit and on an odd length. *)
Fixpoint DecodeString (s : string) : option string :=
  match s with
  | EmptyString => Some EmptyString
  | String _ EmptyString => None
  | String a (String b rest) =>
      match fromHexChar a, fromHexChar b, DecodeString rest with
      | Some hi, Some lo, Some d => Some (String (ascii_of_N (16 * hi + lo)) d)
      | _, _, _ => None
      end
  end.

(** [bson.ObjectIdHex] of the driver: the identifier of twelve bytes
    written by 24 hexadecimal digits; it panics on any other string. *)
Definition ObjectIdHex (s : string) : returned ObjectId :=
  match DecodeString s with
  | Some d =>
      if (String.length d =? 12)%nat then Returns d else Panics (InvalidObjectIdHex s)
  | None => Panics (InvalidObjectIdHex s)
  end.

Definition txnTokenToId (token : string) : returned ObjectId :=
  match slice_to token 24 with
  | Some id => ObjectIdHex id
  | None => Panics SliceOutOfRange
  end.

(** Every byte of [s] is a hexadecimal digit. *)
Fixpoint all_hex (s : string) : bool :=
  match s with
  | EmptyString => true
  | String c rest =>
      match fromHexChar c with Some _ => all_hex rest | None => false end
  end.

(* ------------------------------------------------------------------ *)
(** ** Removers *)

(** The parts of [mgo.ChangeInfo] and [mgo.BulkResult] the removers read. *)
Record ChangeInfo : Set := mkChangeInfo { Removed : Z }.
Record BulkResult : Set := mkBulkResult { Matched : Z }.

(** The delete requests a remover sends to the database, each on a
    collection and covering a list of identifiers. *)
Inductive db_op : Set :=
| OpRemoveAll (c : Collection) (ids : list bson_value)
    (* c.RemoveAll({_id: {$in: ids}}) *)
| OpBulkRun (c : Collection) (ids : list bson_value).
    (* an unordered bulk on c of one delete per id *)

Definition op_size (o : db_op) : Z :=
  match o with
  | OpRemoveAll _ ids | OpBulkRun _ ids => Z.of_nat (List.length ids)
  end.

Record batchRemover : Set := mkBatchRemover {
  coll : Collection;
  queue : list bson_value;
  removed : Z
}.

(** A [*mgo.Bulk] is the list of identifiers queued in it. *)
Record bulkRemover : Set := mkBulkRemover {
  bulk_coll : Collection;
  chunk : list bson_value;
  chunkSize : Z;
  bulk_removed : Z
}.

Definition newBatchRemover (c : Collection) : batchRemover :=
  mkBatchRemover c [] 0.

Definition newChunk (r : bulkRemover) : bulkRemover :=
  mkBulkRemover (bulk_coll r) [] 0 (bulk_removed r).

Definition newBulkRemover (c : Collection) : bulkRemover :=
  newChunk (mkBulkRemover c [] 0 0).

Definition batchRemover_Removed (r : batchRemover) : Z := removed r.
Definition bulkRemover_Removed (r : bulkRemover) : Z := bulk_removed r.

Section Removers.

(** The database.  Its reply to a request may depend on the collection,
    on the request and on how many requests the remover has sent before
    (the database changes under it).  [RemoveAll] hands back a
    [*ChangeInfo] and [Run] a [*BulkResult], either of which may be nil,
    beside the error. *)
Variable RemoveAll :
  Collection -> nat -> list bson_value -> option ChangeInfo * option error.
Variable Run :
  Collection -> nat -> list bson_value -> option BulkResult * option error.

(** Every method takes the remover and the requests sent so far, and
    gives the remover as it leaves it, how it ends, and the requests sent
    by then.  [batchRemover.Flush] reads [result.Removed] with no nil
    test: on a nil [result] it panics there, before it has changed the
    remover.  [bulkRemover.Flush] tests its [result] and cannot panic. *)
Definition batchRemover_Flush (r : batchRemover) (sent : list db_op)
  : batchRemover * returned (option error) * list db_op :=
  if Z.of_nat (List.length (queue r)) <? 1 then (r, Returns None, sent)
  else
    let '(result, err) := RemoveAll (coll r) (List.length sent) (queue r) in
    let sent := sent ++ [OpRemoveAll (coll r) (queue r)] in
    match err with
    | None | Some ErrNotFound =>
        match result with
        | Some info =>
            (mkBatchRemover (coll r) [] (GoInt.add (removed r) (Removed info)),
             Returns None, sent)
        | None => (r, Panics NilDereference, sent)
        end
    | Some e => (r, Returns (Some e), sent)
    end.

Definition batchRemover_Remove (id : bson_value) (r : batchRemover) (sent : list db_op)
  : batchRemover * returned (option error) * list db_op :=
  let r := mkBatchRemover (coll r) (queue r ++ [id]) (removed r) in
  if maxBulkOps <=? Z.of_nat (List.length (queue r))
  then batchRemover_Flush r sent
  else (r, Returns None, sent).

Definition bulkRemover_Flush (r : bulkRemover) (sent : list db_op)
  : bulkRemover * option error * list db_op :=
  if chunkSize r <? 1 then (r, None, sent)
  else
    let '(result, err) := Run (bulk_coll r) (List.length sent) (chunk r) in
    let sent := sent ++ [OpBulkRun (bulk_coll r) (chunk r)] in
    match err with
    | None | Some ErrNotFound =>
        let r := match result with
                 | Some res =>
                     mkBulkRemover (bulk_coll r) (chunk r) (chunkSize r)
                       (GoInt.add (bulk_removed r) (Matched res))
                 | None => r
                 end in
        (newChunk r, None, sent)
    | Some e => (r, Some e, sent)
    end.

Definition bulkRemover_Remove (id : bson_value) (r : bulkRemover) (sent : list db_op)
  : bulkRemover * option error * list db_op :=
  let r := mkBulkRemover (bulk_coll r) (chunk r ++ [id])
             (GoInt.add (chunkSize r) 1) (bulk_removed r) in
  if maxBulkOps <=? chunkSize r
  then bulkRemover_Flush r sent
  else (r, None, sent).

(** A sequence of [Remove] calls, one per identifier, abandoned at the
    first call that returns an error or panics. *)
Fixpoint batchRemover_RemoveEach (ids : list bson_value) (r : batchRemover)
  (sent : list db_op) : batchRemover * returned (option error) * list db_op :=
  match ids with
  | [] => (r, Returns None, sent)
  | id :: rest =>
      match batchRemover_Remove id r sent with
      | (r', Returns None, sent') => batchRemover_RemoveEach rest r' sent'
      | failed => failed
      end
  end.

Fixpoint bulkRemover_RemoveEach (ids : list bson_value) (r : bulkRemover)
  (sent : list db_op) : bulkRemover * option error * list db_op :=
  match ids with
  | [] => (r, None, sent)
  | id :: rest =>
      match bulkRemover_Remove id r sent with
      | (r', None, sent') => bulkRemover_RemoveEach rest r' sent'
      | failed => failed
      end
  end.

End Removers.

(** The counter of a bulk remover agrees with its chunk. *)
Definition bulk_wf (r : bulkRemover) : Prop :=
  chunkSize r = Z.of_nat (List.length (chunk r)).

(** Every request sent covers at most [maxBulkOps] identifiers. *)
Definition flushes_bounded (sent : list db_op) : Prop :=
  Forall (fun o => op_size o <= maxBulkOps) sent.


Definition goneRun (c : Collection) (n : nat) (ids : list bson_value)
  : option BulkResult * option error :=
  (None, Some ErrNotFound).

(** A database that removes every document it is asked to. *)
Definition okRemoveAll (c : Collection) (n : nat) (ids : list bson_value)
  : option ChangeInfo * option error :=
  (Some (mkChangeInfo (Z.of_nat (List.length ids))), None).

Definition okRun (c : Collection) (n : nat) (ids : list bson_value)
  : option BulkResult * option error :=
  (Some (mkBulkResult (Z.of_nat (List.length ids))), None).

(** A database in which another pruner is at work: each delete finds
    only half of the documents it is asked to remove. *)
Definition halfRemoveAll (c : Collection) (n : nat) (ids : list bson_value)
  : option ChangeInfo * option error :=
  (Some (mkChangeInfo (Z.of_nat (List.length ids) / 2)), None).

(** The transaction collection of the examples. *)
Definition txnsColl : Collection := mkCollection "juju.txns".

(** The identifiers [BInt 0], ..., [BInt (n - 1)]. *)
Definition someIds (n : nat) : list bson_value :=
  map (fun k => BInt (Z.of_nat k)) (seq 0 n).

(* ------------------------------------------------------------------ *)
(** ** Configuration violations, as the design document lists them *)

Section Violations.

Variables pruneTxnBatchSize pruneMinTxnBatchSize pruneMaxTxnBatchSize : Z.
Variable maxBatchSleepTime : Duration.

(** The batch size after a zero value is replaced by the fixed default. *)
Definition effectiveBatchSize (args : CleanAndPruneArgs) : Z :=
  if TxnBatchSize args =? 0 then pruneTxnBatchSize else TxnBatchSize args.

Definition invalidArgs (args : CleanAndPruneArgs) : Prop :=
  Txns args = None
  \/ ~ (0 <= TxnBatchSleepTime args <= maxBatchSleepTime)
  \/ ~ (pruneMinTxnBatchSize <= effectiveBatchSize args <= pruneMaxTxnBatchSize).

End Violations.

(* ------------------------------------------------------------------ *)
(** ** What a remover has sent and what the database has reported *)

Definition op_ids (o : db_op) : list bson_value :=
  match o with
  | OpRemoveAll _ ids | OpBulkRun _ ids => ids
  end.

(** The identifiers of all requests, in the order they were sent. *)
Definition sent_ids (sent : list db_op) : list bson_value :=
  flat_map op_ids sent.

(** The sum of the [Removed] counts the database gives in reply to the
    requests [ops], the first of which is request number [n]; a nil result
    counts for nothing. *)
Fixpoint reported_removed
  (RemoveAll : Collection -> nat -> list bson_value -> option ChangeInfo * option error)
  (n : nat) (ops : list db_op) : Z :=
  match ops with
  | [] => 0
  | OpRemoveAll c ids :: rest =>
      match fst (RemoveAll c n ids) with
      | Some info => Removed info
      | None => 0
      end + reported_removed RemoveAll (S n) rest
  | OpBulkRun _ _ :: rest => reported_removed RemoveAll (S n) rest
  end.

(** The same for the [Matched] counts of bulk runs; a nil result counts
    for nothing. *)
Fixpoint reported_matched
  (Run : Collection -> nat -> list bson_value -> option BulkResult * option error)
  (n : nat) (ops : list db_op) : Z :=
  match ops with
  | [] => 0
  | OpBulkRun c ids :: rest =>
      match fst (Run c n ids) with
      | Some res => Matched res
      | None => 0
      end + reported_matched Run (S n) rest
  | OpRemoveAll _ _ :: rest => reported_matched Run (S n) rest
  end.

(** A database whose every delete fails. *)
Definition downRemoveAll (c : Collection) (n : nat) (ids : list bson_value)
  : option ChangeInfo * option error :=
  (None, Some (ErrExternal "no reachable servers")).

Definition downRun (c : Collection) (n : nat) (ids : list bson_value)
  : option BulkResult * option error :=
  (None, Some (ErrExternal "no reachable servers")).

(* ------------------------------------------------------------------ *)
(** ** The cooldown timer *)

(** Instants are points of one time line, in nanoseconds; [t.Add(d)] is
    their sum with a duration and [now.After(t)] is [t < now].  The clock
    is read by the caller: [newSimpleTimer] and [isAfter] take the reading
    of [time.Now()] as an argument. *)
Record simpleTimer : Set := mkSimpleTimer {
  interval : Duration;
  next : Time
}.

Definition newSimpleTimer (now : Time) (interval : Duration) : simpleTimer :=
  mkSimpleTimer interval (now + interval).

(** [isAfter] returns its answer and the timer as it leaves it. *)
Definition isAfter (now : Time) (t : simpleTimer) : bool * simpleTimer :=
  if next t <? now
  then (true, mkSimpleTimer (interval t) (now + interval t))
  else (false, t).

(** The timer queried at each of the readings [nows] in turn: the readings
    at which it answers true, and the timer left at the end. *)
Fixpoint isAfter_each (nows : list Time) (t : simpleTimer)
  : list Time * simpleTimer :=
  match nows with
  | [] => ([], t)
  | now :: rest =>
      let '(fired, t1) := isAfter now t in
      let '(later, t2) := isAfter_each rest t1 in
      (if fired then now :: later else later, t2)
  end.

(** Every instant of [l] lies more than [d] after the one before it, the
    first more than [d] after [prev]. *)
Fixpoint spaced (d : Duration) (prev : Time) (l : list Time) : Prop :=
  match l with
  | [] => True
  | x :: rest => prev + d < x /\ spaced d x rest
  end.

(* ------------------------------------------------------------------ *)
(** ** The names of the collections a transaction collection comes with *)

Definition txnsPruneC (txnsName : string) : string :=
  String.append txnsName ".prune".

(** [txnsName + ".stash"], as [maybePrune] and [txnCollections] build it. *)
Definition txnsStashName (txnsName : string) : string :=
  String.append txnsName ".stash".

(* ------------------------------------------------------------------ *)
(** ** The sweeps of a run *)

(** The arguments [CleanAndPrune] builds for the sweep of one direction,
    from its own arguments and the default batch size. *)
Definition sweepArgsOf (pruneTxnBatchSize : Z) (args : CleanAndPruneArgs)
  (reversed : bool) : IncrementalPruneArgs :=
  mkIncrementalPruneArgs (Args_MaxTime args) reversed
    (effectiveBatchSize pruneTxnBatchSize args) (TxnBatchSleepTime args).

(** The sweeps among the events of a run. *)
Definition sweeps (evs : list event) : list (IncrementalPruneArgs * option Collection) :=
  flat_map (fun ev => match ev with
                      | EvSweep a c => [(a, c)]
                      | _ => []
                      end) evs.

(** A sweep of the examples that fails in reverse order only. *)
Definition reverseFailingSweep (a : IncrementalPruneArgs) (c : option Collection)
  : sweepStats * option error :=
  if ReverseOrder a
  then (mkSweepStats 1 1 0 1 0 1, Some (ErrExternal "cursor timed out"))
  else (mkSweepStats 7 3 1 4 2 5, None).

(* ------------------------------------------------------------------ *)
(** ** Writing the stats *)

(** The errors [maybePrune] and [writePruneTxnsCount] return: an error of
    the functions above, passed on, or one of their own messages around
    the error of the driver. *)
Inductive prune_error : Set :=
| ErrPassed (e : error)
| ErrStartingCount (cause : error)      (* "failed to retrieve starting txns count: %v" *)
| ErrPruningStats (cause : error)       (* "failed to retrieve pruning stats: %v" *)
| ErrStartingStashCount (name : string) (cause : error)
                                        (* "failed to retrieve starting %q count: %v" *)
| ErrFinalCount (cause : error)         (* "failed to retrieve final txns count: %v" *)
| ErrFinalStashCount (name : string) (cause : error)
                                        (* "failed to retrieve final %q count: %v" *)
| ErrWriteStats (cause : error)         (* "failed to write prune stats: %v" *)
| ErrWritePointer (cause : error).      (* "failed to write prune stats pointer: %v" *)

(** The writes sent to the stats collection. *)
Inductive write_op : Set :=
| WInsert (doc : pruneStats)                       (* Insert(doc) *)
| WUpsertId (id : bson_value) (set : bsonM).       (* UpsertId(id, {"$set": set}) *)

Section WriteStats.

(** The replies of the driver to the two writes (the [ChangeInfo] of the
    upsert is dropped by the program). *)
Variable Insert : pruneStats -> option error.
Variable UpsertId : bson_value -> bsonM -> option error.

(** [bson.NewObjectId()] is read by the caller and passed as [id].  The
    result is the error and the writes sent. *)
Definition writePruneTxnsCount (id : ObjectId) (started completed : Time)
  (txnsBefore txnsAfter stashBefore stashAfter : Z)
  : option prune_error * list write_op :=
  let doc := mkPruneStats id started completed txnsBefore txnsAfter
               stashBefore stashAfter in
  match Insert doc with
  | Some err => (Some (ErrWriteStats err), [WInsert doc])
  | None =>
      let set := [("id", BObjectId id)] in
      match UpsertId (BString "last") set with
      | Some err =>
          (Some (ErrWritePointer err), [WInsert doc; WUpsertId (BString "last") set])
      | None => (None, [WInsert doc; WUpsertId (BString "last") set])
      end
  end.

End WriteStats.

(** *** What an acknowledged write does to a collection *)

(** A [pruneStats] as a document, field by field under its bson names. *)
Definition encode_pruneStats (s : pruneStats) : bsonM :=
  [ ("_id", BObjectId (Id s));
    ("started", BInt (Started s));
    ("completed", BInt (Completed s));
    ("txns-before", BInt (TxnsBefore s));
    ("txns-after", BInt (TxnsAfter s));
    ("stash-docs-before", BInt (StashDocsBefore s));
    ("stash-docs-after", BInt (StashDocsAfter s)) ].

(** [$set] of one field: replaced where it is, added at the end
    otherwise. *)
Fixpoint set_field (m : bsonM) (k : string) (v : bson_value) : bsonM :=
  match m with
  | [] => [(k, v)]
  | (k', v') :: rest =>
      if String.eqb k' k then (k, v) :: rest else (k', v') :: set_field rest k v
  end.

Definition set_fields (m : bsonM) (set : bsonM) : bsonM :=
  fold_left (fun d kv => set_field d (fst kv) (snd kv)) set m.

(** An upsert by id: the document with that id gets the fields; when
    there is none, a document with that id and the fields is added. *)
Fixpoint upsert_doc (docs : list (bson_value * bsonM)) (id : bson_value) (set : bsonM)
  : list (bson_value * bsonM) :=
  match docs with
  | [] => [(id, ("_id", id) :: set)]
  | (k, d) :: rest =>
      if bson_value_eqb k id then (k, set_fields d set) :: rest
      else (k, d) :: upsert_doc rest id set
  end.

Definition apply_write (docs : list (bson_value * bsonM)) (w : write_op)
  : list (bson_value * bsonM) :=
  match w with
  | WInsert doc => docs ++ [(BObjectId (Id doc), encode_pruneStats doc)]
  | WUpsertId id set => upsert_doc docs id set
  end.

Definition apply_writes (docs : list (bson_value * bsonM)) (ws : list write_op)
  : list (bson_value * bsonM) :=
  fold_left apply_write ws docs.

(** A driver that acknowledges every write, and one that loses the
    connection after the insert. *)
Definition okInsert (doc : pruneStats) : option error := None.
Definition okUpsertId (id : bson_value) (set : bsonM) : option error := None.
Definition downUpsertId (id : bson_value) (set : bsonM) : option error :=
  Some (ErrExternal "no reachable servers").

(* ------------------------------------------------------------------ *)
(** ** The run entry point *)

(** [db.C(name)]: the handle of a collection of the database. *)
Definition C (dbName name : string) : Collection :=
  mkCollection (String.append dbName (String "." name)).

(** What [maybePrune] asks of the database, in order. *)
Inductive db_event : Set :=
| DbCount (c : Collection)                                   (* c.Count() *)
| DbReadStats (c : Collection)                               (* getPruneLastTxnsCount(c) *)
| DbCleanAndPrune (args : CleanAndPruneArgs) (evs : list event)  (* CleanAndPrune(args) *)
| DbWrite (c : Collection) (w : write_op).                   (* a write to c *)

Section MaybePrune.

Variables pruneTxnBatchSize pruneMinTxnBatchSize pruneMaxTxnBatchSize : Z.
Variable maxBatchSleepTime : Duration.
Variable PrunerStats : Type.
Variable zeroPrunerStats : PrunerStats.
Variables TxnsRemoved DocQueuesCleaned StashDocsRemoved : PrunerStats -> Z.
Variables DocCacheMisses DocCacheHits CollectionQueries : PrunerStats -> Z.
Variable CombineStats : PrunerStats -> PrunerStats -> PrunerStats.
Variable Prune : IncrementalPruneArgs -> option Collection -> PrunerStats * option error.
Variable reverseFirst : bool.

(** The database: the reply to the [k]-th [Count()] on a collection, the
    reads of a stats collection, and the replies to the writes on it. *)
Variable Count : Collection -> nat -> Z * option error.
Variable statsOf : Collection -> StatsCollection.
Variable Insert : Collection -> pruneStats -> option error.
Variable UpsertId : Collection -> bson_value -> bsonM -> option error.

(** The two readings of the clock that are stored, and the identifier
    [bson.NewObjectId()] gives. *)
Variables started completed : Time.
Variable newId : ObjectId.

(** [maybePrune] on the database named [dbName].  Logging and the copy of
    the session are left out.  The result is the error and the requests
    made. *)
Definition maybePrune (dbName txnsName : string) (pruneOpts : PruneOptions)
  : option prune_error * list db_event :=
  let pruneOpts := validatePruneOptions pruneMinTxnBatchSize pruneOpts in
  let txnsPrune := C dbName (txnsPruneC txnsName) in
  let txns := C dbName txnsName in
  let txnsStashName := String.append txnsName ".stash" in
  let txnsStash := C dbName txnsStashName in
  let '(txnsCount, err) := Count txns 0 in
  let evs := [DbCount txns] in
  match err with
  | Some e => (Some (ErrStartingCount e), evs)
  | None =>
  let '(lastTxnsCount, err) := getPruneLastTxnsCount (statsOf txnsPrune) in
  let evs := evs ++ [DbReadStats txnsPrune] in
  match err with
  | Some e => (Some (ErrPruningStats e), evs)
  | None =>
  let '(required, rationale) := shouldPrune lastTxnsCount txnsCount pruneOpts in
  if negb required then (None, evs)
  else
  let '(stashDocsBefore, err) := Count txnsStash 0 in
  let evs := evs ++ [DbCount txnsStash] in
  match err with
  | Some e => (Some (ErrStartingStashCount txnsStashName e), evs)
  | None =>
  let txnsCountBefore := txnsCount in
  let args :=
    mkCleanAndPruneArgs (Some txns) txnsCount (MaxTime pruneOpts)
      (MaxBatchTransactions pruneOpts) false
      (SmallBatchTransactionCount pruneOpts)
      (BatchTransactionSleepTime pruneOpts) in
  let '(stats, err, sweepEvs) :=
    CleanAndPrune pruneTxnBatchSize pruneMinTxnBatchSize pruneMaxTxnBatchSize
      maxBatchSleepTime PrunerStats zeroPrunerStats
      TxnsRemoved DocQueuesCleaned StashDocsRemoved
      DocCacheMisses DocCacheHits CollectionQueries CombineStats Prune
      reverseFirst args in
  let evs := evs ++ [DbCleanAndPrune args sweepEvs] in
  match Trace err with
  | Some e => (Some (ErrPassed e), evs)
  | None =>
  let '(txnsCountAfter, err) := Count txns 1 in
  let evs := evs ++ [DbCount txns] in
  match err with
  | Some e => (Some (ErrFinalCount e), evs)
  | None =>
  let '(stashDocsAfter, err) := Count txnsStash 1 in
  let evs := evs ++ [DbCount txnsStash] in
  match err with
  | Some e => (Some (ErrFinalStashCount txnsStashName e), evs)
  | None =>
  let '(err, ws) :=
    writePruneTxnsCount (Insert txnsPrune) (UpsertId txnsPrune) newId
      started completed txnsCountBefore txnsCountAfter
      stashDocsBefore stashDocsAfter in
  (err, evs ++ map (DbWrite txnsPrune) ws)
  end end end end end end.

End MaybePrune.

(** The writes, the sweeps and the counts among the requests of a run. *)
Definition writes_of (evs : list db_event) : list write_op :=
  flat_map (fun ev => match ev with DbWrite _ w => [w] | _ => [] end) evs.

Definition runs_of (evs : list db_event) : list CleanAndPruneArgs :=
  flat_map (fun ev => match ev with DbCleanAndPrune a _ => [a] | _ => [] end) evs.

(** [maybePrune] over the structures of the examples. *)
Definition maybePrune_demo
  (sweep : IncrementalPruneArgs -> option Collection -> sweepStats * option error)
  (Count : Collection -> nat -> Z * option error)
  (docs : list (bson_value * bsonM)) :=
  maybePrune 1000 10 1000000 (1000 * Millisecond)
    sweepStats (mkSweepStats 0 0 0 0 0 0)
    sw_TxnsRemoved sw_DocQueuesCleaned sw_StashDocsRemoved
    sw_DocCacheMisses sw_DocCacheHits sw_CollectionQueries
    sweepStats_add sweep false
    Count (fun _ => storedCollection docs)
    (fun _ => okInsert) (fun _ => okUpsertId) 5 9 "ba9876543210".

(** A database with 9000 transactions before the sweep and 4100 after it,
    and a stash of 70 documents, then 20. *)
Definition demoCount (c : Collection) (k : nat) : Z * option error :=
  if String.eqb (FullName c) "juju.txns"
  then (match k with O => 9000 | _ => 4100 end, None)
  else (match k with O => 70 | _ => 20 end, None).

(* ------------------------------------------------------------------ *)
(** ** Small integers as [float32] *)

(** The mantissa and exponent of a positive integer of at most 24 bits:
    the integer shifted left until it has 24 bits. *)
Definition canon (p : positive) : positive * Z :=
  shl_align p 0 (Z.pos (digits2_pos p) - 24).

(** The decision with every option left unset and then resolved, in
    closed form over exact integers. *)
Definition defaultDecision (oldCount newCount : Z) : bool :=
  (oldCount <? 0)
  || ((defaultMinNewTransactions <=? newCount - oldCount)
      && ((defaultMaxNewTransactions <? newCount - oldCount)
          || (2 * oldCount <=? newCount))).

(* ================================================================== *)
(** * Part II: properties *)

(* ------------------------------------------------------------------ *)
(** ** Arithmetic on [int] *)

Lemma GoInt_wrap_exact (z : Z) : GoInt.is_int z -> GoInt.wrap z = z.
Proof.
  unfold GoInt.is_int, GoInt.min_int, GoInt.max_int, GoInt.wrap; intros H.
  rewrite Z.mod_small; lia.
Qed.

Lemma GoInt_sub_exact (a b : Z) : GoInt.is_int (a - b) -> GoInt.sub a b = a - b.
Proof. apply GoInt_wrap_exact. Qed.

Lemma GoInt_add_exact (a b : Z) : GoInt.is_int (a + b) -> GoInt.add a b = a + b.
Proof. apply GoInt_wrap_exact. Qed.

(** Two non-negative counts never overflow a subtraction. *)
Lemma GoInt_sub_counts (a b : Z) :
  GoInt.is_int a -> GoInt.is_int b -> 0 <= a -> 0 <= b -> GoInt.sub a b = a - b.
Proof.
  unfold GoInt.is_int, GoInt.min_int, GoInt.max_int; intros.
  apply GoInt_sub_exact; unfold GoInt.is_int, GoInt.min_int, GoInt.max_int; lia.
Qed.

(* ------------------------------------------------------------------ *)
(** ** The decision *)

(** C1, as amended.  [shouldPrune] answers by the first case that applies:
    prune, "no pruning run found", when [oldCount < 0]; skip, "not enough
    new transactions", when the difference is below [MinNewTransactions];
    prune, "too many new transactions", when it exceeds
    [MaxNewTransactions]; prune, "transactions have grown significantly",
    when [float32(newCount) >= float32(oldCount) * PruneFactor] in
    single-precision arithmetic; skip, "transactions have not grown
    significantly", otherwise.  The difference is Go's [newCount -
    oldCount] on [int], the exact difference whenever that is an [int].
    With Min 100, MaxNew 100000 and Factor 2.0 the counts (1000, 1150) give
    skip, (1000, 2100) prune, and (1000, 101101) prune. *)
Theorem shouldPrune_cascade (oldCount newCount : Z) (o : PruneOptions) :
  let difference := GoInt.sub newCount oldCount in
  (oldCount < 0 ->
     shouldPrune oldCount newCount o = (true, "no pruning run found"))
  /\ (0 <= oldCount -> difference < MinNewTransactions o ->
     shouldPrune oldCount newCount o = (false, "not enough new transactions"))
  /\ (0 <= oldCount -> MinNewTransactions o <= difference ->
      MaxNewTransactions o < difference ->
     shouldPrune oldCount newCount o = (true, "too many new transactions"))
  /\ (0 <= oldCount -> MinNewTransactions o <= difference <= MaxNewTransactions o ->
      grown oldCount newCount o = true ->
     shouldPrune oldCount newCount o = (true, "transactions have grown significantly"))
  /\ (0 <= oldCount -> MinNewTransactions o <= difference <= MaxNewTransactions o ->
      grown oldCount newCount o = false ->
     shouldPrune oldCount newCount o
       = (false, "transactions have not grown significantly"))
  /\ (GoInt.is_int (newCount - oldCount) -> difference = newCount - oldCount)
  /\ shouldPrune 1000 1150 exampleOptions
       = (false, "transactions have not grown significantly")
  /\ shouldPrune 1000 2100 exampleOptions
       = (true, "transactions have grown significantly")
  /\ shouldPrune 1000 101101 exampleOptions
       = (true, "too many new transactions").
Proof.
  cbv zeta. unfold shouldPrune, grown.
  repeat split.
  - intros H. apply Z.ltb_lt in H. now rewrite H.
  - intros H0 H1. apply Z.ltb_ge in H0. apply Z.ltb_lt in H1. now rewrite H0, H1.
  - intros H0 H1 H2. apply Z.ltb_ge in H0, H1. apply Z.ltb_lt in H2.
    now rewrite H0, H1, H2.
  - intros H0 [H1 H2] H3. apply Z.ltb_ge in H0, H1, H2.
    now rewrite H0, H1, H2, H3.
  - intros H0 [H1 H2] H3. apply Z.ltb_ge in H0, H1, H2.
    now rewrite H0, H1, H2, H3.
  - apply GoInt_sub_exact.
Qed.

Lemma shouldPrune_cascade_witness :
  shouldPrune 1000 2100 exampleOptions
    = (true, "transactions have grown significantly")
  /\ shouldPrune (-1) 5 exampleOptions = (true, "no pruning run found").
Proof.
  split.
  - apply (proj1 (proj2 (proj2 (proj2 (shouldPrune_cascade 1000 2100 exampleOptions))))).
    + lia.
    + vm_compute; split; discriminate.
    + vm_compute; reflexivity.
  - apply (proj1 (shouldPrune_cascade (-1) 5 exampleOptions)). lia.
Defined.

(** C1 as the design document states it fails: at 16777217 transactions
    after the last run and 33554433 now (Min 100, MaxNew 100000000, Factor
    2.0) the first three cases do not apply and [newCount] is below
    [oldCount * 2], yet the program prunes.  In [float32], 16777217 is
    rounded to 16777216 and 33554433 to 33554432. *)
Lemma shouldPrune_differs_from_exact :
  0 <= 16777217
  /\ MinNewTransactions largeOptions <= 33554433 - 16777217
  /\ 33554433 - 16777217 <= MaxNewTransactions largeOptions
  /\ PruneFactor largeOptions = of_int 2
  /\ 33554433 < 16777217 * 2
  /\ of_int 16777217 = of_int 16777216
  /\ of_int 33554433 = of_int 33554432
  /\ shouldPrune_exact 16777217 33554433 largeOptions
       = (false, "transactions have not grown significantly")
  /\ shouldPrune 16777217 33554433 largeOptions
       = (true, "transactions have grown significantly")
  /\ shouldPrune 16777217 33554433 largeOptions
       <> shouldPrune_exact 16777217 33554433 largeOptions.
Proof.
  repeat match goal with |- _ /\ _ => split end;
    try (vm_compute; (reflexivity || discriminate)).
Qed.

(** The first worked example of the design document. *)
Example shouldPrune_not_enough :
  shouldPrune 1000 1050 exampleOptions = (false, "not enough new transactions").
Proof. reflexivity. Qed.

(** On the worked examples the two readings of the growth test agree. *)
Example shouldPrune_exact_examples :
  shouldPrune_exact 1000 1150 exampleOptions = shouldPrune 1000 1150 exampleOptions
  /\ shouldPrune_exact 1000 2100 exampleOptions = shouldPrune 1000 2100 exampleOptions
  /\ shouldPrune_exact 1000 101101 exampleOptions
     = shouldPrune 1000 101101 exampleOptions.
Proof. repeat split. Qed.

(* ------------------------------------------------------------------ *)
(** ** Defaults *)

(** Reduce field reads of field assignments, and nothing else. *)
Ltac fields :=
  cbn [PruneFactor MinNewTransactions MaxNewTransactions MaxTime
       MaxBatchTransactions MaxBatches SmallBatchTransactionCount
       BatchTransactionSleepTime
       set_PruneFactor set_MinNewTransactions set_MaxNewTransactions
       set_MaxBatches set_SmallBatchTransactionCount
       set_BatchTransactionSleepTime] in *.

(** Split on the outcome of every test left in the goal, innermost first. *)
Ltac tests :=
  repeat (match goal with
          | |- context [if ?c then _ else _] =>
              lazymatch c with
              | context [if _ then _ else _] => fail
              | _ => destruct c eqn:?
              end
          end; fields).

Section DefaultsTheory.

Variable pruneMinTxnBatchSize : Z.

(** Each field of the result depends on the same field of the argument
    only. *)
Lemma validated_PruneFactor (o : PruneOptions) :
  PruneFactor (validatePruneOptions pruneMinTxnBatchSize o)
  = if eqb (PruneFactor o) zero then defaultPruneFactor else PruneFactor o.
Proof.
  destruct o; unfold validatePruneOptions; fields; tests; reflexivity.
Qed.

Lemma validated_MinNewTransactions (o : PruneOptions) :
  MinNewTransactions (validatePruneOptions pruneMinTxnBatchSize o)
  = if MinNewTransactions o =? 0 then defaultMinNewTransactions
    else MinNewTransactions o.
Proof.
  destruct o; unfold validatePruneOptions; fields; tests; reflexivity.
Qed.

Lemma validated_MaxNewTransactions (o : PruneOptions) :
  MaxNewTransactions (validatePruneOptions pruneMinTxnBatchSize o)
  = if MaxNewTransactions o =? 0 then defaultMaxNewTransactions
    else MaxNewTransactions o.
Proof.
  destruct o; unfold validatePruneOptions; fields; tests; reflexivity.
Qed.

Lemma validated_MaxBatches (o : PruneOptions) :
  MaxBatches (validatePruneOptions pruneMinTxnBatchSize o)
  = if MaxBatches o <=? 0 then 1 else MaxBatches o.
Proof.
  destruct o; unfold validatePruneOptions; fields; tests; reflexivity.
Qed.

Lemma validated_BatchTransactionSleepTime (o : PruneOptions) :
  BatchTransactionSleepTime (validatePruneOptions pruneMinTxnBatchSize o)
  = if BatchTransactionSleepTime o <? 0 then defaultBatchTransactionSleepTime
    else BatchTransactionSleepTime o.
Proof.
  destruct o; unfold validatePruneOptions; fields; tests; reflexivity.
Qed.

Lemma validated_SmallBatchTransactionCount (o : PruneOptions) :
  SmallBatchTransactionCount (validatePruneOptions pruneMinTxnBatchSize o)
  = if SmallBatchTransactionCount o <? pruneMinTxnBatchSize
    then defaultSmallBatchTransactionCount
    else SmallBatchTransactionCount o.
Proof.
  destruct o; unfold validatePruneOptions; fields; tests; reflexivity.
Qed.

Lemma validated_MaxTime (o : PruneOptions) :
  MaxTime (validatePruneOptions pruneMinTxnBatchSize o) = MaxTime o.
Proof.
  destruct o; unfold validatePruneOptions; fields; tests; reflexivity.
Qed.

Lemma validated_MaxBatchTransactions (o : PruneOptions) :
  MaxBatchTransactions (validatePruneOptions pruneMinTxnBatchSize o)
  = MaxBatchTransactions o.
Proof.
  destruct o; unfold validatePruneOptions; fields; tests; reflexivity.
Qed.

Lemma PruneOptions_ext (a b : PruneOptions) :
  PruneFactor a = PruneFactor b ->
  MinNewTransactions a = MinNewTransactions b ->
  MaxNewTransactions a = MaxNewTransactions b ->
  MaxTime a = MaxTime b ->
  MaxBatchTransactions a = MaxBatchTransactions b ->
  MaxBatches a = MaxBatches b ->
  SmallBatchTransactionCount a = SmallBatchTransactionCount b ->
  BatchTransactionSleepTime a = BatchTransactionSleepTime b ->
  a = b.
Proof.
  destruct a, b; fields; intros; congruence.
Qed.

(** 2.0 is not zero. *)
Lemma defaultPruneFactor_nonzero : eqb defaultPruneFactor zero = false.
Proof. reflexivity. Qed.

(** C6.  Resolving the defaults twice gives the configuration that
    resolving them once gives, for every options value. *)
Theorem validatePruneOptions_idempotent (o : PruneOptions) :
  validatePruneOptions pruneMinTxnBatchSize
    (validatePruneOptions pruneMinTxnBatchSize o)
  = validatePruneOptions pruneMinTxnBatchSize o.
Proof.
  apply PruneOptions_ext.
  - rewrite (validated_PruneFactor (validatePruneOptions _ o)).
    rewrite validated_PruneFactor.
    destruct (eqb (PruneFactor o) zero) eqn:E.
    + now rewrite defaultPruneFactor_nonzero.
    + now rewrite E.
  - rewrite (validated_MinNewTransactions (validatePruneOptions _ o)).
    rewrite validated_MinNewTransactions.
    destruct (MinNewTransactions o =? 0) eqn:E; [reflexivity | now rewrite E].
  - rewrite (validated_MaxNewTransactions (validatePruneOptions _ o)).
    rewrite validated_MaxNewTransactions.
    destruct (MaxNewTransactions o =? 0) eqn:E; [reflexivity | now rewrite E].
  - now rewrite !validated_MaxTime.
  - now rewrite !validated_MaxBatchTransactions.
  - rewrite (validated_MaxBatches (validatePruneOptions _ o)).
    rewrite validated_MaxBatches.
    destruct (MaxBatches o <=? 0) eqn:E; [reflexivity | now rewrite E].
  - rewrite (validated_SmallBatchTransactionCount (validatePruneOptions _ o)).
    rewrite validated_SmallBatchTransactionCount.
    destruct (SmallBatchTransactionCount o <? pruneMinTxnBatchSize) eqn:E.
    + destruct (defaultSmallBatchTransactionCount <? pruneMinTxnBatchSize);
      reflexivity.
    + now rewrite E.
  - rewrite (validated_BatchTransactionSleepTime (validatePruneOptions _ o)).
    rewrite validated_BatchTransactionSleepTime.
    destruct (BatchTransactionSleepTime o <? 0) eqn:E; [reflexivity | now rewrite E].
Qed.

(** C7.  [validatePruneOptions] is a total function with no error result.
    A zero [PruneFactor] becomes 2.0, a zero [MinNewTransactions] 100, a
    zero [MaxNewTransactions] 100000, a non-positive [MaxBatches] 1, a
    negative sleep the default of 10ms, so that the sleep of the result is
    never negative, and a batch size below the minimum, which an unset one
    is once that minimum is positive, the default of 1000.  A field that is
    none of these is left as it is, and so are [MaxTime] and
    [MaxBatchTransactions]. *)
Theorem validatePruneOptions_defaults (o : PruneOptions) :
  let o' := validatePruneOptions pruneMinTxnBatchSize o in
  defaultPruneFactor = S754_finite false 8388608 (-22)
  /\ (eqb (PruneFactor o) zero = true -> PruneFactor o' = defaultPruneFactor)
  /\ (eqb (PruneFactor o) zero = false -> PruneFactor o' = PruneFactor o)
  /\ (MinNewTransactions o = 0 -> MinNewTransactions o' = 100)
  /\ (MinNewTransactions o <> 0 -> MinNewTransactions o' = MinNewTransactions o)
  /\ (MaxNewTransactions o = 0 -> MaxNewTransactions o' = 100000)
  /\ (MaxNewTransactions o <> 0 -> MaxNewTransactions o' = MaxNewTransactions o)
  /\ (MaxBatches o <= 0 -> MaxBatches o' = 1)
  /\ (0 < MaxBatches o -> MaxBatches o' = MaxBatches o)
  /\ (BatchTransactionSleepTime o < 0 ->
      BatchTransactionSleepTime o' = 10 * Millisecond)
  /\ (0 <= BatchTransactionSleepTime o ->
      BatchTransactionSleepTime o' = BatchTransactionSleepTime o)
  /\ 0 <= BatchTransactionSleepTime o'
  /\ (SmallBatchTransactionCount o < pruneMinTxnBatchSize ->
      SmallBatchTransactionCount o' = 1000)
  /\ (0 < pruneMinTxnBatchSize -> SmallBatchTransactionCount o = 0 ->
      SmallBatchTransactionCount o' = 1000)
  /\ (pruneMinTxnBatchSize <= SmallBatchTransactionCount o ->
      SmallBatchTransactionCount o' = SmallBatchTransactionCount o)
  /\ MaxTime o' = MaxTime o
  /\ MaxBatchTransactions o' = MaxBatchTransactions o.
Proof.
  cbv zeta.
  rewrite validated_PruneFactor, validated_MinNewTransactions,
    validated_MaxNewTransactions, validated_MaxBatches,
    validated_BatchTransactionSleepTime, validated_SmallBatchTransactionCount,
    validated_MaxTime, validated_MaxBatchTransactions.
  unfold defaultMinNewTransactions, defaultMaxNewTransactions,
    defaultSmallBatchTransactionCount, defaultBatchTransactionSleepTime.
  repeat match goal with |- _ /\ _ => split end; try reflexivity.
  - intros ->; reflexivity.
  - intros ->; reflexivity.
  - intros ->; reflexivity.
  - intros H; apply Z.eqb_neq in H; now rewrite H.
  - intros ->; reflexivity.
  - intros H; apply Z.eqb_neq in H; now rewrite H.
  - intros H; apply Z.leb_le in H; now rewrite H.
  - intros H; apply Z.leb_gt in H; now rewrite H.
  - intros H; apply Z.ltb_lt in H; now rewrite H.
  - intros H; apply Z.ltb_ge in H; now rewrite H.
  - destruct (BatchTransactionSleepTime o <? 0) eqn:E.
    + unfold Millisecond; lia.
    + apply Z.ltb_ge in E; exact E.
  - intros H; apply Z.ltb_lt in H; now rewrite H.
  - intros H E. rewrite E. apply Z.ltb_lt in H. now rewrite H.
  - intros H; apply Z.ltb_ge in H; now rewrite H.
Qed.

End DefaultsTheory.

Lemma validatePruneOptions_defaults_witness :
  validatePruneOptions 10 unsetOptions
  = mkPruneOptions defaultPruneFactor 100 100000 0 0 1 1000 (10 * Millisecond).
Proof.
  pose proof (validatePruneOptions_defaults 10 unsetOptions) as H.
  cbv zeta in H.
  destruct H as (_ & Hf & _ & Hmin & _ & Hmax & _ & Hb & _ & Hs & _ & _ & Hc & _ & _ & Ht & Hm).
  apply PruneOptions_ext; fields.
  - apply Hf; reflexivity.
  - apply Hmin; reflexivity.
  - apply Hmax; reflexivity.
  - exact Ht.
  - exact Hm.
  - apply Hb; vm_compute; discriminate.
  - apply Hc; reflexivity.
  - apply Hs; reflexivity.
Defined.

(** The options of the examples are resolved: the defaults leave them as
    they are. *)
Example exampleOptions_resolved :
  validatePruneOptions 10 exampleOptions = exampleOptions
  /\ validatePruneOptions 10 largeOptions = largeOptions.
Proof. split; reflexivity. Qed.

(* ------------------------------------------------------------------ *)
(** ** The orchestrator *)

(** Turn the outcome of an integer test into the inequality it decides. *)
Ltac ztests :=
  repeat match goal with
         | H : (_ <? _) = true |- _ => apply Z.ltb_lt in H
         | H : (_ <? _) = false |- _ => apply Z.ltb_ge in H
         | H : (_ <=? _) = true |- _ => apply Z.leb_le in H
         | H : (_ <=? _) = false |- _ => apply Z.leb_gt in H
         | H : (_ =? _) = true |- _ => apply Z.eqb_eq in H
         | H : (_ =? _) = false |- _ => apply Z.eqb_neq in H
         | H : (_ || _) = true |- _ => apply orb_true_iff in H
         | H : (_ || _) = false |- _ => apply orb_false_iff in H; destruct H
         end.

Section OrchestratorTheory.

Variables pruneTxnBatchSize pruneMinTxnBatchSize pruneMaxTxnBatchSize : Z.
Variable maxBatchSleepTime : Duration.
Variable PrunerStats : Type.
Variable zeroPrunerStats : PrunerStats.
Variables TxnsRemoved DocQueuesCleaned StashDocsRemoved : PrunerStats -> Z.
Variables DocCacheMisses DocCacheHits CollectionQueries : PrunerStats -> Z.
Variable CombineStats : PrunerStats -> PrunerStats -> PrunerStats.
Variable Prune : IncrementalPruneArgs -> option Collection -> PrunerStats * option error.

Let check := validate pruneTxnBatchSize pruneMinTxnBatchSize pruneMaxTxnBatchSize
               maxBatchSleepTime.

Let invalid := invalidArgs pruneTxnBatchSize pruneMinTxnBatchSize pruneMaxTxnBatchSize
                 maxBatchSleepTime.

Let run := CleanAndPrune pruneTxnBatchSize pruneMinTxnBatchSize pruneMaxTxnBatchSize
             maxBatchSleepTime PrunerStats zeroPrunerStats
             TxnsRemoved DocQueuesCleaned StashDocsRemoved
             DocCacheMisses DocCacheHits CollectionQueries CombineStats Prune.

(** [validate] only ever reports configuration errors. *)
Lemma validate_reports_config_errors (args args' : CleanAndPruneArgs) (e : error) :
  check args = (args', Some e) -> is_config_error e = true.
Proof.
  unfold check, validate.
  destruct (Txns args); [|intros H; inversion H; reflexivity].
  repeat match goal with
         | |- context [if ?c then _ else _] =>
             lazymatch c with
             | context [if _ then _ else _] => fail
             | _ => destruct c
             end
         end; intros H; inversion H; reflexivity.
Qed.

(** It reports one exactly on the violations of the design document. *)
Lemma validate_fails_iff (args : CleanAndPruneArgs) :
  (exists e, snd (check args) = Some e) <-> invalid args.
Proof.
  unfold check, invalid, validate, invalidArgs, effectiveBatchSize.
  destruct (Txns args) as [c|]; cbn [snd].
  2:{ split; [intros _; left; reflexivity | intros _; eexists; reflexivity]. }
  destruct ((TxnBatchSleepTime args <? 0) || (maxBatchSleepTime <? TxnBatchSleepTime args))
    eqn:Esleep; cbn [snd].
  { split; [intros _ | intros _; eexists; reflexivity].
    right; left. ztests. lia. }
  destruct (TxnBatchSize args =? 0) eqn:Ezero;
    cbn [TxnBatchSize set_TxnBatchSize].
  - destruct (pruneTxnBatchSize <? pruneMinTxnBatchSize) eqn:Elo; cbn [snd].
    { split; [intros _ | intros _; eexists; reflexivity].
      right; right. ztests. lia. }
    destruct (pruneMaxTxnBatchSize <? pruneTxnBatchSize) eqn:Ehi; cbn [snd].
    { split; [intros _ | intros _; eexists; reflexivity].
      right; right. ztests. lia. }
    split; [intros [e He]; discriminate |].
    ztests. intros [Hi | [Hi | Hi]]; [discriminate | lia | lia].
  - destruct (TxnBatchSize args <? pruneMinTxnBatchSize) eqn:Elo; cbn [snd].
    { split; [intros _ | intros _; eexists; reflexivity].
      right; right. ztests. lia. }
    destruct (pruneMaxTxnBatchSize <? TxnBatchSize args) eqn:Ehi; cbn [snd].
    { split; [intros _ | intros _; eexists; reflexivity].
      right; right. ztests. lia. }
    split; [intros [e He]; discriminate |].
    ztests. intros [Hi | [Hi | Hi]]; [discriminate | lia | lia].
Qed.

(** The critical section keeps an error once it has one, and any error it
    records is wrapped by [errors.Trace]. *)
Lemma merge_error_is_traced (st : shared PrunerStats) (res : PrunerStats * option error) :
  (forall e, snd (fst st) = Some e -> is_config_error e = false) ->
  forall e, snd (fst (merge PrunerStats CombineStats st res)) = Some e ->
            is_config_error e = false.
Proof.
  destruct st as [[p a] l], res as [q r]; cbn [fst snd merge].
  intros Hst e.
  destruct a as [a|]; [destruct r|]; cbn [fst snd].
  - intros H; apply Hst; exact H.
  - intros H; apply Hst; exact H.
  - destruct r; cbn [Trace]; intros H; inversion H; reflexivity.
Qed.

(** A sweep only adds to the events, and keeps the error as the critical
    section leaves it. *)
Lemma prune_log (args : CleanAndPruneArgs) (reversed : bool) (st : shared PrunerStats) :
  exists warned,
    snd (prune PrunerStats CombineStats Prune args reversed st)
    = snd st
      ++ EvSweep (mkIncrementalPruneArgs (Args_MaxTime args) reversed
                    (TxnBatchSize args) (TxnBatchSleepTime args)) (Txns args)
         :: warned.
Proof.
  unfold prune. destruct st as [[p a] l]. cbn [snd].
  destruct (Prune _ _) as [q r]. cbn [merge].
  destruct a as [a|]; [destruct r|]; cbn [snd];
    rewrite <- ?app_assoc; cbn [app]; eexists; reflexivity.
Qed.

Lemma prune_error_is_traced (args : CleanAndPruneArgs) (reversed : bool)
  (st : shared PrunerStats) :
  (forall e, snd (fst st) = Some e -> is_config_error e = false) ->
  forall e, snd (fst (prune PrunerStats CombineStats Prune args reversed st)) = Some e ->
            is_config_error e = false.
Proof.
  unfold prune. destruct st as [[p a] l]. cbn [fst snd]. intros Hst.
  apply merge_error_is_traced. exact Hst.
Qed.

(** C8.  [CleanAndPrune] returns a configuration error, with no event of
    any kind (no reporting thread, no sweep, hence no database operation),
    exactly when the [Txns] handle is nil, or the sleep lies outside
    [0, maxBatchSleepTime], or the batch size, a zero one replaced by the
    default, lies outside [pruneMinTxnBatchSize, pruneMaxTxnBatchSize].
    Otherwise the run starts, and an error it returns is not a
    configuration error. *)
Theorem CleanAndPrune_configuration_errors
  (reverseFirst : bool) (args : CleanAndPruneArgs) :
  (invalid args <->
     exists e, is_config_error e = true
               /\ run reverseFirst args = (zeroCleanupStats, Some e, []))
  /\ (~ invalid args ->
      exists stats err evs,
        run reverseFirst args = (stats, err, EvStartReporting :: evs)
        /\ forall e, err = Some e -> is_config_error e = false).
Proof.
  pose proof (validate_fails_iff args) as Hiff.
  pose proof (validate_reports_config_errors args) as Hcfg.
  unfold run, CleanAndPrune. fold check. fold check in Hiff.
  destruct (check args) as [args' [e|]] eqn:Hv; cbn [snd] in Hiff.
  - split.
    + split.
      * intros _. exists e. split; [eapply Hcfg; reflexivity | reflexivity].
      * intros _. apply Hiff. exists e; reflexivity.
    + intros Hn. exfalso. apply Hn, Hiff. exists e; reflexivity.
  - split.
    + split.
      * intros Hi. apply Hiff in Hi. destruct Hi as [e He]; discriminate.
      * intros [e [_ He]].
        destruct (if Multithreaded args' then _ else _) as [[p a] w].
        destruct a, w; discriminate.
    + intros _.
      match goal with
      | |- context [if Multithreaded args' then ?x else ?y] =>
          set (m := if Multithreaded args' then x else y)
      end.
      assert (Herr : forall e, snd (fst m) = Some e -> is_config_error e = false).
      { subst m. destruct (Multithreaded args'); [destruct reverseFirst|];
          repeat apply prune_error_is_traced; cbn [fst snd]; discriminate. }
      assert (Hlog : exists l, snd m = EvStartReporting :: l).
      { subst m. destruct (Multithreaded args'); [destruct reverseFirst|];
          repeat match goal with
                 | |- context [snd (prune _ _ _ ?a ?b ?st)] =>
                     destruct (prune_log a b st) as [? ->]
                 end;
          cbn [snd app]; eexists; reflexivity. }
      destruct m as [[p a] w]. cbn [fst snd] in Herr, Hlog.
      destruct Hlog as [l ->]. cbn [app].
      destruct a as [e|].
      * do 3 eexists. split; [reflexivity|].
        cbn [Trace]. intros e' H; inversion H; reflexivity.
      * do 3 eexists. split; [reflexivity|]. discriminate.
Qed.

(** C9.  Whenever [CleanAndPrune] returns an error, from validation or
    from a sweep, in either order of the two sweeps, the statistics it
    returns are the zero value; statistics other than zero come with a nil
    error only. *)
Theorem CleanAndPrune_error_zero_stats
  (reverseFirst : bool) (args : CleanAndPruneArgs)
  (stats : CleanupStats) (e : error) (evs : list event) :
  run reverseFirst args = (stats, Some e, evs) -> stats = zeroCleanupStats.
Proof.
  unfold run, CleanAndPrune.
  destruct (validate _ _ _ _ args) as [args' [e'|]].
  - intros H; inversion H; reflexivity.
  - destruct (if Multithreaded args' then _ else _) as [[p a] w].
    destruct a; intros H; inversion H; reflexivity.
Qed.

End OrchestratorTheory.

Lemma CleanAndPrune_configuration_errors_witness :
  (exists e, is_config_error e = true
             /\ CleanAndPrune_demo workingSweep false (demoArgs false 5 0)
                = (zeroCleanupStats, Some e, []))
  /\ (exists stats err evs,
        CleanAndPrune_demo workingSweep false (demoArgs false 0 0)
        = (stats, err, EvStartReporting :: evs)
        /\ forall e, err = Some e -> is_config_error e = false).
Proof.
  split.
  - apply (proj1 (proj1 (CleanAndPrune_configuration_errors
                           1000 10 1000000 (1000 * Millisecond)
                           sweepStats (mkSweepStats 0 0 0 0 0 0)
                           sw_TxnsRemoved sw_DocQueuesCleaned sw_StashDocsRemoved
                           sw_DocCacheMisses sw_DocCacheHits sw_CollectionQueries
                           sweepStats_add workingSweep false (demoArgs false 5 0)))).
    right; right. unfold effectiveBatchSize; cbn. lia.
  - apply (proj2 (CleanAndPrune_configuration_errors
                    1000 10 1000000 (1000 * Millisecond)
                    sweepStats (mkSweepStats 0 0 0 0 0 0)
                    sw_TxnsRemoved sw_DocQueuesCleaned sw_StashDocsRemoved
                    sw_DocCacheMisses sw_DocCacheHits sw_CollectionQueries
                    sweepStats_add workingSweep false (demoArgs false 0 0))).
    unfold invalidArgs, effectiveBatchSize; cbn.
    intros [H | [H | H]]; [discriminate | apply H; lia | apply H; lia].
Defined.

Lemma CleanAndPrune_error_zero_stats_witness :
  fst (failingSweep (mkIncrementalPruneArgs 0 false 1000 0) None)
    = mkSweepStats 7 3 1 4 2 5
  /\ fst (fst (CleanAndPrune_demo failingSweep true (demoArgs true 0 0)))
    = zeroCleanupStats.
Proof.
  split; [reflexivity|].
  apply (CleanAndPrune_error_zero_stats
           1000 10 1000000 (1000 * Millisecond)
           sweepStats (mkSweepStats 0 0 0 0 0 0)
           sw_TxnsRemoved sw_DocQueuesCleaned sw_StashDocsRemoved
           sw_DocCacheMisses sw_DocCacheHits sw_CollectionQueries
           sweepStats_add failingSweep true (demoArgs true 0 0)
           _ (ErrTrace (ErrTrace (ErrExternal "connection reset")))
           (snd (CleanAndPrune_demo failingSweep true (demoArgs true 0 0)))).
  vm_compute. reflexivity.
Defined.

(** A successful dual sweep reports the combined work of both sweeps. *)
Example CleanAndPrune_dual_success :
  CleanAndPrune_demo workingSweep true (demoArgs true 0 0)
  = (mkCleanupStats 10 12 6 2 14 false, None,
     [EvStartReporting;
      EvSweep (mkIncrementalPruneArgs 0 true 1000 0) (Some (mkCollection "juju.txns"));
      EvSweep (mkIncrementalPruneArgs 0 false 1000 0) (Some (mkCollection "juju.txns"));
      EvStop]).
Proof. vm_compute. reflexivity. Qed.

(** When both sweeps fail, the first error is returned, traced twice, and
    the second is only logged; here the forward sweep is the first to
    enter the critical section. *)
Example CleanAndPrune_dual_failure :
  CleanAndPrune_demo failingSweep false (demoArgs true 500 0)
  = (zeroCleanupStats,
     Some (ErrTrace (ErrTrace (ErrExternal "connection reset"))),
     [EvStartReporting;
      EvSweep (mkIncrementalPruneArgs 0 false 500 0) (Some (mkCollection "juju.txns"));
      EvSweep (mkIncrementalPruneArgs 0 true 500 0) (Some (mkCollection "juju.txns"));
      EvWarnSecondError (ErrExternal "connection reset");
      EvStop]).
Proof. vm_compute. reflexivity. Qed.

(* ------------------------------------------------------------------ *)
(** ** The stats pointer *)

(** C5.  A missing "last" pointer, and a pointer that names a snapshot
    which does not exist, both give the count -1 with a nil error; -1
    makes [shouldPrune] answer prune whatever the current count and the
    options; and an error is returned, with the count -1, only when one of
    the two reads failed with an error other than "not found". *)
Theorem getPruneLastTxnsCount_recovers (txnsPrune : StatsCollection) :
  (FindId_M txnsPrune (BString "last") = OneErr ErrNotFound ->
     getPruneLastTxnsCount txnsPrune = (-1, None))
  /\ (forall ptrDoc,
        FindId_M txnsPrune (BString "last") = OneOk ptrDoc ->
        FindId_pruneStats txnsPrune (M_get ptrDoc "id") = OneErr ErrNotFound ->
        getPruneLastTxnsCount txnsPrune = (-1, None))
  /\ (forall newCount o,
        shouldPrune (-1) newCount o = (true, "no pruning run found"))
  /\ (forall e,
        snd (getPruneLastTxnsCount txnsPrune) = Some e ->
        fst (getPruneLastTxnsCount txnsPrune) = -1
        /\ exists cause,
             is_not_found cause = false
             /\ ((FindId_M txnsPrune (BString "last") = OneErr cause
                  /\ e = ErrLoadPointer cause)
                 \/ (exists ptrDoc,
                       FindId_M txnsPrune (BString "last") = OneOk ptrDoc
                       /\ FindId_pruneStats txnsPrune (M_get ptrDoc "id")
                          = OneErr cause
                       /\ e = ErrLoadStats cause))).
Proof.
  unfold getPruneLastTxnsCount.
  split; [|split; [|split]].
  - intros ->. reflexivity.
  - intros ptrDoc -> ->. reflexivity.
  - reflexivity.
  - intros e.
    destruct (FindId_M txnsPrune (BString "last")) as [ptrDoc | c] eqn:Hptr.
    + destruct (FindId_pruneStats txnsPrune (M_get ptrDoc "id")) as [doc | c] eqn:Hdoc.
      * cbn [snd]; discriminate.
      * destruct (is_not_found c) eqn:Hc; cbn [fst snd]; [discriminate|].
        intros H; inversion H; subst e. split; [reflexivity|].
        exists c. split; [exact Hc|]. right. exists ptrDoc. auto.
    + destruct (is_not_found c) eqn:Hc; cbn [fst snd]; [discriminate|].
      intros H; inversion H; subst e. split; [reflexivity|].
      exists c. split; [exact Hc|]. left. auto.
Qed.

Lemma getPruneLastTxnsCount_recovers_witness :
  getPruneLastTxnsCount (storedCollection brokenPointerDocs) = (-1, None)
  /\ getPruneLastTxnsCount (storedCollection []) = (-1, None)
  /\ fst (getPruneLastTxnsCount (failingCollection (ErrExternal "EOF"))) = -1.
Proof.
  split; [|split].
  - apply (proj1 (proj2 (getPruneLastTxnsCount_recovers
                           (storedCollection brokenPointerDocs)))
             [("_id", BString "last"); ("id", BObjectId "0123456789ab")]);
      reflexivity.
  - apply (proj1 (getPruneLastTxnsCount_recovers (storedCollection [])));
      reflexivity.
  - apply (proj2 (proj2 (proj2 (getPruneLastTxnsCount_recovers
                                  (failingCollection (ErrExternal "EOF")))))
             (ErrLoadPointer (ErrExternal "EOF"))).
    reflexivity.
Defined.

(** With its snapshot in place the pointer gives the recorded count. *)
Example getPruneLastTxnsCount_healthy :
  getPruneLastTxnsCount (storedCollection healthyDocs) = (4200, None).
Proof. reflexivity. Qed.

(* ------------------------------------------------------------------ *)
(** ** Collection names *)

(** The loop of [txnCollections] appends, in order, the names its test
    accepts. *)
Lemma append_loop_filter {A : Type} (keep : A -> bool) (l acc : list A) :
  fold_left (fun out x => if keep x then out ++ [x] else out) l acc
  = acc ++ filter keep l.
Proof.
  revert acc; induction l as [|x l IH]; intros acc; cbn [fold_left filter].
  - now rewrite app_nil_r.
  - rewrite IH. destruct (keep x); [now rewrite <- app_assoc | reflexivity].
Qed.

(** The switch decides what the design document lists. *)
Lemma hasTxnReferences_keptBySpec (txnsName name : string) :
  hasTxnReferences txnsName name = keptBySpec txnsName name.
Proof.
  unfold hasTxnReferences, keptBySpec.
  destruct (String.eqb name (String.append txnsName ".stash")); [reflexivity|].
  destruct (String.eqb name txnsName); [reflexivity|].
  destruct (HasPrefix name (String.append txnsName ".")); [reflexivity|].
  destruct (String.eqb name "statuseshistory"); [reflexivity|].
  destruct (HasPrefix name "system."); reflexivity.
Qed.

(** C4.  [txnCollections] keeps, in their order, exactly the names that
    are the stash collection or that are none of: the transaction
    collection, a name with its name and a dot as prefix, "statuseshistory",
    a name that starts with "system."; for "txns" the six names of the
    example give "txns.stash" and "widgets". *)
Theorem txnCollections_filter (inNames : list string) (txnsName : string) :
  txnCollections inNames txnsName = filter (keptBySpec txnsName) inNames
  /\ (forall name,
        In name (txnCollections inNames txnsName) <->
        In name inNames
        /\ (name = String.append txnsName ".stash"
            \/ (name <> txnsName
                /\ HasPrefix name (String.append txnsName ".") = false
                /\ name <> "statuseshistory"
                /\ HasPrefix name "system." = false)))
  /\ txnCollections
       ["txns"; "txns.stash"; "txns.prune"; "statuseshistory"; "system.indexes";
        "widgets"] "txns"
     = ["txns.stash"; "widgets"].
Proof.
  assert (Hf : txnCollections inNames txnsName = filter (keptBySpec txnsName) inNames).
  { unfold txnCollections. rewrite append_loop_filter. cbn [app].
    apply filter_ext. intros name. apply hasTxnReferences_keptBySpec. }
  split; [exact Hf|]. split; [|reflexivity].
  intros name. rewrite Hf, filter_In. unfold keptBySpec.
  split; intros [Hin Hk]; (split; [exact Hin|]).
  - apply orb_true_iff in Hk. destruct Hk as [Hk | Hk].
    + left. now apply String.eqb_eq.
    + right. apply negb_true_iff in Hk.
      apply orb_false_iff in Hk. destruct Hk as [Hk H4].
      apply orb_false_iff in Hk. destruct Hk as [Hk H3].
      apply orb_false_iff in Hk. destruct Hk as [H1 H2].
      apply String.eqb_neq in H1, H3. auto.
  - destruct Hk as [Hk | (H1 & H2 & H3 & H4)].
    + apply String.eqb_eq in Hk. now rewrite Hk.
    + apply String.eqb_neq in H1, H3. rewrite H1, H2, H3, H4.
      apply orb_true_r.
Qed.

Lemma txnCollections_filter_witness :
  In "widgets" (txnCollections ["txns"; "widgets"; "system.users"] "txns")
  /\ ~ In "system.users" (txnCollections ["txns"; "widgets"; "system.users"] "txns").
Proof.
  split.
  - apply (proj2 (proj1 (proj2 (txnCollections_filter
                                  ["txns"; "widgets"; "system.users"] "txns"))
                   "widgets")).
    split; [cbn; auto|]. right. repeat split; discriminate.
  - intros H.
    apply (proj1 (proj1 (proj2 (txnCollections_filter
                                  ["txns"; "widgets"; "system.users"] "txns"))
                   "system.users")) in H.
    destruct H as [_ [H | (_ & _ & _ & H)]]; discriminate.
Defined.

(* ------------------------------------------------------------------ *)
(** ** Tokens *)

Lemma substring_append_left (a b : string) :
  substring 0 (String.length a) (String.append a b) = a.
Proof.
  induction a as [|c a IH]; cbn.
  - now destruct b.
  - now rewrite IH.
Qed.

Lemma length_append_left (a b : string) :
  (String.length a <= String.length (String.append a b))%nat.
Proof.
  induction a as [|c a IH]; cbn; lia.
Qed.

Lemma length_substring_0 (n : nat) (s : string) :
  (n <= String.length s)%nat -> String.length (substring 0 n s) = n.
Proof.
  revert s; induction n as [|n IH]; intros s H.
  - now destruct s.
  - destruct s as [|c s]; cbn in *; [lia|]. rewrite IH; [reflexivity | lia].
Qed.

(** Induction on a string, two bytes at a time. *)
Lemma string_pair_ind (P : string -> Prop) :
  P EmptyString ->
  (forall a, P (String a EmptyString)) ->
  (forall a b rest, P rest -> P (String a (String b rest))) ->
  forall s, P s.
Proof.
  intros H0 H1 H2.
  assert (H : forall s, P s /\ forall a, P (String a s)).
  { induction s as [|c s [IHs IHa]]; split; auto. }
  intros s; apply H.
Qed.

(** [hex.DecodeString] succeeds on the strings of an even number of
    hexadecimal digits, with half as many bytes, and on no others. *)
Lemma DecodeString_all_hex (s : string) :
  all_hex s = true ->
  forall n, String.length s = (2 * n)%nat ->
  exists d, DecodeString s = Some d /\ String.length d = n.
Proof.
  induction s as [| a | a b rest IH] using string_pair_ind; intros Hhex n Hlen.
  - exists EmptyString. cbn in *. split; [reflexivity | lia].
  - cbn in Hlen. lia.
  - cbn [all_hex] in Hhex.
    destruct (fromHexChar a) as [hi|] eqn:Ea; [|discriminate].
    destruct (fromHexChar b) as [lo|] eqn:Eb; [|discriminate].
    destruct n as [|m]; cbn [String.length] in Hlen; [lia|].
    destruct (IH Hhex m ltac:(lia)) as (d & Hd & Hm).
    exists (String (ascii_of_N (16 * hi + lo)) d).
    cbn [DecodeString]. rewrite Ea, Eb, Hd. cbn [String.length].
    split; [reflexivity | lia].
Qed.

Lemma DecodeString_only_hex (s : string) :
  forall d, DecodeString s = Some d -> all_hex s = true.
Proof.
  induction s as [| a | a b rest IH] using string_pair_ind; intros d H.
  - reflexivity.
  - discriminate.
  - cbn [DecodeString] in H. cbn [all_hex].
    destruct (fromHexChar a); [|discriminate].
    destruct (fromHexChar b); [|discriminate].
    destruct (DecodeString rest) as [d'|]; [|discriminate].
    now apply (IH d').
Qed.

(** [bson.ObjectIdHex] on a string of 24 bytes. *)
Lemma ObjectIdHex_24 (id : string) :
  String.length id = 24%nat ->
  (all_hex id = true ->
     exists oid, ObjectIdHex id = Returns oid
                 /\ DecodeString id = Some oid /\ String.length oid = 12%nat)
  /\ (all_hex id = false -> ObjectIdHex id = Panics (InvalidObjectIdHex id)).
Proof.
  intros Hlen. unfold ObjectIdHex. split.
  - intros Hhex.
    destruct (DecodeString_all_hex id Hhex 12 ltac:(lia)) as (d & Hd & H12).
    exists d. rewrite Hd, H12. auto.
  - intros Hhex. destruct (DecodeString id) as [d|] eqn:Hd; [|reflexivity].
    apply DecodeString_only_hex in Hd. congruence.
Qed.

(** C10.  [txnTokenToId] returns an identifier exactly on the tokens of at
    least 24 bytes whose first 24 bytes are hexadecimal digits: it is then
    the twelve bytes these digits write, whatever follows them (the
    nonce).  On a token of at least 24 bytes with another byte among its
    first 24, [bson.ObjectIdHex] panics; on a shorter token the slice
    [token[:24]] is out of range; in both cases there is no result. *)
Theorem txnTokenToId_hex_slice (token : string) :
  ((24 <= String.length token)%nat ->
     all_hex (substring 0 24 token) = true ->
     exists oid,
       txnTokenToId token = Returns oid
       /\ DecodeString (substring 0 24 token) = Some oid
       /\ String.length oid = 12%nat)
  /\ ((24 <= String.length token)%nat ->
      all_hex (substring 0 24 token) = false ->
      txnTokenToId token = Panics (InvalidObjectIdHex (substring 0 24 token)))
  /\ (forall id nonce,
        String.length id = 24%nat ->
        txnTokenToId (String.append id nonce) = ObjectIdHex id)
  /\ ((String.length token < 24)%nat -> txnTokenToId token = Panics SliceOutOfRange).
Proof.
  unfold txnTokenToId, slice_to.
  split; [|split; [|split]].
  - intros H Hhex. pose proof (length_substring_0 24 token H) as Hlen.
    apply Nat.leb_le in H. rewrite H.
    now apply ObjectIdHex_24.
  - intros H Hhex. pose proof (length_substring_0 24 token H) as Hlen.
    apply Nat.leb_le in H. rewrite H.
    now apply ObjectIdHex_24.
  - intros id nonce Hlen.
    pose proof (length_append_left id nonce) as Hle. rewrite Hlen in Hle.
    apply Nat.leb_le in Hle. rewrite Hle.
    now rewrite <- Hlen, substring_append_left.
  - intros H. apply Nat.leb_gt in H. now rewrite H.
Qed.

Lemma txnTokenToId_hex_slice_witness :
  (exists oid,
     txnTokenToId "0123456789abcdef01234567_8f3a21bc" = Returns oid
     /\ DecodeString "0123456789abcdef01234567" = Some oid
     /\ String.length oid = 12%nat)
  /\ txnTokenToId "0123456789abcdeg01234567_8f3a21bc"
     = Panics (InvalidObjectIdHex "0123456789abcdeg01234567")
  /\ txnTokenToId "0123456789abcdef_8f3a" = Panics SliceOutOfRange.
Proof.
  split; [|split].
  - apply (proj1 (txnTokenToId_hex_slice "0123456789abcdef01234567_8f3a21bc"));
      [cbn; lia | reflexivity].
  - apply (proj1 (proj2 (txnTokenToId_hex_slice "0123456789abcdeg01234567_8f3a21bc")));
      [cbn; lia | reflexivity].
  - apply (proj2 (proj2 (proj2 (txnTokenToId_hex_slice "0123456789abcdef_8f3a")))).
    cbn. lia.
Defined.

(** A token of 33 bytes on which [txnTokenToId] returns no identifier:
    the slice is in range, but its 24 bytes are no hexadecimal digits and
    [bson.ObjectIdHex] panics. *)
Lemma txnTokenToId_panics_on_non_hex :
  (24 <= String.length "zzzzzzzzzzzzzzzzzzzzzzzz_8f3a21bc")%nat
  /\ txnTokenToId "zzzzzzzzzzzzzzzzzzzzzzzz_8f3a21bc"
     = Panics (InvalidObjectIdHex "zzzzzzzzzzzzzzzzzzzzzzzz")
  /\ forall oid, txnTokenToId "zzzzzzzzzzzzzzzzzzzzzzzz_8f3a21bc" <> Returns oid.
Proof.
  split; [cbn; lia|]. split; [reflexivity|]. intros oid H. discriminate H.
Qed.

(** The identifier of a token, byte by byte. *)
Example txnTokenToId_bytes :
  txnTokenToId "5f3a00ffABCDEF0123456789_1a2b"
  = Returns (string_of_list_ascii
               (map ascii_of_N [95; 58; 0; 255; 171; 205; 239; 1; 35; 69; 103; 137]%N)).
Proof. reflexivity. Qed.

(* ------------------------------------------------------------------ *)
(** ** Removers *)

Lemma length_snoc {A : Type} (l : list A) (x : A) :
  Z.of_nat (List.length (l ++ [x])) = Z.of_nat (List.length l) + 1.
Proof. rewrite length_app; cbn [List.length]; lia. Qed.


Lemma flushes_bounded_snoc (sent : list db_op) (o : db_op) :
  flushes_bounded sent -> op_size o <= maxBulkOps -> flushes_bounded (sent ++ [o]).
Proof.
  unfold flushes_bounded; intros Hs Ho.
  apply Forall_app; split; [exact Hs | repeat constructor; exact Ho].
Qed.

Section RemoverTheory.

Variable RemoveAll :
  Collection -> nat -> list bson_value -> option ChangeInfo * option error.
Variable Run :
  Collection -> nat -> list bson_value -> option BulkResult * option error.



(** A flush sends at most one request, the whole queue, and empties the
    queue unless it fails. *)
Lemma batchRemover_Flush_sends (r r' : batchRemover) (e : returned (option error))
  (sent sent' : list db_op) :
  batchRemover_Flush RemoveAll r sent = (r', e, sent') ->
  (sent' = sent \/ sent' = sent ++ [OpRemoveAll (coll r) (queue r)])
  /\ (e = Returns None -> queue r' = []).
Proof.
  unfold batchRemover_Flush.
  destruct (Z.of_nat (List.length (queue r)) <? 1) eqn:E.
  - intros H; inversion H; subst. split; [now left|]. intros _.
    apply Z.ltb_lt in E. destruct (queue r'); [reflexivity | cbn in E; lia].
  - destruct (RemoveAll _ _) as [result err].
    destruct err as [[]|], result; intros H; inversion H; subst;
      (split; [now right | (reflexivity || discriminate)]).
Qed.

Lemma bulkRemover_Flush_sends (r r' : bulkRemover) (e : option error)
  (sent sent' : list db_op) :
  bulk_wf r ->
  bulkRemover_Flush Run r sent = (r', e, sent') ->
  (sent' = sent \/ sent' = sent ++ [OpBulkRun (bulk_coll r) (chunk r)])
  /\ (e = None -> chunk r' = [] /\ chunkSize r' = 0).
Proof.
  unfold bulkRemover_Flush, bulk_wf. intros Hwf.
  destruct (chunkSize r <? 1) eqn:E.
  - intros H; inversion H; subst. split; [now left|]. intros _.
    apply Z.ltb_lt in E. destruct (chunk r'); [cbn in Hwf; auto | cbn in Hwf; lia].
  - destruct (Run _ _) as [result err].
    destruct err as [[]|], result; intros H; inversion H; subst;
      (split; [now right | ((split; reflexivity) || discriminate)]).
Qed.

(** One [Remove] keeps the queue below the maximum and the requests
    bounded. *)
Lemma batchRemover_Remove_bounded (id : bson_value) (r r' : batchRemover)
  (e : returned (option error)) (sent sent' : list db_op) :
  Z.of_nat (List.length (queue r)) < maxBulkOps ->
  flushes_bounded sent ->
  batchRemover_Remove RemoveAll id r sent = (r', e, sent') ->
  flushes_bounded sent'
  /\ (e = Returns None -> Z.of_nat (List.length (queue r')) < maxBulkOps).
Proof.
  intros Hq Hs. unfold batchRemover_Remove. cbn [queue removed].
  pose proof (length_snoc (queue r) id) as Hlen.
  destruct (maxBulkOps <=? Z.of_nat (List.length (queue r ++ [id]))) eqn:E.
  - intros H. apply batchRemover_Flush_sends in H. cbn [queue] in H.
    destruct H as [[-> | ->] Hempty].
    + split; [exact Hs|]. intros He. rewrite (Hempty He). unfold maxBulkOps; cbn; lia.
    + split.
      * apply flushes_bounded_snoc; [exact Hs|]. cbn [op_size]. lia.
      * intros He. rewrite (Hempty He). unfold maxBulkOps; cbn; lia.
  - intros H; inversion H; subst. cbn [queue]. apply Z.leb_gt in E.
    split; [exact Hs | intros _; exact E].
Qed.

Lemma bulkRemover_Remove_bounded (id : bson_value) (r r' : bulkRemover)
  (e : option error) (sent sent' : list db_op) :
  bulk_wf r -> chunkSize r < maxBulkOps ->
  flushes_bounded sent ->
  bulkRemover_Remove Run id r sent = (r', e, sent') ->
  flushes_bounded sent'
  /\ (e = None -> bulk_wf r' /\ chunkSize r' < maxBulkOps).
Proof.
  intros Hwf Hq Hs. unfold bulkRemover_Remove. cbn [chunk chunkSize bulk_removed].
  pose proof (length_snoc (chunk r) id) as Hlen.
  assert (Hadd : GoInt.add (chunkSize r) 1 = chunkSize r + 1).
  { apply GoInt_add_exact. unfold bulk_wf in Hwf.
    unfold GoInt.is_int, GoInt.min_int, GoInt.max_int, maxBulkOps in *. lia. }
  rewrite Hadd.
  assert (Hwf1 : bulk_wf (mkBulkRemover (bulk_coll r) (chunk r ++ [id])
                            (chunkSize r + 1) (bulk_removed r))).
  { unfold bulk_wf in *; cbn [chunk chunkSize]. lia. }
  destruct (maxBulkOps <=? chunkSize r + 1) eqn:E.
  - intros H. apply bulkRemover_Flush_sends in H; [|exact Hwf1]. cbn [chunk] in H.
    destruct H as [[-> | ->] Hempty].
    + split; [exact Hs|]. intros He. destruct (Hempty He) as [Hc Hz].
      unfold bulk_wf. rewrite Hc, Hz. unfold maxBulkOps; cbn; lia.
    + split.
      * apply flushes_bounded_snoc; [exact Hs|]. cbn [op_size].
        unfold bulk_wf in Hwf. lia.
      * intros He. destruct (Hempty He) as [Hc Hz].
        unfold bulk_wf. rewrite Hc, Hz. unfold maxBulkOps; cbn; lia.
  - intros H; inversion H; subst. cbn [chunkSize]. apply Z.leb_gt in E.
    split; [exact Hs | intros _; split; [exact Hwf1 | exact E]].
Qed.

(** The same over a sequence of calls. *)
Lemma batchRemover_RemoveEach_bounded (ids : list bson_value) :
  forall (r r' : batchRemover) (e : returned (option error))
         (sent sent' : list db_op),
    Z.of_nat (List.length (queue r)) < maxBulkOps ->
    flushes_bounded sent ->
    batchRemover_RemoveEach RemoveAll ids r sent = (r', e, sent') ->
    flushes_bounded sent'
    /\ (e = Returns None -> Z.of_nat (List.length (queue r')) < maxBulkOps).
Proof.
  induction ids as [|id rest IH]; intros r r' e sent sent' Hq Hs;
    cbn [batchRemover_RemoveEach].
  - intros H; inversion H; subst. auto.
  - destruct (batchRemover_Remove RemoveAll id r sent) as [[r1 e1] sent1] eqn:Hstep.
    destruct (batchRemover_Remove_bounded _ _ _ _ _ _ Hq Hs Hstep) as [Hs1 Hq1].
    destruct e1 as [[err|]|p].
    + intros H; inversion H; subst. split; [exact Hs1 | discriminate].
    + apply IH; auto.
    + intros H; inversion H; subst. split; [exact Hs1 | discriminate].
Qed.

Lemma bulkRemover_RemoveEach_bounded (ids : list bson_value) :
  forall (r r' : bulkRemover) (e : option error) (sent sent' : list db_op),
    bulk_wf r -> chunkSize r < maxBulkOps ->
    flushes_bounded sent ->
    bulkRemover_RemoveEach Run ids r sent = (r', e, sent') ->
    flushes_bounded sent'
    /\ (e = None -> bulk_wf r' /\ chunkSize r' < maxBulkOps).
Proof.
  induction ids as [|id rest IH]; intros r r' e sent sent' Hwf Hq Hs;
    cbn [bulkRemover_RemoveEach].
  - intros H; inversion H; subst. auto.
  - destruct (bulkRemover_Remove Run id r sent) as [[r1 e1] sent1] eqn:Hstep.
    destruct (bulkRemover_Remove_bounded _ _ _ _ _ _ Hwf Hq Hs Hstep) as [Hs1 Hq1].
    destruct e1 as [err|].
    + intros H; inversion H; subst. split; [exact Hs1 | discriminate].
    + destruct (Hq1 eq_refl). apply IH; auto.
Qed.

End RemoverTheory.

(** C3.  Start from a fresh remover of either kind and call [Remove] once
    per identifier of any sequence, against any database, stopping at the
    first call that fails (or, for a batch remover, panics).  Every
    request sent, the failing one included, covers at most [maxBulkOps],
    that is 1000, identifiers; and when every call has succeeded the queue
    (the chunk, whose counter is its length) holds strictly fewer than
    [maxBulkOps]. *)
Theorem removers_flush_bounded
  (RemoveAll : Collection -> nat -> list bson_value -> option ChangeInfo * option error)
  (Run : Collection -> nat -> list bson_value -> option BulkResult * option error)
  (c : Collection) (ids : list bson_value) :
  maxBulkOps = 1000
  /\ (forall r e sent,
        batchRemover_RemoveEach RemoveAll ids (newBatchRemover c) [] = (r, e, sent) ->
        flushes_bounded sent
        /\ (e = Returns None -> Z.of_nat (List.length (queue r)) < maxBulkOps))
  /\ (forall r e sent,
        bulkRemover_RemoveEach Run ids (newBulkRemover c) [] = (r, e, sent) ->
        flushes_bounded sent
        /\ (e = None ->
            chunkSize r = Z.of_nat (List.length (chunk r))
            /\ chunkSize r < maxBulkOps)).
Proof.
  split; [reflexivity|]. split.
  - intros r e sent H.
    apply (batchRemover_RemoveEach_bounded RemoveAll ids (newBatchRemover c) r e [] sent);
      [unfold maxBulkOps; cbn; lia | constructor | exact H].
  - intros r e sent H.
    apply (bulkRemover_RemoveEach_bounded Run ids (newBulkRemover c) r e [] sent);
      [reflexivity | unfold maxBulkOps; cbn; lia | constructor | exact H].
Qed.

Lemma removers_flush_bounded_witness :
  batchRemover_RemoveEach okRemoveAll (someIds 2500) (newBatchRemover txnsColl) []
    = (mkBatchRemover txnsColl (skipn 2000 (someIds 2500)) 2000, Returns None,
       [OpRemoveAll txnsColl (firstn 1000 (someIds 2500));
        OpRemoveAll txnsColl (firstn 1000 (skipn 1000 (someIds 2500)))])
  /\ flushes_bounded
       [OpRemoveAll txnsColl (firstn 1000 (someIds 2500));
        OpRemoveAll txnsColl (firstn 1000 (skipn 1000 (someIds 2500)))]
  /\ Z.of_nat (List.length (skipn 2000 (someIds 2500))) < maxBulkOps.
Proof.
  assert (H : batchRemover_RemoveEach okRemoveAll (someIds 2500)
                (newBatchRemover txnsColl) []
              = (mkBatchRemover txnsColl (skipn 2000 (someIds 2500)) 2000,
                 Returns None,
                 [OpRemoveAll txnsColl (firstn 1000 (someIds 2500));
                  OpRemoveAll txnsColl (firstn 1000 (skipn 1000 (someIds 2500)))])).
  { vm_compute. reflexivity. }
  split; [exact H|].
  destruct (proj1 (proj2 (removers_flush_bounded okRemoveAll okRun txnsColl
                            (someIds 2500)))
              _ _ _ H) as [Hs Hq].
  split; [exact Hs | exact (Hq eq_refl)].
Defined.



(* ================================================================== *)
(** * Part III: further properties of the code *)

(* ------------------------------------------------------------------ *)
(** ** Removers: what is sent, what is counted, what a failure leaves *)

Lemma GoInt_wrap_add_l (a b : Z) :
  GoInt.wrap (GoInt.wrap a + b) = GoInt.wrap (a + b).
Proof.
  unfold GoInt.wrap.
  replace ((a + 2 ^ 63) mod 2 ^ 64 - 2 ^ 63 + b + 2 ^ 63)
    with ((a + 2 ^ 63) mod 2 ^ 64 + b) by lia.
  rewrite Zplus_mod_idemp_l.
  replace (a + 2 ^ 63 + b) with (a + b + 2 ^ 63) by lia.
  reflexivity.
Qed.

Lemma GoInt_wrap_idem (a : Z) : GoInt.wrap (GoInt.wrap a) = GoInt.wrap a.
Proof.
  pose proof (GoInt_wrap_add_l a 0) as H.
  now rewrite !Z.add_0_r in H.
Qed.

Lemma sent_ids_app (a b : list db_op) :
  sent_ids (a ++ b) = sent_ids a ++ sent_ids b.
Proof. apply flat_map_app. Qed.

Lemma reported_removed_app RemoveAll (n : nat) (a b : list db_op) :
  reported_removed RemoveAll n (a ++ b)
  = reported_removed RemoveAll n a
    + reported_removed RemoveAll (n + List.length a) b.
Proof.
  revert n; induction a as [|o a IH]; intros n; cbn [app reported_removed List.length].
  - now rewrite Nat.add_0_r.
  - destruct o; rewrite IH, <- Nat.add_succ_comm; lia.
Qed.

Lemma reported_matched_app Run (n : nat) (a b : list db_op) :
  reported_matched Run n (a ++ b)
  = reported_matched Run n a
    + reported_matched Run (n + List.length a) b.
Proof.
  revert n; induction a as [|o a IH]; intros n; cbn [app reported_matched List.length].
  - now rewrite Nat.add_0_r.
  - destruct o; rewrite IH, <- Nat.add_succ_comm; lia.
Qed.

Section RemoverAccounts.

Variable RemoveAll :
  Collection -> nat -> list bson_value -> option ChangeInfo * option error.
Variable Run :
  Collection -> nat -> list bson_value -> option BulkResult * option error.

(** What one [Flush] does, case by case. *)
Lemma batchRemover_Flush_cases (r r' : batchRemover) (e : returned (option error))
  (sent sent' : list db_op) :
  batchRemover_Flush RemoveAll r sent = (r', e, sent') ->
  (queue r = [] /\ r' = r /\ e = Returns None /\ sent' = sent)
  \/ (queue r <> []
      /\ sent' = sent ++ [OpRemoveAll (coll r) (queue r)]
      /\ ((e = Returns None
           /\ r' = mkBatchRemover (coll r) []
                     (GoInt.add (removed r)
                        match fst (RemoveAll (coll r) (List.length sent) (queue r)) with
                        | Some info => Removed info
                        | None => 0
                        end))
          \/ (exists err, e = Returns (Some err) /\ is_not_found err = false
                          /\ snd (RemoveAll (coll r) (List.length sent) (queue r))
                             = Some err
                          /\ r' = r)
          \/ (exists p, e = Panics p /\ r' = r))).
Proof.
  unfold batchRemover_Flush.
  destruct (Z.of_nat (List.length (queue r)) <? 1) eqn:E.
  - intros H; inversion H; subst. left.
    apply Z.ltb_lt in E. destruct (queue r'); [auto | cbn in E; lia].
  - assert (Hne : queue r <> []).
    { intros Hq; rewrite Hq in E; discriminate. }
    destruct (RemoveAll _ _ _) as [result err]; cbn [fst snd].
    destruct err as [err|].
    + destruct err, result; intros H; inversion H; subst; right;
        (split; [exact Hne|]; split; [reflexivity|]);
        first [ left; split; reflexivity
              | right; left; eexists; repeat split; reflexivity
              | right; right; eexists; split; reflexivity ].
    + destruct result; intros H; inversion H; subst; right;
        (split; [exact Hne|]; split; [reflexivity|]);
        first [ left; split; reflexivity
              | right; right; eexists; split; reflexivity ].
Qed.

Lemma bulkRemover_Flush_cases (r r' : bulkRemover) (e : option error)
  (sent sent' : list db_op) :
  bulk_wf r ->
  bulkRemover_Flush Run r sent = (r', e, sent') ->
  (chunk r = [] /\ r' = r /\ e = None /\ sent' = sent)
  \/ (chunk r <> []
      /\ sent' = sent ++ [OpBulkRun (bulk_coll r) (chunk r)]
      /\ ((e = None
           /\ r' = mkBulkRemover (bulk_coll r) [] 0
                     match fst (Run (bulk_coll r) (List.length sent) (chunk r)) with
                     | Some res => GoInt.add (bulk_removed r) (Matched res)
                     | None => bulk_removed r
                     end)
          \/ (exists err, e = Some err /\ is_not_found err = false
                          /\ snd (Run (bulk_coll r) (List.length sent) (chunk r))
                             = Some err
                          /\ r' = r))).
Proof.
  unfold bulkRemover_Flush, bulk_wf. intros Hwf.
  destruct (chunkSize r <? 1) eqn:E.
  - intros H; inversion H; subst. left.
    apply Z.ltb_lt in E. destruct (chunk r'); [auto | cbn in Hwf; lia].
  - assert (Hne : chunk r <> []).
    { intros Hq; rewrite Hq in Hwf; cbn in Hwf; rewrite Hwf in E; discriminate. }
    destruct (Run _ _ _) as [result err]; cbn [fst snd].
    destruct err as [err|].
    + destruct err, result; intros H; inversion H; subst; right;
        (split; [exact Hne|]; split; [reflexivity|]);
        first [ left; split; reflexivity
              | right; eexists; repeat split; reflexivity ].
    + destruct result; intros H; inversion H; subst; right;
        (split; [exact Hne|]; split; [reflexivity|]); left; split; reflexivity.
Qed.

(** What one [Remove] does: the requests it adds, what it leaves queued,
    and how the count moves. *)
Lemma batchRemover_Remove_cases (id : bson_value) (r r' : batchRemover)
  (e : returned (option error)) (sent sent' : list db_op) :
  batchRemover_Remove RemoveAll id r sent = (r', e, sent') ->
  coll r' = coll r
  /\ exists ops,
       sent' = sent ++ ops
       /\ (e = Returns None ->
           sent_ids ops ++ queue r' = queue r ++ [id]
           /\ GoInt.wrap (removed r')
              = GoInt.wrap (removed r
                            + reported_removed RemoveAll (List.length sent) ops))
       /\ (forall err, e = Returns (Some err) ->
             is_not_found err = false
             /\ ops = [OpRemoveAll (coll r) (queue r')]
             /\ queue r' = queue r ++ [id]
             /\ removed r' = removed r
             /\ maxBulkOps <= Z.of_nat (List.length (queue r'))).
Proof.
  unfold batchRemover_Remove. cbn [queue].
  destruct (maxBulkOps <=? Z.of_nat (List.length (queue r ++ [id]))) eqn:E.
  - intros H. apply batchRemover_Flush_cases in H. cbn [queue coll removed] in H.
    destruct H as [(Hq & _)
                  | (_ & -> & [(-> & ->) | [(err & -> & Hnf & _ & ->) | (p & -> & ->)]])].
    + destruct (queue r); discriminate.
    + cbn [coll queue removed]. split; [reflexivity|].
      eexists; split; [reflexivity|]. split.
      * intros _. cbn [sent_ids flat_map op_ids reported_removed].
        rewrite !app_nil_r. split; [reflexivity|].
        unfold GoInt.add. rewrite GoInt_wrap_idem. now rewrite Z.add_0_r.
      * discriminate.
    + cbn [coll queue removed]. split; [reflexivity|].
      eexists; split; [reflexivity|]. split; [discriminate|].
      intros err' H; inversion H; subst err'. apply Z.leb_le in E. auto.
    + cbn [coll queue removed]. split; [reflexivity|].
      eexists; split; [reflexivity|]. split; discriminate.
  - intros H; inversion H; subst. cbn [coll queue removed].
    split; [reflexivity|]. exists []. rewrite app_nil_r.
    split; [reflexivity|]. split; [|discriminate].
    intros _. cbn [sent_ids flat_map reported_removed app].
    now rewrite Z.add_0_r.
Qed.

Lemma bulkRemover_Remove_cases (id : bson_value) (r r' : bulkRemover)
  (e : option error) (sent sent' : list db_op) :
  bulk_wf r -> chunkSize r < maxBulkOps ->
  bulkRemover_Remove Run id r sent = (r', e, sent') ->
  bulk_coll r' = bulk_coll r
  /\ exists ops,
       sent' = sent ++ ops
       /\ (e = None ->
           sent_ids ops ++ chunk r' = chunk r ++ [id]
           /\ GoInt.wrap (bulk_removed r')
              = GoInt.wrap (bulk_removed r
                            + reported_matched Run (List.length sent) ops)
           /\ bulk_wf r' /\ chunkSize r' < maxBulkOps)
       /\ (forall err, e = Some err ->
             is_not_found err = false
             /\ ops = [OpBulkRun (bulk_coll r) (chunk r')]
             /\ chunk r' = chunk r ++ [id]
             /\ bulk_removed r' = bulk_removed r
             /\ chunkSize r' = maxBulkOps
             /\ bulk_wf r').
Proof.
  intros Hwf Hlt. unfold bulkRemover_Remove. cbn [chunk chunkSize bulk_removed bulk_coll].
  assert (Hadd : GoInt.add (chunkSize r) 1 = chunkSize r + 1).
  { apply GoInt_add_exact. unfold bulk_wf in Hwf.
    unfold GoInt.is_int, GoInt.min_int, GoInt.max_int, maxBulkOps in *. lia. }
  rewrite Hadd.
  assert (Hwf1 : bulk_wf (mkBulkRemover (bulk_coll r) (chunk r ++ [id])
                            (chunkSize r + 1) (bulk_removed r))).
  { unfold bulk_wf in *; cbn [chunk chunkSize].
    rewrite length_snoc. lia. }
  destruct (maxBulkOps <=? chunkSize r + 1) eqn:E.
  - intros H. apply bulkRemover_Flush_cases in H; [|exact Hwf1].
    cbn [chunk chunkSize bulk_coll bulk_removed] in H.
    destruct H as [(Hq & _) | (_ & -> & [(-> & ->) | (err & -> & Hnf & _ & ->)])].
    + destruct (chunk r); discriminate.
    + cbn [bulk_coll chunk bulk_removed]. split; [reflexivity|].
      eexists; split; [reflexivity|]. split.
      * intros _. cbn [sent_ids flat_map op_ids reported_matched].
        rewrite !app_nil_r. split; [reflexivity|].
        split; [|split; [reflexivity | reflexivity]].
        destruct (fst (Run _ _ _)).
        -- unfold GoInt.add. rewrite GoInt_wrap_idem. now rewrite Z.add_0_r.
        -- now rewrite !Z.add_0_r.
      * discriminate.
    + cbn [bulk_coll chunk chunkSize bulk_removed]. split; [reflexivity|].
      eexists; split; [reflexivity|]. split; [discriminate|].
      intros err' H; inversion H; subst err'. apply Z.leb_le in E.
      repeat split; auto. lia.
  - intros H; inversion H; subst. cbn [bulk_coll chunk bulk_removed].
    split; [reflexivity|]. exists []. rewrite app_nil_r.
    split; [reflexivity|]. split; [|discriminate].
    intros _. cbn [sent_ids flat_map reported_matched app].
    rewrite Z.add_0_r. apply Z.leb_gt in E.
    repeat split; auto.
Qed.

(** The same over a sequence of calls, from any remover. *)
Lemma batchRemover_RemoveEach_account (ids : list bson_value) :
  forall (r r' : batchRemover) (e : returned (option error))
         (sent sent' : list db_op),
    batchRemover_RemoveEach RemoveAll ids r sent = (r', e, sent') ->
    coll r' = coll r
    /\ exists ops,
         sent' = sent ++ ops
         /\ (e = Returns None ->
             sent_ids ops ++ queue r' = queue r ++ ids
             /\ GoInt.wrap (removed r')
                = GoInt.wrap (removed r
                              + reported_removed RemoveAll (List.length sent) ops))
         /\ (forall err, e = Returns (Some err) ->
               is_not_found err = false
               /\ maxBulkOps <= Z.of_nat (List.length (queue r'))
               /\ exists k ops0,
                    (k <= List.length ids)%nat
                    /\ ops = ops0 ++ [OpRemoveAll (coll r) (queue r')]
                    /\ sent_ids ops0 ++ queue r' = queue r ++ firstn k ids).
Proof.
  induction ids as [|id rest IH]; intros r r' e sent sent';
    cbn [batchRemover_RemoveEach].
  - intros H; inversion H; subst. split; [reflexivity|].
    exists []. rewrite !app_nil_r. split; [reflexivity|].
    split; [|discriminate]. intros _.
    cbn [sent_ids flat_map reported_removed app]. now rewrite Z.add_0_r.
  - destruct (batchRemover_Remove RemoveAll id r sent) as [[r1 e1] sent1] eqn:Hstep.
    apply batchRemover_Remove_cases in Hstep.
    destruct Hstep as (Hc1 & ops1 & -> & Hok1 & Hfail1).
    destruct e1 as [[err1|]|p1];
      [ | | intros H; inversion H; subst; split; [exact Hc1|];
            eexists; split; [reflexivity|]; split; discriminate ].
    + intros H; inversion H; subst.
      destruct (Hfail1 _ eq_refl) as (Hnf & -> & Hq & _ & Hlen).
      split; [exact Hc1|]. eexists; split; [reflexivity|].
      split; [discriminate|].
      intros err H'; inversion H'; subst err.
      split; [exact Hnf|]. split; [exact Hlen|].
      exists 1%nat, []. cbn [app sent_ids flat_map firstn List.length].
      split; [lia|]. split; [reflexivity | exact Hq].
    + destruct (Hok1 eq_refl) as [Hids1 Hrem1].
      intros H. apply IH in H.
      destruct H as (Hc2 & ops2 & -> & Hok2 & Hfail2).
      split; [congruence|].
      exists (ops1 ++ ops2). split; [now rewrite app_assoc|]. split.
      * intros He. destruct (Hok2 He) as [Hids2 Hrem2].
        split.
        -- rewrite sent_ids_app, <- app_assoc, Hids2, app_assoc, Hids1.
           now rewrite <- app_assoc.
        -- rewrite Hrem2, length_app, reported_removed_app.
           rewrite <- GoInt_wrap_add_l, Hrem1, GoInt_wrap_add_l.
           f_equal; lia.
      * intros err He. destruct (Hfail2 err He) as (Hnf & Hlen & k & ops0 & Hk & -> & Hids2).
        split; [exact Hnf|]. split; [exact Hlen|].
        exists (S k), (ops1 ++ ops0). cbn [List.length firstn].
        split; [lia|]. split; [now rewrite Hc1, app_assoc|].
        rewrite sent_ids_app, <- app_assoc, Hids2, app_assoc, Hids1.
        now rewrite <- app_assoc.
Qed.

Lemma bulkRemover_RemoveEach_account (ids : list bson_value) :
  forall (r r' : bulkRemover) (e : option error) (sent sent' : list db_op),
    bulk_wf r -> chunkSize r < maxBulkOps ->
    bulkRemover_RemoveEach Run ids r sent = (r', e, sent') ->
    bulk_coll r' = bulk_coll r
    /\ bulk_wf r'
    /\ exists ops,
         sent' = sent ++ ops
         /\ (e = None ->
             sent_ids ops ++ chunk r' = chunk r ++ ids
             /\ GoInt.wrap (bulk_removed r')
                = GoInt.wrap (bulk_removed r
                              + reported_matched Run (List.length sent) ops))
         /\ (forall err, e = Some err ->
               is_not_found err = false
               /\ chunkSize r' = maxBulkOps
               /\ exists k ops0,
                    (k <= List.length ids)%nat
                    /\ ops = ops0 ++ [OpBulkRun (bulk_coll r) (chunk r')]
                    /\ sent_ids ops0 ++ chunk r' = chunk r ++ firstn k ids).
Proof.
  induction ids as [|id rest IH]; intros r r' e sent sent' Hwf Hlt;
    cbn [bulkRemover_RemoveEach].
  - intros H; inversion H; subst. split; [reflexivity|]. split; [exact Hwf|].
    exists []. rewrite !app_nil_r. split; [reflexivity|].
    split; [|discriminate]. intros _.
    cbn [sent_ids flat_map reported_matched app]. now rewrite Z.add_0_r.
  - destruct (bulkRemover_Remove Run id r sent) as [[r1 e1] sent1] eqn:Hstep.
    apply bulkRemover_Remove_cases in Hstep; [|exact Hwf|exact Hlt].
    destruct Hstep as (Hc1 & ops1 & -> & Hok1 & Hfail1).
    destruct e1 as [err1|].
    + intros H; inversion H; subst.
      destruct (Hfail1 _ eq_refl) as (Hnf & -> & Hq & _ & Hlen & Hwf1).
      split; [exact Hc1|]. split; [exact Hwf1|].
      eexists; split; [reflexivity|].
      split; [discriminate|].
      intros err H'; inversion H'; subst err.
      split; [exact Hnf|]. split; [exact Hlen|].
      exists 1%nat, []. cbn [app sent_ids flat_map firstn List.length].
      split; [lia|]. split; [reflexivity | exact Hq].
    + destruct (Hok1 eq_refl) as (Hids1 & Hrem1 & Hwf1 & Hlt1).
      intros H. apply IH in H; [|exact Hwf1|exact Hlt1].
      destruct H as (Hc2 & Hwf2 & ops2 & -> & Hok2 & Hfail2).
      split; [congruence|]. split; [exact Hwf2|].
      exists (ops1 ++ ops2). split; [now rewrite app_assoc|]. split.
      * intros He. destruct (Hok2 He) as [Hids2 Hrem2].
        split.
        -- rewrite sent_ids_app, <- app_assoc, Hids2, app_assoc, Hids1.
           now rewrite <- app_assoc.
        -- rewrite Hrem2, length_app, reported_matched_app.
           rewrite <- GoInt_wrap_add_l, Hrem1, GoInt_wrap_add_l.
           f_equal; lia.
      * intros err He.
        destruct (Hfail2 err He) as (Hnf & Hlen & k & ops0 & Hk & -> & Hids2).
        split; [exact Hnf|]. split; [exact Hlen|].
        exists (S k), (ops1 ++ ops0). cbn [List.length firstn].
        split; [lia|]. split; [now rewrite Hc1, app_assoc|].
        rewrite sent_ids_app, <- app_assoc, Hids2, app_assoc, Hids1.
        now rewrite <- app_assoc.
Qed.

End RemoverAccounts.

Lemma GoInt_wrap_is_int (z : Z) : GoInt.is_int (GoInt.wrap z).
Proof.
  unfold GoInt.is_int, GoInt.min_int, GoInt.max_int, GoInt.wrap.
  pose proof (Z.mod_pos_bound (z + 2 ^ 63) (2 ^ 64) ltac:(lia)); lia.
Qed.

(** The count of a remover stays an [int]. *)
Lemma batchRemover_RemoveEach_int RemoveAll (ids : list bson_value) :
  forall (r r' : batchRemover) (e : returned (option error))
         (sent sent' : list db_op),
    GoInt.is_int (removed r) ->
    batchRemover_RemoveEach RemoveAll ids r sent = (r', e, sent') ->
    GoInt.is_int (removed r').
Proof.
  induction ids as [|id rest IH]; intros r r' e sent sent' Hint;
    cbn [batchRemover_RemoveEach].
  - intros H; inversion H; subst; exact Hint.
  - destruct (batchRemover_Remove RemoveAll id r sent) as [[r1 e1] sent1] eqn:Hstep.
    assert (H1 : GoInt.is_int (removed r1)).
    { unfold batchRemover_Remove in Hstep.
      destruct (maxBulkOps <=? _).
      - apply batchRemover_Flush_cases in Hstep. cbn [queue coll removed] in Hstep.
        destruct Hstep as [(_ & -> & _)
                          | (_ & _ & [(_ & ->)
                                     | [(err & _ & _ & _ & ->) | (p & _ & ->)]])];
          cbn [removed]; try exact Hint. apply GoInt_wrap_is_int.
      - inversion Hstep; subst; exact Hint. }
    destruct e1 as [[err1|]|p1];
      [intros H; inversion H; subst; exact H1 | apply IH; exact H1
      | intros H; inversion H; subst; exact H1].
Qed.

Lemma bulkRemover_RemoveEach_int Run (ids : list bson_value) :
  forall (r r' : bulkRemover) (e : option error) (sent sent' : list db_op),
    GoInt.is_int (bulk_removed r) ->
    bulkRemover_RemoveEach Run ids r sent = (r', e, sent') ->
    GoInt.is_int (bulk_removed r').
Proof.
  induction ids as [|id rest IH]; intros r r' e sent sent' Hint;
    cbn [bulkRemover_RemoveEach].
  - intros H; inversion H; subst; exact Hint.
  - destruct (bulkRemover_Remove Run id r sent) as [[r1 e1] sent1] eqn:Hstep.
    assert (H1 : GoInt.is_int (bulk_removed r1)).
    { unfold bulkRemover_Remove, bulkRemover_Flush in Hstep.
      cbn [chunk chunkSize bulk_removed bulk_coll] in Hstep.
      repeat match type of Hstep with
             | context [if ?c then _ else _] => destruct c
             | context [let '(_, _) := ?x in _] => destruct x as [[res|] [[]|]]
             end;
        inversion Hstep; subst; cbn [bulk_removed newChunk];
        first [exact Hint | apply GoInt_wrap_is_int]. }
    destruct e1; [intros H; inversion H; subst; exact H1 | apply IH; exact H1].
Qed.

(** X1.  Exactly-once, in order.  After any sequence of [Remove] calls on
    a fresh remover of either kind that all return nil, the identifiers
    of the requests sent, followed by the identifiers still queued, are
    the identifiers given, in the order given; and if the [Flush] that
    follows returns nil too, the queue is empty and the requests sent carry
    exactly the identifiers given. *)
Theorem removers_send_each_id_once
  (RemoveAll : Collection -> nat -> list bson_value -> option ChangeInfo * option error)
  (Run : Collection -> nat -> list bson_value -> option BulkResult * option error)
  (c : Collection) (ids : list bson_value) :
  (forall r sent,
      batchRemover_RemoveEach RemoveAll ids (newBatchRemover c) []
      = (r, Returns None, sent) ->
      sent_ids sent ++ queue r = ids
      /\ forall r2 sent2,
           batchRemover_Flush RemoveAll r sent = (r2, Returns None, sent2) ->
           queue r2 = [] /\ sent_ids sent2 = ids)
  /\ (forall r sent,
        bulkRemover_RemoveEach Run ids (newBulkRemover c) [] = (r, None, sent) ->
        sent_ids sent ++ chunk r = ids
        /\ forall r2 sent2,
             bulkRemover_Flush Run r sent = (r2, None, sent2) ->
             chunk r2 = [] /\ sent_ids sent2 = ids).
Proof.
  split.
  - intros r sent H.
    apply batchRemover_RemoveEach_account in H.
    destruct H as (_ & ops & Hs & Hok & _). cbn [app] in Hs; subst ops.
    destruct (Hok eq_refl) as [Hids _]. cbn [newBatchRemover queue app] in Hids.
    split; [exact Hids|].
    intros r2 sent2 Hf. apply batchRemover_Flush_cases in Hf.
    destruct Hf as [(Hq & -> & _ & ->)
                   | (_ & -> & [(_ & ->) | [(err & He & _) | (p & He & _)]])].
    + split; [exact Hq|]. now rewrite Hq, app_nil_r in Hids.
    + split; [reflexivity|].
      rewrite sent_ids_app. cbn [sent_ids flat_map op_ids].
      now rewrite app_nil_r.
    + discriminate.
    + discriminate.
  - intros r sent H.
    apply bulkRemover_RemoveEach_account in H;
      [|reflexivity | unfold maxBulkOps; cbn; lia].
    destruct H as (_ & Hwf & ops & Hs & Hok & _). cbn [app] in Hs; subst ops.
    destruct (Hok eq_refl) as [Hids _].
    cbn [newBulkRemover newChunk chunk app] in Hids.
    split; [exact Hids|].
    intros r2 sent2 Hf. apply bulkRemover_Flush_cases in Hf; [|exact Hwf].
    destruct Hf as [(Hq & -> & _ & ->) | (_ & -> & [(_ & ->) | (err & He & _)])].
    + split; [exact Hq|]. now rewrite Hq, app_nil_r in Hids.
    + split; [reflexivity|].
      rewrite sent_ids_app. cbn [sent_ids flat_map op_ids].
      now rewrite app_nil_r.
    + discriminate.
Qed.

Lemma removers_send_each_id_once_witness :
  sent_ids [OpRemoveAll txnsColl (firstn 1000 (someIds 2500));
            OpRemoveAll txnsColl (firstn 1000 (skipn 1000 (someIds 2500)))]
    ++ skipn 2000 (someIds 2500)
  = someIds 2500.
Proof.
  apply (proj1 (proj1 (removers_send_each_id_once okRemoveAll okRun txnsColl
                         (someIds 2500))
                  (mkBatchRemover txnsColl (skipn 2000 (someIds 2500)) 2000)
                  [OpRemoveAll txnsColl (firstn 1000 (someIds 2500));
                   OpRemoveAll txnsColl (firstn 1000 (skipn 1000 (someIds 2500)))]
                  ltac:(vm_compute; reflexivity))).
Defined.

(** X2.  The count of a remover is what the database reported, not what
    was queued.  After any sequence of [Remove] calls on a fresh remover
    that all return nil, [Removed()] is the sum, as an [int], of the
    [Removed] counts (the [Matched] counts of the non-nil results, for a
    bulk remover) in the replies to the requests sent, a reply that came
    with "not found" included; and so it is after a [Flush] that returns
    nil. *)
Theorem removers_count_what_was_reported
  (RemoveAll : Collection -> nat -> list bson_value -> option ChangeInfo * option error)
  (Run : Collection -> nat -> list bson_value -> option BulkResult * option error)
  (c : Collection) (ids : list bson_value) :
  (forall r sent,
      batchRemover_RemoveEach RemoveAll ids (newBatchRemover c) []
      = (r, Returns None, sent) ->
      batchRemover_Removed r = GoInt.wrap (reported_removed RemoveAll 0 sent)
      /\ forall r2 sent2,
           batchRemover_Flush RemoveAll r sent = (r2, Returns None, sent2) ->
           batchRemover_Removed r2 = GoInt.wrap (reported_removed RemoveAll 0 sent2))
  /\ (forall r sent,
        bulkRemover_RemoveEach Run ids (newBulkRemover c) [] = (r, None, sent) ->
        bulkRemover_Removed r = GoInt.wrap (reported_matched Run 0 sent)
        /\ forall r2 sent2,
             bulkRemover_Flush Run r sent = (r2, None, sent2) ->
             bulkRemover_Removed r2 = GoInt.wrap (reported_matched Run 0 sent2)).
Proof.
  assert (Hz : GoInt.is_int 0)
    by (unfold GoInt.is_int, GoInt.min_int, GoInt.max_int; lia).
  unfold batchRemover_Removed, bulkRemover_Removed.
  split.
  - intros r sent H.
    pose proof (batchRemover_RemoveEach_int RemoveAll ids (newBatchRemover c)
                  r (Returns None) [] sent Hz H) as Hint.
    apply batchRemover_RemoveEach_account in H.
    destruct H as (_ & ops & Hs & Hok & _). cbn [app] in Hs; subst ops.
    destruct (Hok eq_refl) as [_ Hrem].
    cbn [newBatchRemover removed List.length] in Hrem.
    rewrite (GoInt_wrap_exact _ Hint), Z.add_0_l in Hrem.
    split; [exact Hrem|].
    intros r2 sent2 Hf. apply batchRemover_Flush_cases in Hf.
    destruct Hf as [(_ & -> & _ & ->)
                   | (_ & -> & [(_ & ->) | [(err & He & _) | (p & He & _)]])].
    + exact Hrem.
    + cbn [removed]. rewrite reported_removed_app. cbn [reported_removed Nat.add].
      unfold GoInt.add. rewrite Hrem, GoInt_wrap_add_l. f_equal. lia.
    + discriminate.
    + discriminate.
  - intros r sent H.
    pose proof (bulkRemover_RemoveEach_int Run ids (newBulkRemover c)
                  r None [] sent Hz H) as Hint.
    apply bulkRemover_RemoveEach_account in H;
      [|reflexivity | unfold maxBulkOps; cbn; lia].
    destruct H as (_ & Hwf & ops & Hs & Hok & _). cbn [app] in Hs; subst ops.
    destruct (Hok eq_refl) as [_ Hrem].
    cbn [newBulkRemover newChunk bulk_removed List.length] in Hrem.
    rewrite (GoInt_wrap_exact _ Hint), Z.add_0_l in Hrem.
    split; [exact Hrem|].
    intros r2 sent2 Hf. apply bulkRemover_Flush_cases in Hf; [|exact Hwf].
    destruct Hf as [(_ & -> & _ & ->) | (_ & -> & [(_ & ->) | (err & He & _)])].
    + exact Hrem.
    + cbn [bulk_removed]. rewrite reported_matched_app.
      cbn [reported_matched Nat.add].
      destruct (fst (Run _ _ _)).
      * unfold GoInt.add. rewrite Hrem, GoInt_wrap_add_l. f_equal. lia.
      * rewrite Hrem. f_equal. lia.
    + discriminate.
Qed.

Lemma removers_count_what_was_reported_witness :
  batchRemover_Removed (mkBatchRemover txnsColl [] 1000) = 1000
  /\ reported_removed halfRemoveAll 0
       [OpRemoveAll txnsColl (someIds 1000); OpRemoveAll txnsColl (someIds 1000)]
     = 1000.
Proof.
  split; [|reflexivity].
  apply (proj1 (proj1 (removers_count_what_was_reported halfRemoveAll goneRun txnsColl
                         (someIds 1000 ++ someIds 1000))
                  (mkBatchRemover txnsColl [] 1000)
                  [OpRemoveAll txnsColl (someIds 1000);
                   OpRemoveAll txnsColl (someIds 1000)]
                  ltac:(vm_compute; reflexivity))).
Defined.

(** A [Remove] on a remover whose queue is already full flushes the queue
    with the new identifier added. *)
Lemma batchRemover_Remove_on_full RemoveAll (id : bson_value)
  (r r2 : batchRemover) (e2 : returned (option error)) (sent sent2 : list db_op) :
  maxBulkOps <= Z.of_nat (List.length (queue r)) ->
  batchRemover_Remove RemoveAll id r sent = (r2, e2, sent2) ->
  sent2 = sent ++ [OpRemoveAll (coll r) (queue r ++ [id])].
Proof.
  intros Hfull. unfold batchRemover_Remove. cbn [queue].
  pose proof (length_snoc (queue r) id) as Hlen.
  destruct (maxBulkOps <=? Z.of_nat (List.length (queue r ++ [id]))) eqn:E;
    [|apply Z.leb_gt in E; lia].
  intros H. apply batchRemover_Flush_cases in H. cbn [queue coll] in H.
  destruct H as [(Hq & _) | (_ & -> & _)]; [|reflexivity].
  destruct (queue r); discriminate.
Qed.

Lemma bulkRemover_Remove_on_full Run (id : bson_value)
  (r r2 : bulkRemover) (e2 : option error) (sent sent2 : list db_op) :
  bulk_wf r -> chunkSize r = maxBulkOps ->
  bulkRemover_Remove Run id r sent = (r2, e2, sent2) ->
  sent2 = sent ++ [OpBulkRun (bulk_coll r) (chunk r ++ [id])].
Proof.
  intros Hwf Hfull. unfold bulkRemover_Remove, bulkRemover_Flush.
  cbn [chunk chunkSize bulk_coll bulk_removed]. rewrite Hfull.
  change (maxBulkOps <=? GoInt.add maxBulkOps 1) with true.
  change (GoInt.add maxBulkOps 1 <? 1) with false. cbv iota.
  destruct (Run _ _ _) as [result [[]|]]; intros H; inversion H; reflexivity.
Qed.

(** X3.  What a failed flush leaves.  When a sequence of [Remove] calls on
    a fresh remover stops with an error, the error is not "not found", the
    request that failed carried exactly [maxBulkOps] identifiers, and these
    are all still queued: with the requests sent before, they are the
    identifiers given so far, in order.  A further [Remove] on that
    remover then sends one request of [maxBulkOps + 1] identifiers. *)
Theorem removers_failed_flush_keeps_queue
  (RemoveAll : Collection -> nat -> list bson_value -> option ChangeInfo * option error)
  (Run : Collection -> nat -> list bson_value -> option BulkResult * option error)
  (c : Collection) (ids : list bson_value) :
  (forall r err sent,
      batchRemover_RemoveEach RemoveAll ids (newBatchRemover c) []
      = (r, Returns (Some err), sent) ->
      is_not_found err = false
      /\ Z.of_nat (List.length (queue r)) = maxBulkOps
      /\ (exists earlier k,
            sent = earlier ++ [OpRemoveAll c (queue r)]
            /\ (k <= List.length ids)%nat
            /\ sent_ids earlier ++ queue r = firstn k ids)
      /\ forall id r2 e2 sent2,
           batchRemover_Remove RemoveAll id r sent = (r2, e2, sent2) ->
           exists op, sent2 = sent ++ [op] /\ op_size op = maxBulkOps + 1)
  /\ (forall r err sent,
        bulkRemover_RemoveEach Run ids (newBulkRemover c) [] = (r, Some err, sent) ->
        is_not_found err = false
        /\ Z.of_nat (List.length (chunk r)) = maxBulkOps
        /\ (exists earlier k,
              sent = earlier ++ [OpBulkRun c (chunk r)]
              /\ (k <= List.length ids)%nat
              /\ sent_ids earlier ++ chunk r = firstn k ids)
        /\ forall id r2 e2 sent2,
             bulkRemover_Remove Run id r sent = (r2, e2, sent2) ->
             exists op, sent2 = sent ++ [op] /\ op_size op = maxBulkOps + 1).
Proof.
  split.
  - intros r err sent H.
    pose proof (batchRemover_RemoveEach_bounded RemoveAll ids (newBatchRemover c)
                  r (Returns (Some err)) [] sent
                  ltac:(unfold maxBulkOps; cbn; lia) ltac:(constructor) H)
      as [Hb _].
    apply batchRemover_RemoveEach_account in H.
    destruct H as (Hc & ops & Hs & _ & Hfail). cbn [app] in Hs; subst ops.
    destruct (Hfail err eq_refl) as (Hnf & Hge & k & ops0 & Hk & -> & Hids).
    cbn [newBatchRemover coll queue app] in *.
    assert (Hlen : Z.of_nat (List.length (queue r)) = maxBulkOps).
    { unfold flushes_bounded in Hb. apply Forall_app in Hb. destruct Hb as [_ Hb].
      inversion Hb as [|? ? Hop _]; subst. cbn [op_size] in Hop. lia. }
    split; [exact Hnf|]. split; [exact Hlen|]. split.
    + exists ops0, k. auto.
    + intros id r2 e2 sent2 H2.
      apply batchRemover_Remove_on_full in H2; [|lia].
      eexists; split; [exact H2|]. cbn [op_size]. rewrite length_snoc. lia.
  - intros r err sent H.
    apply bulkRemover_RemoveEach_account in H;
      [|reflexivity | unfold maxBulkOps; cbn; lia].
    destruct H as (Hc & Hwf & ops & Hs & _ & Hfail). cbn [app] in Hs; subst ops.
    destruct (Hfail err eq_refl) as (Hnf & Hsz & k & ops0 & Hk & -> & Hids).
    cbn [newBulkRemover newChunk bulk_coll chunk app] in *.
    assert (Hlen : Z.of_nat (List.length (chunk r)) = maxBulkOps).
    { unfold bulk_wf in Hwf. lia. }
    split; [exact Hnf|]. split; [exact Hlen|]. split.
    + exists ops0, k. auto.
    + intros id r2 e2 sent2 H2.
      apply bulkRemover_Remove_on_full in H2; [|exact Hwf|exact Hsz].
      eexists; split; [exact H2|]. cbn [op_size]. rewrite length_snoc. lia.
Qed.

Lemma removers_failed_flush_keeps_queue_witness :
  Z.of_nat (List.length (someIds 1000)) = maxBulkOps
  /\ exists op,
       snd (batchRemover_Remove downRemoveAll (BInt 7)
              (mkBatchRemover txnsColl (someIds 1000) 0)
              [OpRemoveAll txnsColl (someIds 1000)])
       = [OpRemoveAll txnsColl (someIds 1000)] ++ [op]
       /\ op_size op = maxBulkOps + 1.
Proof.
  pose proof (proj1 (removers_failed_flush_keeps_queue downRemoveAll downRun txnsColl
                       (someIds 1500))
                (mkBatchRemover txnsColl (someIds 1000) 0)
                (ErrExternal "no reachable servers")
                [OpRemoveAll txnsColl (someIds 1000)]
                ltac:(vm_compute; reflexivity))
    as (_ & Hlen & _ & Hnext).
  split; [exact Hlen|].
  destruct (batchRemover_Remove downRemoveAll (BInt 7)
              (mkBatchRemover txnsColl (someIds 1000) 0)
              [OpRemoveAll txnsColl (someIds 1000)]) as [[r2 e2] sent2] eqn:E.
  exact (Hnext _ _ _ _ E).
Defined.

(* ------------------------------------------------------------------ *)
(** ** The cooldown timer *)

Lemma last_cons {A : Type} (l : list A) :
  forall (x d : A), last (x :: l) d = last l x.
Proof.
  induction l as [|y l IH]; intros x d; [reflexivity|].
  change (last (x :: y :: l) d) with (last (y :: l) d).
  now rewrite (IH y d), (IH y x).
Qed.

(** The timer over a list of readings, from the instant [prev] of its
    creation or of its last positive answer. *)
Lemma isAfter_each_spaced (nows : list Time) :
  forall (t : simpleTimer) (prev : Time),
    next t = prev + interval t ->
    spaced (interval t) prev (fst (isAfter_each nows t))
    /\ interval (snd (isAfter_each nows t)) = interval t
    /\ next (snd (isAfter_each nows t))
       = last (fst (isAfter_each nows t)) prev + interval t
    /\ prev + Z.of_nat (List.length (fst (isAfter_each nows t))) * (interval t + 1)
       <= last (fst (isAfter_each nows t)) prev.
Proof.
  induction nows as [|now rest IH]; intros t prev Hnext; cbn [isAfter_each].
  - cbn [fst snd spaced last List.length]. repeat split; [exact Hnext | lia].
  - unfold isAfter. destruct (next t <? now) eqn:E.
    + specialize (IH (mkSimpleTimer (interval t) (now + interval t)) now eq_refl).
      cbn [interval next] in IH.
      destruct (isAfter_each rest _) as [later t2]. cbn [fst snd] in *.
      destruct IH as (Hsp & Hi & Hn & Hk). apply Z.ltb_lt in E.
      rewrite last_cons. cbn [spaced List.length].
      repeat split; [lia | exact Hsp | exact Hi | exact Hn | lia].
    + specialize (IH t prev Hnext).
      destruct (isAfter_each rest t) as [later t2]. cbn [fst snd] in *.
      exact IH.
Qed.

(** X4.  The timer is a cooldown.  Query a timer created at [t0] with
    interval [d] at any readings of the clock, in any order: the first
    positive answer comes more than [d] after [t0], two consecutive
    positive answers are more than [d] apart, the deadline is always the
    last positive answer (or [t0]) plus [d], and [k] positive answers take
    at least [k * (d + 1)] nanoseconds. *)
Theorem simpleTimer_is_cooldown (t0 : Time) (d : Duration) (nows : list Time) :
  let fired := fst (isAfter_each nows (newSimpleTimer t0 d)) in
  let t := snd (isAfter_each nows (newSimpleTimer t0 d)) in
  spaced d t0 fired
  /\ interval t = d
  /\ next t = last fired t0 + d
  /\ t0 + Z.of_nat (List.length fired) * (d + 1) <= last fired t0.
Proof.
  cbv zeta.
  exact (isAfter_each_spaced nows (newSimpleTimer t0 d) t0 eq_refl).
Qed.

(** A timer of 15 seconds created at 0 and queried every 4 seconds
    answers at 16, 32 and 48 seconds. *)
Example simpleTimer_every_four_seconds :
  fst (isAfter_each
         (map (fun k => Z.of_nat k * 4000 * Millisecond) (seq 1 14))
         (newSimpleTimer 0 (15000 * Millisecond)))
  = [16000 * Millisecond; 32000 * Millisecond; 48000 * Millisecond].
Proof. vm_compute. reflexivity. Qed.

(* ------------------------------------------------------------------ *)
(** ** Collection names *)

Lemma append_inj_l (a b c : string) :
  String.append a b = String.append a c -> b = c.
Proof.
  induction a as [|x a IH]; cbn; [auto|]. intros H; inversion H; auto.
Qed.

Lemma append_not_self (a b : string) :
  String.append a b = a -> b = EmptyString.
Proof.
  induction a as [|x a IH]; cbn; [auto|]. intros H; inversion H; auto.
Qed.

Lemma prefix_append (a b c : string) :
  String.prefix b c = true ->
  String.prefix (String.append a b) (String.append a c) = true.
Proof.
  intros H. induction a as [|x a IH]; cbn; [exact H|].
  destruct (ascii_dec x x); [exact IH | congruence].
Qed.

Lemma txnCollections_In (inNames : list string) (txnsName name : string) :
  In name (txnCollections inNames txnsName)
  <-> In name inNames /\ hasTxnReferences txnsName name = true.
Proof.
  unfold txnCollections. rewrite append_loop_filter. cbn [app].
  apply filter_In.
Qed.

(** X5.  Whatever the name [T] of the transaction collection and the
    collections of the database: the result of [txnCollections] never
    contains [T] itself, nor the stats collection [T.prune], nor any other
    [T.child] but the stash; and it contains the stash [T.stash] exactly
    when the database has it. *)
Theorem txnCollections_own_collections (inNames : list string) (txnsName : string) :
  let out := txnCollections inNames txnsName in
  ~ In txnsName out
  /\ ~ In (txnsPruneC txnsName) out
  /\ (forall child, child <> "stash" ->
        ~ In (String.append txnsName (String "." child)) out)
  /\ (In (txnsStashName txnsName) out <-> In (txnsStashName txnsName) inNames).
Proof.
  cbv zeta.
  assert (Hchild : forall child, child <> "stash" ->
            hasTxnReferences txnsName (String.append txnsName (String "." child))
            = false).
  { intros child Hc. unfold hasTxnReferences.
    destruct (String.eqb_spec (String.append txnsName (String "." child))
                (String.append txnsName ".stash")) as [E|_].
    - apply append_inj_l in E. inversion E. contradiction.
    - unfold HasPrefix.
      rewrite (prefix_append txnsName "." (String "." child))
        by (destruct child; reflexivity).
      now rewrite orb_true_r. }
  split; [|split; [|split]].
  - rewrite txnCollections_In. intros [_ H]. unfold hasTxnReferences in H.
    destruct (String.eqb_spec txnsName (String.append txnsName ".stash")) as [E|_].
    + symmetry in E. apply append_not_self in E. discriminate.
    + rewrite String.eqb_refl in H. discriminate.
  - rewrite txnCollections_In. intros [_ H]. unfold txnsPruneC in H.
    rewrite (Hchild "prune") in H; discriminate.
  - intros child Hc. rewrite txnCollections_In. intros [_ H].
    rewrite (Hchild child Hc) in H. discriminate.
  - rewrite txnCollections_In. unfold txnsStashName, hasTxnReferences.
    rewrite String.eqb_refl. tauto.
Qed.

Lemma txnCollections_own_collections_witness :
  ~ In "txns.log" (txnCollections ["txns"; "txns.log"; "txns.stash"] "txns").
Proof.
  apply (proj1 (proj2 (proj2 (txnCollections_own_collections
                                ["txns"; "txns.log"; "txns.stash"] "txns")))
           "log").
  discriminate.
Defined.

Lemma filter_idempotent {A : Type} (keep : A -> bool) (l : list A) :
  filter keep (filter keep l) = filter keep l.
Proof.
  induction l as [|x l IH]; cbn [filter]; [reflexivity|].
  destruct (keep x) eqn:E; cbn [filter]; [rewrite E, IH | rewrite IH]; reflexivity.
Qed.

(** X6.  [txnCollections] can be applied piecewise and again: the result
    for two lists of names one after the other is the two results one
    after the other, filtering a result again changes nothing, and a
    result is never longer than the list it comes from. *)
Theorem txnCollections_composes (a b : list string) (txnsName : string) :
  txnCollections (a ++ b) txnsName
  = txnCollections a txnsName ++ txnCollections b txnsName
  /\ txnCollections (txnCollections a txnsName) txnsName = txnCollections a txnsName
  /\ (List.length (txnCollections a txnsName) <= List.length a)%nat.
Proof.
  unfold txnCollections. rewrite !append_loop_filter. cbn [app].
  split; [apply filter_app|]. split; [apply filter_idempotent | apply filter_length_le].
Qed.

(* ------------------------------------------------------------------ *)
(** ** The orchestrator: which sweeps run, and what comes back *)

Section OrchestratorOutcomes.

Variables pruneTxnBatchSize pruneMinTxnBatchSize pruneMaxTxnBatchSize : Z.
Variable maxBatchSleepTime : Duration.
Variable PrunerStats : Type.
Variable zeroPrunerStats : PrunerStats.
Variables TxnsRemoved DocQueuesCleaned StashDocsRemoved : PrunerStats -> Z.
Variables DocCacheMisses DocCacheHits CollectionQueries : PrunerStats -> Z.
Variable CombineStats : PrunerStats -> PrunerStats -> PrunerStats.
Variable Prune : IncrementalPruneArgs -> option Collection -> PrunerStats * option error.

Let check := validate pruneTxnBatchSize pruneMinTxnBatchSize pruneMaxTxnBatchSize
               maxBatchSleepTime.

Let run := CleanAndPrune pruneTxnBatchSize pruneMinTxnBatchSize pruneMaxTxnBatchSize
             maxBatchSleepTime PrunerStats zeroPrunerStats
             TxnsRemoved DocQueuesCleaned StashDocsRemoved
             DocCacheMisses DocCacheHits CollectionQueries CombineStats Prune.

Let sweepOf (args : CleanAndPruneArgs) (reversed : bool) :=
  Prune (sweepArgsOf pruneTxnBatchSize args reversed) (Txns args).

(** The closure [prune] on accepted arguments: the sweep is recorded and
    its result merged. *)
Let step (args : CleanAndPruneArgs) (reversed : bool) (st : shared PrunerStats)
  : shared PrunerStats :=
  let '(pstats, anyErr, log) := st in
  merge PrunerStats CombineStats
    (pstats, anyErr,
     log ++ [EvSweep (sweepArgsOf pruneTxnBatchSize args reversed) (Txns args)])
    (sweepOf args reversed).

(** Arguments that pass [validate] come back with the default batch size
    filled in, and are within all bounds. *)
Lemma validate_accepts (args args' : CleanAndPruneArgs) :
  check args = (args', None) ->
  args' = set_TxnBatchSize args (effectiveBatchSize pruneTxnBatchSize args)
  /\ Txns args <> None
  /\ 0 <= TxnBatchSleepTime args <= maxBatchSleepTime
  /\ pruneMinTxnBatchSize <= effectiveBatchSize pruneTxnBatchSize args
     <= pruneMaxTxnBatchSize.
Proof.
  unfold check, validate, effectiveBatchSize.
  destruct (Txns args) as [c|] eqn:Ht; [|discriminate].
  destruct ((TxnBatchSleepTime args <? 0) || (maxBatchSleepTime <? TxnBatchSleepTime args))
    eqn:Esleep; [discriminate|].
  destruct (TxnBatchSize args =? 0) eqn:Ezero;
    cbn [TxnBatchSize set_TxnBatchSize].
  - destruct (pruneTxnBatchSize <? pruneMinTxnBatchSize) eqn:Elo; [discriminate|].
    destruct (pruneMaxTxnBatchSize <? pruneTxnBatchSize) eqn:Ehi; [discriminate|].
    intros H; inversion H; subst. ztests.
    repeat split; (lia || discriminate || idtac).
  - destruct (TxnBatchSize args <? pruneMinTxnBatchSize) eqn:Elo; [discriminate|].
    destruct (pruneMaxTxnBatchSize <? TxnBatchSize args) eqn:Ehi; [discriminate|].
    intros H; inversion H; subst. ztests.
    repeat split; (lia || discriminate || idtac).
    destruct args'; reflexivity.
Qed.

(** A run on accepted arguments, spelled out. *)
Lemma CleanAndPrune_accepted (reverseFirst : bool) (args args' : CleanAndPruneArgs) :
  check args = (args', None) ->
  run reverseFirst args
  = (let st0 : shared PrunerStats := (zeroPrunerStats, None, [EvStartReporting]) in
     let '(pstats, anyErr, log) :=
       if Multithreaded args
       then if reverseFirst
            then step args false (step args true st0)
            else step args true (step args false st0)
       else step args false st0 in
     let events := log ++ [EvStop] in
     match anyErr with
     | Some e => (zeroCleanupStats, Trace (Some e), events)
     | None =>
         (mkCleanupStats
            (GoInt.wrap (CollectionQueries pstats))
            (GoInt.wrap (DocCacheMisses pstats + DocCacheHits pstats))
            (GoInt.wrap (DocQueuesCleaned pstats))
            (GoInt.wrap (StashDocsRemoved pstats))
            (GoInt.wrap (TxnsRemoved pstats))
            false,
          None, events)
     end).
Proof.
  intros Hv. pose proof (validate_accepts _ _ Hv) as (-> & _).
  unfold run, CleanAndPrune. fold check. rewrite Hv.
  unfold step, prune, sweepOf, sweepArgsOf.
  cbn [Txns Args_MaxTime TxnBatchSize TxnBatchSleepTime Multithreaded set_TxnBatchSize].
  reflexivity.
Qed.

(** X7.  On arguments that [validate] accepts, [CleanAndPrune] runs the
    forward sweep exactly once and the reverse sweep exactly when
    [Multithreaded] is set, whether or not a sweep fails, and in whichever
    order the two come to the critical section; every sweep runs on the
    [Txns] collection, with the time horizon and sleep of the arguments
    and the batch size with its default filled in, and so with a batch
    size within [pruneMinTxnBatchSize, pruneMaxTxnBatchSize] and a sleep
    within [0, maxBatchSleepTime]; and the sweeps of the run are those
    whose results decide it: the run returns nil exactly when [Prune]
    returned nil for each of them. *)
Theorem CleanAndPrune_sweeps_run
  (reverseFirst : bool) (args args' : CleanAndPruneArgs) :
  check args = (args', None) ->
  let evs := snd (run reverseFirst args) in
  Permutation (sweeps evs)
    ((if Multithreaded args
      then [(sweepArgsOf pruneTxnBatchSize args true, Txns args)] else [])
     ++ [(sweepArgsOf pruneTxnBatchSize args false, Txns args)])
  /\ (forall a c,
        In (a, c) (sweeps evs) ->
        c = Txns args /\ c <> None
        /\ Inc_MaxTime a = Args_MaxTime args
        /\ pruneMinTxnBatchSize <= Inc_TxnBatchSize a <= pruneMaxTxnBatchSize
        /\ 0 <= Inc_TxnBatchSleepTime a <= maxBatchSleepTime)
  /\ (snd (fst (run reverseFirst args)) = None <->
      forall a c, In (a, c) (sweeps evs) -> snd (Prune a c) = None).
Proof.
  intros Hv. cbv zeta.
  pose proof (validate_accepts _ _ Hv) as (_ & Hn & Hsleep & Hsize).
  set (fwd := (sweepArgsOf pruneTxnBatchSize args false, Txns args)).
  set (rev := (sweepArgsOf pruneTxnBatchSize args true, Txns args)).
  assert (Hs : sweeps (snd (run reverseFirst args))
               = if Multithreaded args
                 then if reverseFirst then [rev; fwd] else [fwd; rev]
                 else [fwd]).
  { rewrite (CleanAndPrune_accepted reverseFirst _ _ Hv). cbv zeta.
    unfold step.
    destruct (Multithreaded args); [destruct reverseFirst|];
      destruct (sweepOf args true) as [p1 [e1|]];
      destruct (sweepOf args false) as [p2 [e2|]];
      reflexivity. }
  assert (Hin : forall a c,
             In (a, c) (sweeps (snd (run reverseFirst args))) <->
             (a, c) = fwd \/ (Multithreaded args = true /\ (a, c) = rev)).
  { intros a c. rewrite Hs.
    destruct (Multithreaded args); [destruct reverseFirst|]; cbn [In];
      intuition (auto; discriminate). }
  split; [|split].
  - rewrite Hs.
    destruct (Multithreaded args); [destruct reverseFirst|]; cbn [app];
      [apply Permutation_refl | apply perm_swap | apply Permutation_refl].
  - intros a c H. apply Hin in H.
    destruct H as [H | [_ H]]; inversion H; subst;
      cbn [sweepArgsOf Inc_MaxTime Inc_TxnBatchSize Inc_TxnBatchSleepTime]; auto.
  - assert (Herr : snd (fst (run reverseFirst args)) = None <->
                   snd (sweepOf args false) = None
                   /\ (Multithreaded args = true -> snd (sweepOf args true) = None)).
    { rewrite (CleanAndPrune_accepted reverseFirst _ _ Hv). cbv zeta.
      unfold step.
      destruct (Multithreaded args); [destruct reverseFirst|];
        destruct (sweepOf args true) as [p1 [e1|]];
        destruct (sweepOf args false) as [p2 [e2|]];
        cbn [merge Trace fst snd];
        (split;
         [intros H; split; intros; (discriminate || congruence)
         | intros [H1 H2]; try discriminate; try specialize (H2 eq_refl);
           (discriminate || congruence)]). }
    rewrite Herr. unfold sweepOf. split.
    + intros [Hf Hr] a c H. apply Hin in H.
      destruct H as [H | [Hm H]]; inversion H; subst; auto.
    + intros H. split.
      * apply H, Hin. left; reflexivity.
      * intros Hm. apply H, Hin. right; split; [exact Hm | reflexivity].
Qed.

(** X8.  On accepted arguments [CleanAndPrune] returns nil exactly when
    every sweep it runs returns nil.  Otherwise it returns, wrapped twice
    by [errors.Trace], the error of the sweep that entered the critical
    section first among those that failed; without [Multithreaded] that is
    the error of the forward sweep. *)
Theorem CleanAndPrune_first_error_wins
  (reverseFirst : bool) (args args' : CleanAndPruneArgs) :
  check args = (args', None) ->
  let err := snd (fst (run reverseFirst args)) in
  let first := if Multithreaded args then reverseFirst else false in
  (err = None <->
     snd (sweepOf args false) = None
     /\ (Multithreaded args = true -> snd (sweepOf args true) = None))
  /\ (forall cause, snd (sweepOf args first) = Some cause ->
        err = Some (ErrTrace (ErrTrace cause)))
  /\ (forall cause,
        Multithreaded args = true ->
        snd (sweepOf args first) = None ->
        snd (sweepOf args (negb first)) = Some cause ->
        err = Some (ErrTrace (ErrTrace cause))).
Proof.
  intros Hv. cbv zeta.
  rewrite (CleanAndPrune_accepted reverseFirst _ _ Hv). cbv zeta. unfold step.
  destruct (Multithreaded args); [destruct reverseFirst|]; cbn [negb];
    destruct (sweepOf args true) as [p1 [e1|]];
    destruct (sweepOf args false) as [p2 [e2|]];
    cbn [merge Trace fst snd];
    (split;
     [split;
      [intros H; split; intros; (discriminate || congruence)
      | intros [H1 H2]; try discriminate; try specialize (H2 eq_refl);
        (discriminate || congruence)]
     | split; intros; (discriminate || congruence)]).
Qed.

(** X9.  The order in which two concurrent sweeps finish does not change
    the outcome when combining statistics does not depend on it: the
    statistics returned are the same, and the run fails in one order
    exactly when it fails in the other. *)
Theorem CleanAndPrune_order_independent (args : CleanAndPruneArgs) :
  (forall a b,
      CombineStats (CombineStats zeroPrunerStats a) b
      = CombineStats (CombineStats zeroPrunerStats b) a) ->
  fst (fst (run true args)) = fst (fst (run false args))
  /\ (snd (fst (run true args)) = None <-> snd (fst (run false args)) = None).
Proof.
  intros Hcomm.
  destruct (check args) as [args' [e|]] eqn:Hv.
  - unfold run, CleanAndPrune. fold check. rewrite Hv. cbn [fst snd]. tauto.
  - rewrite !(CleanAndPrune_accepted _ _ _ Hv). cbv zeta. unfold step.
    destruct (Multithreaded args); [|tauto].
    pose proof (Hcomm (fst (sweepOf args true)) (fst (sweepOf args false))) as Hc.
    destruct (sweepOf args true) as [p1 [e1|]];
      destruct (sweepOf args false) as [p2 [e2|]];
      cbn [merge Trace fst snd] in *;
      try rewrite Hc; split; (reflexivity || tauto || (split; discriminate)).
Qed.

End OrchestratorOutcomes.

Lemma sweepStats_add_order (z a b : sweepStats) :
  sweepStats_add (sweepStats_add z a) b = sweepStats_add (sweepStats_add z b) a.
Proof.
  destruct z, a, b; unfold sweepStats_add; cbn; f_equal; lia.
Qed.

Lemma CleanAndPrune_sweeps_run_witness :
  Permutation
    (sweeps (snd (CleanAndPrune_demo reverseFailingSweep false (demoArgs true 0 0))))
    [(mkIncrementalPruneArgs 0 true 1000 0, Some (mkCollection "juju.txns"));
     (mkIncrementalPruneArgs 0 false 1000 0, Some (mkCollection "juju.txns"))].
Proof.
  apply (proj1 (CleanAndPrune_sweeps_run 1000 10 1000000 (1000 * Millisecond)
                  sweepStats (mkSweepStats 0 0 0 0 0 0)
                  sw_TxnsRemoved sw_DocQueuesCleaned sw_StashDocsRemoved
                  sw_DocCacheMisses sw_DocCacheHits sw_CollectionQueries
                  sweepStats_add reverseFailingSweep false (demoArgs true 0 0)
                  (set_TxnBatchSize (demoArgs true 0 0) 1000) eq_refl)).
Defined.

Lemma CleanAndPrune_first_error_wins_witness :
  snd (fst (CleanAndPrune_demo reverseFailingSweep false (demoArgs true 0 0)))
  = Some (ErrTrace (ErrTrace (ErrExternal "cursor timed out"))).
Proof.
  apply (proj2 (proj2 (CleanAndPrune_first_error_wins
                         1000 10 1000000 (1000 * Millisecond)
                         sweepStats (mkSweepStats 0 0 0 0 0 0)
                         sw_TxnsRemoved sw_DocQueuesCleaned sw_StashDocsRemoved
                         sw_DocCacheMisses sw_DocCacheHits sw_CollectionQueries
                         sweepStats_add reverseFailingSweep false (demoArgs true 0 0)
                         (set_TxnBatchSize (demoArgs true 0 0) 1000) eq_refl))
           (ErrExternal "cursor timed out"));
    reflexivity.
Defined.

Lemma CleanAndPrune_order_independent_witness :
  fst (fst (CleanAndPrune_demo workingSweep true (demoArgs true 0 0)))
  = fst (fst (CleanAndPrune_demo workingSweep false (demoArgs true 0 0))).
Proof.
  apply (proj1 (CleanAndPrune_order_independent
                  1000 10 1000000 (1000 * Millisecond)
                  sweepStats (mkSweepStats 0 0 0 0 0 0)
                  sw_TxnsRemoved sw_DocQueuesCleaned sw_StashDocsRemoved
                  sw_DocCacheMisses sw_DocCacheHits sw_CollectionQueries
                  sweepStats_add workingSweep (demoArgs true 0 0)
                  (sweepStats_add_order (mkSweepStats 0 0 0 0 0 0)))).
Defined.

(* ------------------------------------------------------------------ *)
(** ** Writing the stats and reading them back *)

Lemma bson_value_eqb_eq (a b : bson_value) :
  bson_value_eqb a b = true <-> a = b.
Proof.
  destruct a, b; cbn; try (split; [discriminate | congruence]).
  - tauto.
  - rewrite String.eqb_eq. split; congruence.
  - rewrite Z.eqb_eq. split; congruence.
  - rewrite String.eqb_eq. split; congruence.
Qed.

Lemma bson_value_eqb_refl (a : bson_value) : bson_value_eqb a a = true.
Proof. now apply bson_value_eqb_eq. Qed.

Lemma bson_value_eqb_neq (a b : bson_value) :
  a <> b -> bson_value_eqb a b = false.
Proof.
  intros H. destruct (bson_value_eqb a b) eqn:E; [|reflexivity].
  apply bson_value_eqb_eq in E. contradiction.
Qed.

(** A document added at the end is found under its id when no document had
    that id, and changes no other lookup. *)
Lemma lookup_doc_snoc (docs : list (bson_value * bsonM)) (k q : bson_value) (d : bsonM) :
  lookup_doc (docs ++ [(k, d)]) q
  = match lookup_doc docs q with
    | Some x => Some x
    | None => if bson_value_eqb k q then Some d else None
    end.
Proof.
  induction docs as [|[k' d'] docs IH]; cbn [app lookup_doc]; [reflexivity|].
  destruct (bson_value_eqb k' q); [reflexivity | exact IH].
Qed.

Lemma M_get_set_field (m : bsonM) (k : string) (v : bson_value) :
  M_get (set_field m k v) k = v.
Proof.
  induction m as [|[k' v'] m IH]; cbn [set_field M_get].
  - now rewrite String.eqb_refl.
  - destruct (String.eqb k' k) eqn:E; cbn [M_get].
    + now rewrite String.eqb_refl.
    + now rewrite E.
Qed.

(** After an upsert that sets the field "id", the document of that id is
    there and has the field; the other lookups are as before. *)
Lemma lookup_doc_upsert_same (docs : list (bson_value * bsonM)) (id v : bson_value) :
  exists d, lookup_doc (upsert_doc docs id [("id", v)]) id = Some d
            /\ M_get d "id" = v.
Proof.
  induction docs as [|[k d] docs IH]; cbn [upsert_doc].
  - eexists. cbn [lookup_doc]. rewrite bson_value_eqb_refl. split; reflexivity.
  - destruct (bson_value_eqb k id) eqn:E; cbn [lookup_doc]; rewrite E.
    + eexists. split; [reflexivity|]. apply M_get_set_field.
    + exact IH.
Qed.

Lemma lookup_doc_upsert_other (docs : list (bson_value * bsonM))
  (id q : bson_value) (set : bsonM) :
  q <> id ->
  lookup_doc (upsert_doc docs id set) q = lookup_doc docs q.
Proof.
  intros Hne. induction docs as [|[k d] docs IH]; cbn [upsert_doc lookup_doc].
  - rewrite bson_value_eqb_neq; [reflexivity | congruence].
  - destruct (bson_value_eqb k id) eqn:E; cbn [lookup_doc].
    + apply bson_value_eqb_eq in E; subst k.
      rewrite bson_value_eqb_neq; [reflexivity | congruence].
    + destruct (bson_value_eqb k q); [reflexivity | exact IH].
Qed.

(** X10.  Write, then read.  Let [id] be new to the stats collection: no
    document has it and the pointer does not name it.  When
    [writePruneTxnsCount] returns nil, and its writes are applied to the
    collection, [getPruneLastTxnsCount] returns the [txnsAfter] just
    written.  When it returns an error, the error is that of the write
    that failed and no later write was sent; and the insert alone, without
    the pointer update, leaves what [getPruneLastTxnsCount] returns as it
    was. *)
Theorem writePruneTxnsCount_then_read
  (Insert : pruneStats -> option error)
  (UpsertId : bson_value -> bsonM -> option error)
  (docs : list (bson_value * bsonM))
  (id : ObjectId) (started completed : Time)
  (txnsBefore txnsAfter stashBefore stashAfter : Z) :
  lookup_doc docs (BObjectId id) = None ->
  (forall ptr, lookup_doc docs (BString "last") = Some ptr ->
               M_get ptr "id" <> BObjectId id) ->
  let doc := mkPruneStats id started completed txnsBefore txnsAfter
               stashBefore stashAfter in
  let res := writePruneTxnsCount Insert UpsertId id started completed
               txnsBefore txnsAfter stashBefore stashAfter in
  (fst res = None ->
     getPruneLastTxnsCount (storedCollection (apply_writes docs (snd res)))
     = (txnsAfter, None))
  /\ (forall cause, Insert doc = Some cause ->
        res = (Some (ErrWriteStats cause), [WInsert doc]))
  /\ (forall cause, Insert doc = None ->
        UpsertId (BString "last") [("id", BObjectId id)] = Some cause ->
        fst res = Some (ErrWritePointer cause))
  /\ getPruneLastTxnsCount (storedCollection (apply_writes docs [WInsert doc]))
     = getPruneLastTxnsCount (storedCollection docs).
Proof.
  intros Hfresh Hptr. cbv zeta. unfold writePruneTxnsCount.
  split; [|split; [|split]].
  - destruct (Insert _); [discriminate|].
    destruct (UpsertId _ _); [discriminate|]. intros _.
    cbn [snd apply_writes fold_left apply_write Id].
    destruct (lookup_doc_upsert_same
                (docs ++ [(BObjectId id,
                           encode_pruneStats
                             (mkPruneStats id started completed txnsBefore txnsAfter
                                stashBefore stashAfter))])
                (BString "last") (BObjectId id)) as (ptr & Hl & Hid).
    unfold getPruneLastTxnsCount, storedCollection. cbn [FindId_M FindId_pruneStats].
    rewrite Hl, Hid, lookup_doc_upsert_other by discriminate.
    rewrite lookup_doc_snoc, Hfresh, bson_value_eqb_refl.
    reflexivity.
  - intros cause ->. reflexivity.
  - intros cause -> ->. reflexivity.
  - cbn [apply_writes fold_left apply_write Id].
    unfold getPruneLastTxnsCount, storedCollection. cbn [FindId_M FindId_pruneStats].
    rewrite lookup_doc_snoc.
    destruct (lookup_doc docs (BString "last")) as [ptr|] eqn:Hl; [|reflexivity].
    rewrite lookup_doc_snoc.
    destruct (lookup_doc docs (M_get ptr "id")) as [d|] eqn:Hd; [reflexivity|].
    rewrite bson_value_eqb_neq; [reflexivity|].
    intros E. apply (Hptr ptr eq_refl). now symmetry.
Qed.

Lemma writePruneTxnsCount_then_read_witness :
  getPruneLastTxnsCount
    (storedCollection
       (apply_writes healthyDocs
          (snd (writePruneTxnsCount okInsert okUpsertId "ba9876543210" 5 9
                  4300 3100 70 20))))
  = (3100, None)
  /\ getPruneLastTxnsCount
       (storedCollection
          (apply_writes healthyDocs
             [WInsert (mkPruneStats "ba9876543210" 5 9 4300 3100 70 20)]))
     = (4200, None).
Proof.
  pose proof (writePruneTxnsCount_then_read okInsert okUpsertId healthyDocs
                "ba9876543210" 5 9 4300 3100 70 20 eq_refl) as H.
  cbv zeta in H.
  destruct H as (Hok & _ & _ & Hkeep).
  - intros ptr Hp. inversion Hp; subst. discriminate.
  - split; [apply Hok; reflexivity | exact Hkeep].
Defined.

(* ------------------------------------------------------------------ *)
(** ** The run entry point *)

Lemma runs_of_app (a b : list db_event) : runs_of (a ++ b) = runs_of a ++ runs_of b.
Proof. apply flat_map_app. Qed.

Lemma writes_of_app (a b : list db_event) :
  writes_of (a ++ b) = writes_of a ++ writes_of b.
Proof. apply flat_map_app. Qed.

Lemma writes_of_writes (c : Collection) (ws : list write_op) :
  writes_of (map (DbWrite c) ws) = ws.
Proof. induction ws as [|w ws IH]; cbn; [reflexivity | now f_equal]. Qed.

Lemma runs_of_writes (c : Collection) (ws : list write_op) :
  runs_of (map (DbWrite c) ws) = [].
Proof. induction ws as [|w ws IH]; cbn; [reflexivity | exact IH]. Qed.

Section MaybePruneTheory.

Variables pruneTxnBatchSize pruneMinTxnBatchSize pruneMaxTxnBatchSize : Z.
Variable maxBatchSleepTime : Duration.
Variable PrunerStats : Type.
Variable zeroPrunerStats : PrunerStats.
Variables TxnsRemoved DocQueuesCleaned StashDocsRemoved : PrunerStats -> Z.
Variables DocCacheMisses DocCacheHits CollectionQueries : PrunerStats -> Z.
Variable CombineStats : PrunerStats -> PrunerStats -> PrunerStats.
Variable Prune : IncrementalPruneArgs -> option Collection -> PrunerStats * option error.
Variable reverseFirst : bool.
Variable Count : Collection -> nat -> Z * option error.
Variable statsOf : Collection -> StatsCollection.
Variable Insert : Collection -> pruneStats -> option error.
Variable UpsertId : Collection -> bson_value -> bsonM -> option error.
Variables started completed : Time.
Variable newId : ObjectId.

Let sweep := CleanAndPrune pruneTxnBatchSize pruneMinTxnBatchSize pruneMaxTxnBatchSize
               maxBatchSleepTime PrunerStats zeroPrunerStats
               TxnsRemoved DocQueuesCleaned StashDocsRemoved
               DocCacheMisses DocCacheHits CollectionQueries CombineStats Prune
               reverseFirst.

Let mp := maybePrune pruneTxnBatchSize pruneMinTxnBatchSize pruneMaxTxnBatchSize
            maxBatchSleepTime PrunerStats zeroPrunerStats
            TxnsRemoved DocQueuesCleaned StashDocsRemoved
            DocCacheMisses DocCacheHits CollectionQueries CombineStats Prune
            reverseFirst Count statsOf Insert UpsertId started completed newId.

(** The arguments [maybePrune] gives to [CleanAndPrune]. *)
Let argsOf (dbName txnsName : string) (n : Z) (o : PruneOptions) :=
  mkCleanAndPruneArgs (Some (C dbName txnsName)) n (MaxTime o)
    (MaxBatchTransactions o) false (SmallBatchTransactionCount o)
    (BatchTransactionSleepTime o).

(** Split on every reply of the database still in the goal. *)
Ltac replies :=
  repeat match goal with
         | |- context [Count ?c ?k] =>
             let n := fresh "n" in let e := fresh "e" in let E := fresh "ECount" in
             destruct (Count c k) as [n [e|]] eqn:E
         | |- context [getPruneLastTxnsCount ?s] =>
             let n := fresh "last" in let e := fresh "e" in let E := fresh "ELast" in
             destruct (getPruneLastTxnsCount s) as [n [e|]] eqn:E
         | |- context [shouldPrune ?a ?b ?o] =>
             let r := fresh "required" in let w := fresh "why" in
             let E := fresh "EDecide" in
             destruct (shouldPrune a b o) as [[|] w] eqn:E; cbn [negb]
         | |- context [CleanAndPrune ?x1 ?x2 ?x3 ?x4 ?x5 ?x6 ?x7 ?x8 ?x9 ?x10 ?x11
                         ?x12 ?x13 ?x14 ?x15 ?x16] =>
             let s := fresh "stats" in let e := fresh "e" in let v := fresh "evs" in
             let E := fresh "ESweep" in
             destruct (CleanAndPrune x1 x2 x3 x4 x5 x6 x7 x8 x9 x10 x11
                         x12 x13 x14 x15 x16)
               as [[s [e|]] v] eqn:E; cbn [Trace]
         | |- context [Insert ?c ?d] =>
             let e := fresh "e" in let E := fresh "EInsert" in
             destruct (Insert c d) as [e|] eqn:E
         | |- context [UpsertId ?c ?i ?s] =>
             let e := fresh "e" in let E := fresh "EUpsert" in
             destruct (UpsertId c i s) as [e|] eqn:E
         end.

(** X11.  The decision is a gate.  With the current count [n] read, and
    the options resolved: when [shouldPrune] answers no for the last
    count, [maybePrune] returns nil having only read that count and the
    stats; when it answers yes and the stash can be counted,
    [CleanAndPrune] is called once, on the transaction collection, with
    [n] as count hint, a single direction, and the batch size, sleep, time
    horizon and cap of the resolved options.  On a first run, with no
    "last" pointer, it is always called. *)
Theorem maybePrune_sweeps_when_required
  (dbName txnsName : string) (pruneOpts : PruneOptions) (n : Z) :
  Count (C dbName txnsName) 0 = (n, None) ->
  let o := validatePruneOptions pruneMinTxnBatchSize pruneOpts in
  let res := mp dbName txnsName pruneOpts in
  let stats := statsOf (C dbName (txnsPruneC txnsName)) in
  let stash := C dbName (txnsStashName txnsName) in
  (forall last,
      getPruneLastTxnsCount stats = (last, None) ->
      fst (shouldPrune last n o) = false ->
      res = (None, [DbCount (C dbName txnsName);
                    DbReadStats (C dbName (txnsPruneC txnsName))]))
  /\ (forall last s,
        getPruneLastTxnsCount stats = (last, None) ->
        fst (shouldPrune last n o) = true ->
        Count stash 0 = (s, None) ->
        runs_of (snd res) = [argsOf dbName txnsName n o])
  /\ (forall s,
        FindId_M stats (BString "last") = OneErr ErrNotFound ->
        Count stash 0 = (s, None) ->
        runs_of (snd res) = [argsOf dbName txnsName n o]).
Proof.
  intros Hn. cbv zeta.
  assert (Hyes : forall last s,
            getPruneLastTxnsCount (statsOf (C dbName (txnsPruneC txnsName)))
            = (last, None) ->
            fst (shouldPrune last n
                   (validatePruneOptions pruneMinTxnBatchSize pruneOpts)) = true ->
            Count (C dbName (txnsStashName txnsName)) 0 = (s, None) ->
            runs_of (snd (mp dbName txnsName pruneOpts))
            = [argsOf dbName txnsName n
                 (validatePruneOptions pruneMinTxnBatchSize pruneOpts)]).
  { intros last s Hl Hd Hs. unfold mp, maybePrune, txnsStashName in *.
    rewrite Hn, Hl, Hs.
    destruct (shouldPrune _ _ _) as [[|] why]; [|discriminate]. cbn [negb].
    replies; cbn [snd]; unfold writePruneTxnsCount; replies;
      rewrite ?runs_of_app, ?runs_of_writes; reflexivity. }
  split; [|split].
  - intros last Hl Hd. unfold mp, maybePrune. rewrite Hn, Hl.
    destruct (shouldPrune _ _ _) as [[|] why]; [discriminate | reflexivity].
  - exact Hyes.
  - intros s Hptr Hs. apply (Hyes (-1) s); [| reflexivity | exact Hs].
    unfold getPruneLastTxnsCount. now rewrite Hptr.
Qed.

(** X12.  A snapshot is written only after a fully successful sweep.
    Whenever [maybePrune] sends a write, it goes to the stats collection;
    an inserted snapshot carries the new identifier, the two clock
    readings, and the counts of transactions and stash documents read
    before and after a call of [CleanAndPrune] that returned nil; the
    pointer is set, to that identifier, only after the insert was
    acknowledged.  When [maybePrune] returns nil it has written either
    nothing or the snapshot and then the pointer. *)
Theorem maybePrune_snapshot
  (dbName txnsName : string) (pruneOpts : PruneOptions) :
  let res := mp dbName txnsName pruneOpts in
  let txns := C dbName txnsName in
  let stash := C dbName (txnsStashName txnsName) in
  let prune := C dbName (txnsPruneC txnsName) in
  let pointer := WUpsertId (BString "last") [("id", BObjectId newId)] in
  (forall c w, In (DbWrite c w) (snd res) -> c = prune)
  /\ (forall doc,
        In (WInsert doc) (writes_of (snd res)) ->
        doc = mkPruneStats newId started completed
                (fst (Count txns 0)) (fst (Count txns 1))
                (fst (Count stash 0)) (fst (Count stash 1))
        /\ snd (Count txns 0) = None /\ snd (Count txns 1) = None
        /\ snd (Count stash 0) = None /\ snd (Count stash 1) = None
        /\ exists a stats evs,
             In (DbCleanAndPrune a evs) (snd res) /\ sweep a = (stats, None, evs))
  /\ (forall id set,
        In (WUpsertId id set) (writes_of (snd res)) ->
        exists doc,
          writes_of (snd res) = [WInsert doc; pointer]
          /\ WUpsertId id set = pointer
          /\ Insert prune doc = None)
  /\ (fst res = None ->
      writes_of (snd res) = []
      \/ exists doc, writes_of (snd res) = [WInsert doc; pointer]).
Proof.
  cbv zeta. unfold mp, maybePrune, writePruneTxnsCount, txnsStashName, sweep.
  replies; cbn [fst snd map];
    rewrite ?writes_of_app; cbn [writes_of flat_map app].
  all: cbn [In]; repeat match goal with |- _ /\ _ => split end; intros.
  all: repeat match goal with
              | H : _ \/ _ |- _ => destruct H
              | H : False |- _ => contradiction
              | H : DbWrite _ _ = DbWrite _ _ |- _ => inversion H; clear H; subst
              | H : WInsert _ = WInsert _ |- _ => inversion H; clear H; subst
              | H : WUpsertId _ _ = WUpsertId _ _ |- _ =>
                  inversion H; clear H; subst
              | H : _ = _ |- _ => discriminate H
              end.
  all: first [ reflexivity
             | left; reflexivity
             | right; eexists; reflexivity
             | eexists; split; [reflexivity|]; split; [reflexivity | assumption]
             | split; [reflexivity|]; do 4 (split; [reflexivity|]);
               do 3 eexists; split; [|eassumption]; auto 10 ].
Qed.

(** [maybePrune] calls [CleanAndPrune] at most once, with arguments built
    from the first count and the resolved options. *)
Lemma maybePrune_runs (dbName txnsName : string) (pruneOpts : PruneOptions) :
  forall a,
    In a (runs_of (snd (mp dbName txnsName pruneOpts))) ->
    a = argsOf dbName txnsName (fst (Count (C dbName txnsName) 0))
          (validatePruneOptions pruneMinTxnBatchSize pruneOpts).
Proof.
  unfold mp, maybePrune, writePruneTxnsCount.
  replies; cbn [fst snd map];
    rewrite ?runs_of_app; cbn [runs_of flat_map app In];
    intros a Hin; intuition.
Qed.

(** Arguments within all bounds, with a batch size that is set, pass
    [validate] unchanged. *)
Lemma validate_in_bounds (args : CleanAndPruneArgs) :
  Txns args <> None ->
  0 <= TxnBatchSleepTime args <= maxBatchSleepTime ->
  TxnBatchSize args <> 0 ->
  pruneMinTxnBatchSize <= TxnBatchSize args <= pruneMaxTxnBatchSize ->
  validate pruneTxnBatchSize pruneMinTxnBatchSize pruneMaxTxnBatchSize
    maxBatchSleepTime args = (args, None).
Proof.
  intros Ht Hs Hz Hb. unfold validate.
  destruct (Txns args); [|congruence].
  replace (TxnBatchSleepTime args <? 0) with false
    by (symmetry; apply Z.ltb_ge; lia).
  replace (maxBatchSleepTime <? TxnBatchSleepTime args) with false
    by (symmetry; apply Z.ltb_ge; lia).
  replace (TxnBatchSize args =? 0) with false
    by (symmetry; apply Z.eqb_neq; lia).
  cbn [orb].
  replace (TxnBatchSize args <? pruneMinTxnBatchSize) with false
    by (symmetry; apply Z.ltb_ge; lia).
  replace (pruneMaxTxnBatchSize <? TxnBatchSize args) with false
    by (symmetry; apply Z.ltb_ge; lia).
  reflexivity.
Qed.

(** The arguments built from resolved options pass [validate], under the
    bounds that make the defaults themselves valid. *)
Lemma resolved_options_pass (dbName txnsName : string) (n : Z) (pruneOpts : PruneOptions) :
  0 < pruneMinTxnBatchSize ->
  pruneMinTxnBatchSize <= defaultSmallBatchTransactionCount <= pruneMaxTxnBatchSize ->
  defaultBatchTransactionSleepTime <= maxBatchSleepTime ->
  SmallBatchTransactionCount pruneOpts <= pruneMaxTxnBatchSize ->
  BatchTransactionSleepTime pruneOpts <= maxBatchSleepTime ->
  validate pruneTxnBatchSize pruneMinTxnBatchSize pruneMaxTxnBatchSize
    maxBatchSleepTime
    (argsOf dbName txnsName n (validatePruneOptions pruneMinTxnBatchSize pruneOpts))
  = (argsOf dbName txnsName n (validatePruneOptions pruneMinTxnBatchSize pruneOpts),
     None).
Proof.
  intros Hmin Hdef Hsleep Hsize Hs.
  apply validate_in_bounds; unfold argsOf;
    cbn [Txns TxnBatchSleepTime TxnBatchSize];
    rewrite ?validated_SmallBatchTransactionCount,
      ?validated_BatchTransactionSleepTime;
    try discriminate;
    unfold defaultBatchTransactionSleepTime, Millisecond in *;
    destruct (BatchTransactionSleepTime pruneOpts <? 0) eqn:E1;
    destruct (SmallBatchTransactionCount pruneOpts <? pruneMinTxnBatchSize) eqn:E2;
    ztests; lia.
Qed.

(** X13.  Resolved options never trip the validation of [CleanAndPrune].
    Let the minimum batch size be positive, the default batch size lie
    between the minimum and the maximum, and the default sleep be at most
    the maximum sleep.  Then for every options value whose batch size and
    sleep do not exceed the maxima, unset or negative ones included, the
    arguments [maybePrune] passes to [CleanAndPrune] are accepted by
    [validate], so that an error [maybePrune] passes on from it is never a
    configuration error. *)
Theorem maybePrune_options_are_accepted
  (dbName txnsName : string) (pruneOpts : PruneOptions) :
  0 < pruneMinTxnBatchSize ->
  pruneMinTxnBatchSize <= defaultSmallBatchTransactionCount <= pruneMaxTxnBatchSize ->
  defaultBatchTransactionSleepTime <= maxBatchSleepTime ->
  SmallBatchTransactionCount pruneOpts <= pruneMaxTxnBatchSize ->
  BatchTransactionSleepTime pruneOpts <= maxBatchSleepTime ->
  (forall a,
      In a (runs_of (snd (mp dbName txnsName pruneOpts))) ->
      validate pruneTxnBatchSize pruneMinTxnBatchSize pruneMaxTxnBatchSize
        maxBatchSleepTime a = (a, None))
  /\ (forall a evs e,
        In (DbCleanAndPrune a evs) (snd (mp dbName txnsName pruneOpts)) ->
        snd (fst (sweep a)) = Some e ->
        is_config_error e = false).
Proof.
  intros Hmin Hdef Hsleep Hsize Hs.
  assert (Hacc : forall a,
            In a (runs_of (snd (mp dbName txnsName pruneOpts))) ->
            validate pruneTxnBatchSize pruneMinTxnBatchSize pruneMaxTxnBatchSize
              maxBatchSleepTime a = (a, None)).
  { intros a Hin. apply maybePrune_runs in Hin. subst a.
    now apply resolved_options_pass. }
  split; [exact Hacc|].
  intros a evs e Hin He.
  assert (Ha : In a (runs_of (snd (mp dbName txnsName pruneOpts)))).
  { unfold runs_of. apply in_flat_map. exists (DbCleanAndPrune a evs).
    split; [exact Hin | now left]. }
  specialize (Hacc a Ha). unfold sweep in He.
  rewrite (CleanAndPrune_accepted _ _ _ _ _ _ _ _ _ _ _ _ _ _ _ _ a Hacc) in He.
  cbv zeta in He.
  destruct (if Multithreaded a then _ else _) as [[p [x|]] w];
    cbn [fst snd Trace] in He; inversion He; reflexivity.
Qed.

End MaybePruneTheory.

Lemma maybePrune_sweeps_when_required_witness :
  runs_of (snd (maybePrune_demo workingSweep demoCount []
                  "juju" "txns" unsetOptions))
  = [mkCleanAndPruneArgs (Some (C "juju" "txns")) 9000 0 0 false 1000
       (10 * Millisecond)].
Proof.
  apply (proj2 (proj2 (maybePrune_sweeps_when_required
                         1000 10 1000000 (1000 * Millisecond)
                         sweepStats (mkSweepStats 0 0 0 0 0 0)
                         sw_TxnsRemoved sw_DocQueuesCleaned sw_StashDocsRemoved
                         sw_DocCacheMisses sw_DocCacheHits sw_CollectionQueries
                         sweepStats_add workingSweep false
                         demoCount (fun _ => storedCollection [])
                         (fun _ => okInsert) (fun _ => okUpsertId) 5 9 "ba9876543210"
                         "juju" "txns" unsetOptions 9000 eq_refl))
           70);
    reflexivity.
Defined.

Lemma maybePrune_snapshot_witness :
  writes_of (snd (maybePrune_demo workingSweep demoCount healthyDocs
                    "juju" "txns" exampleOptions))
  = [WInsert (mkPruneStats "ba9876543210" 5 9 9000 4100 70 20);
     WUpsertId (BString "last") [("id", BObjectId "ba9876543210")]]
  /\ mkPruneStats "ba9876543210" 5 9 9000 4100 70 20
     = mkPruneStats "ba9876543210" 5 9
         (fst (demoCount (C "juju" "txns") 0)) (fst (demoCount (C "juju" "txns") 1))
         (fst (demoCount (C "juju" (txnsStashName "txns")) 0))
         (fst (demoCount (C "juju" (txnsStashName "txns")) 1)).
Proof.
  split; [vm_compute; reflexivity|].
  apply (proj1 (proj2 (maybePrune_snapshot
                         1000 10 1000000 (1000 * Millisecond)
                         sweepStats (mkSweepStats 0 0 0 0 0 0)
                         sw_TxnsRemoved sw_DocQueuesCleaned sw_StashDocsRemoved
                         sw_DocCacheMisses sw_DocCacheHits sw_CollectionQueries
                         sweepStats_add workingSweep false
                         demoCount (fun _ => storedCollection healthyDocs)
                         (fun _ => okInsert) (fun _ => okUpsertId) 5 9 "ba9876543210"
                         "juju" "txns" exampleOptions))
           (mkPruneStats "ba9876543210" 5 9 9000 4100 70 20)).
  vm_compute. left. reflexivity.
Defined.

Lemma maybePrune_options_are_accepted_witness :
  validate 1000 10 1000000 (1000 * Millisecond)
    (mkCleanAndPruneArgs (Some (C "juju" "txns")) 9000 0 0 false 1000
       (10 * Millisecond))
  = (mkCleanAndPruneArgs (Some (C "juju" "txns")) 9000 0 0 false 1000
       (10 * Millisecond), None).
Proof.
  apply (proj1 (maybePrune_options_are_accepted
                  1000 10 1000000 (1000 * Millisecond)
                  sweepStats (mkSweepStats 0 0 0 0 0 0)
                  sw_TxnsRemoved sw_DocQueuesCleaned sw_StashDocsRemoved
                  sw_DocCacheMisses sw_DocCacheHits sw_CollectionQueries
                  sweepStats_add workingSweep false
                  demoCount (fun _ => storedCollection brokenPointerDocs)
                  (fun _ => okInsert) (fun _ => okUpsertId) 5 9 "ba9876543210"
                  "juju" "txns" unsetOptions
                  ltac:(lia) ltac:(unfold defaultSmallBatchTransactionCount; lia)
                  ltac:(unfold defaultBatchTransactionSleepTime, Millisecond; lia)
                  ltac:(cbn; lia)
                  ltac:(unfold Millisecond; cbn; lia))).
  vm_compute. left. reflexivity.
Defined.

(* ------------------------------------------------------------------ *)
(** ** The growth test on small counts *)

Lemma digits2_pos_size (p : positive) : digits2_pos p = Pos.size p.
Proof. induction p; cbn; congruence. Qed.

Lemma digits2_pos_bounds (p : positive) :
  2 ^ (Z.pos (digits2_pos p) - 1) <= Z.pos p < 2 ^ Z.pos (digits2_pos p).
Proof.
  rewrite digits2_pos_size.
  pose proof (Pos.size_gt p) as Hgt. pose proof (Pos.size_le p) as Hle.
  apply Pos2Z.pos_lt_pos in Hgt. apply Pos2Z.pos_le_pos in Hle.
  rewrite Pos2Z.inj_pow in Hgt, Hle.
  change (Z.pos p~0) with (2 * Z.pos p) in Hle.
  split; [|exact Hgt].
  assert (E : 2 ^ Z.pos (Pos.size p) = 2 * 2 ^ (Z.pos (Pos.size p) - 1)).
  { rewrite <- Z.pow_succ_r by lia. f_equal. lia. }
  rewrite E in Hle. lia.
Qed.

Lemma iter_xO_value (p k : positive) :
  Z.pos (Pos.iter xO p k) = Z.pos p * 2 ^ Z.pos k.
Proof.
  revert p. induction k using Pos.peano_ind; intros p.
  - cbn. lia.
  - rewrite Pos.iter_succ, Pos2Z.inj_xO, IHk, Pos2Z.inj_succ, Z.pow_succ_r by lia. lia.
Qed.

Lemma iter_xO_digits (p k : positive) :
  digits2_pos (Pos.iter xO p k) = (digits2_pos p + k)%positive.
Proof.
  revert p. induction k using Pos.peano_ind; intros p.
  - cbn. lia.
  - rewrite Pos.iter_succ. cbn [digits2_pos]. rewrite IHk. lia.
Qed.

Lemma canon_spec (p : positive) :
  Z.pos (digits2_pos p) <= 24 ->
  let '(m, e) := canon p in
  e = Z.pos (digits2_pos p) - 24
  /\ Z.pos m = Z.pos p * 2 ^ (- e)
  /\ Z.pos (digits2_pos m) = 24.
Proof.
  intros Hd. unfold canon, shl_align.
  destruct (Z.pos (digits2_pos p) - 24 - 0) as [|k|k] eqn:E; try lia.
  - split; [reflexivity|]. rewrite iter_xO_value, iter_xO_digits.
    replace (- (Z.pos (digits2_pos p) - 24)) with (Z.pos k) by lia.
    split; [reflexivity|]. lia.
Qed.

Lemma round_canonical (s : bool) (m : positive) (e : Z) :
  Z.pos (digits2_pos m) = 24 -> -149 <= e <= 104 ->
  binary_round_aux prec emax s (Z.pos m) e loc_Exact = S754_finite s m e.
Proof.
  intros Hd He. unfold binary_round_aux, shr_fexp, fexp, emin, prec, emax.
  cbn [Zdigits2 shr_record_of_loc]. rewrite Hd.
  replace (Z.max (24 + e - 24) (3 - 128 - 24) - e) with 0 by lia.
  cbn [shr shr_m loc_of_shr_record round_nearest_even Zdigits2].
  rewrite Hd.
  replace (Z.max (24 + e - 24) (3 - 128 - 24) - e) with 0 by lia.
  cbn [shr shr_m].
  replace (e <=? 128 - 24) with true by (symmetry; apply Z.leb_le; lia).
  reflexivity.
Qed.

Lemma of_int_pos_small (p : positive) :
  Z.pos (digits2_pos p) <= 24 ->
  of_int (Z.pos p) = S754_finite false (fst (canon p)) (snd (canon p)).
Proof.
  intros Hd. pose proof (canon_spec p Hd) as H.
  unfold of_int, binary_normalize, binary_round.
  replace (fexp prec emax (Z.pos (digits2_pos p) + 0)) with (Z.pos (digits2_pos p) - 24)
    by (unfold fexp, emin, prec, emax; lia).
  fold (canon p). destruct (canon p) as [m e]. destruct H as (He & _ & Hm).
  cbn [fst snd]. apply round_canonical; [exact Hm | lia].
Qed.

Lemma two_float : of_int 2 = S754_finite false 8388608 (-22).
Proof. reflexivity. Qed.

Lemma mul_two (m : positive) (e : Z) :
  Z.pos (digits2_pos m) = 24 -> -149 <= e <= 103 ->
  mul (S754_finite false m e) (of_int 2) = S754_finite false m (e + 1).
Proof.
  intros Hd He. rewrite two_float. unfold mul, SFmul. cbn [xorb].
  rewrite Pos.mul_comm. cbn [Pos.mul].
  unfold binary_round_aux, shr_fexp, fexp, emin, prec, emax.
  cbn [Zdigits2 shr_record_of_loc digits2_pos].
  assert (Hd' : Z.pos (Pos.succ (Pos.succ (Pos.succ (Pos.succ (Pos.succ (Pos.succ
                 (Pos.succ (Pos.succ (Pos.succ (Pos.succ (Pos.succ (Pos.succ
                 (Pos.succ (Pos.succ (Pos.succ (Pos.succ (Pos.succ (Pos.succ
                 (Pos.succ (Pos.succ (Pos.succ (Pos.succ (Pos.succ
                 (digits2_pos m)))))))))))))))))))))))) = 47) by lia.
  rewrite Hd'.
  replace (Z.max (47 + (e + -22) - 24) (3 - 128 - 24) - (e + -22)) with 23 by lia.
  cbn [shr iter_pos shr_1 shr_m shr_r shr_s orb loc_of_shr_record round_nearest_even
       Zdigits2].
  rewrite Hd.
  replace (Z.max (24 + (e + -22 + 23) - 24) (3 - 128 - 24) - (e + -22 + 23)) with 0
    by lia.
  cbn [shr shr_m].
  replace (e + -22 + 23 <=? 128 - 24) with true by (symmetry; apply Z.leb_le; lia).
  f_equal. lia.
Qed.

Lemma small_digits (p : positive) : Z.pos p < 2 ^ 24 -> Z.pos (digits2_pos p) <= 24.
Proof.
  intros H. pose proof (digits2_pos_bounds p) as [Hlo _].
  destruct (Z_le_gt_dec (Z.pos (digits2_pos p)) 24) as [Hle|Hgt]; [exact Hle|].
  exfalso.
  assert (2 ^ 24 <= 2 ^ (Z.pos (digits2_pos p) - 1)) by (apply Z.pow_le_mono_r; lia).
  lia.
Qed.

Lemma leb_of_compare (c : comparison) (b : bool) :
  (c <> Gt <-> b = true) ->
  match c with Lt | Eq => true | Gt => false end = b.
Proof.
  destruct c, b; intros [H1 H2]; try reflexivity;
    try (symmetry; apply H1; discriminate);
    try (exfalso; apply H2; reflexivity).
Qed.

Lemma grown_small (old new : Z) :
  0 <= old < 2 ^ 24 -> 0 <= new < 2 ^ 24 ->
  geb (of_int new) (mul (of_int old) (of_int 2)) = (2 * old <=? new).
Proof.
  intros Ho Hn. unfold geb.
  destruct old as [|p|p]; [| |lia].
  - (* old = 0 *)
    change (mul (of_int 0) (of_int 2)) with (S754_zero false).
    replace (2 * 0 <=? new) with true by (symmetry; apply Z.leb_le; lia).
    destruct new as [|q|q]; [reflexivity | | lia].
    rewrite of_int_pos_small by (apply small_digits; lia). reflexivity.
  - pose proof (small_digits p ltac:(lia)) as Hdp.
    pose proof (canon_spec p Hdp) as Hp.
    rewrite (of_int_pos_small p Hdp).
    destruct (canon p) as [mo eo]. destruct Hp as (Heo & Hmo & Hdo). cbn [fst snd].
    rewrite mul_two by (assumption || lia).
    destruct new as [|q|q]; [| |lia].
    + replace (2 * Z.pos p <=? 0) with false by (symmetry; apply Z.leb_gt; lia).
      reflexivity.
    + pose proof (small_digits q ltac:(lia)) as Hdq.
      pose proof (canon_spec q Hdq) as Hq.
      rewrite (of_int_pos_small q Hdq).
      destruct (canon q) as [mn en]. destruct Hq as (Hen & Hmn & Hdn). cbn [fst snd].
      pose proof (digits2_pos_bounds p) as [Hplo Hphi].
      pose proof (digits2_pos_bounds q) as [Hqlo Hqhi].
      unfold SFleb, SFcompare.
      set (dp := Z.pos (digits2_pos p)) in *. set (dq := Z.pos (digits2_pos q)) in *.
      assert (Hdp1 : 1 <= dp) by (unfold dp; lia).
      assert (Hdq1 : 1 <= dq) by (unfold dq; lia).
      apply leb_of_compare. rewrite Z.leb_le.
      destruct (Z.compare_spec (eo + 1) en) as [E|E|E].
      * (* same exponent: the mantissas decide *)
        change (Pos.compare_cont Eq mo mn) with (mo ?= mn)%positive.
        rewrite Pos2Z.inj_compare.
        change ((Z.pos mo ?= Z.pos mn) <> Gt) with (Z.pos mo <= Z.pos mn).
        rewrite Hmo, Hmn, Heo, Hen.
        replace (- (dp - 24)) with (Z.succ (23 - dp)) by lia.
        replace (- (dq - 24)) with (23 - dp) by lia.
        rewrite Z.pow_succ_r by lia.
        assert (Hpos : 0 < 2 ^ (23 - dp)) by (apply Z.pow_pos_nonneg; lia).
        nia.
      * (* the doubled old count has fewer digits *)
        split; [intros _ | discriminate].
        assert (2 ^ (dp + 1) <= 2 ^ (dq - 1)) by (apply Z.pow_le_mono_r; lia).
        assert (2 ^ (dp + 1) = 2 * 2 ^ dp)
          by (rewrite <- Z.pow_succ_r by lia; f_equal; lia).
        lia.
      * (* the doubled old count has more digits *)
        split; [intros H; contradiction|]. intros H. exfalso.
        assert (2 ^ dq <= 2 ^ dp) by (apply Z.pow_le_mono_r; lia).
        assert (2 ^ dp = 2 * 2 ^ (dp - 1))
          by (rewrite <- Z.pow_succ_r by lia; f_equal; lia).
        lia.
Qed.

(** X14.  Below 2^24 the growth test is exact.  With the default factor
    2.0 and both counts below 16777216, the [float32] comparison of
    [shouldPrune] holds exactly when [newCount >= 2 * oldCount], and
    [shouldPrune] answers as the decision in exact arithmetic does. *)
Theorem shouldPrune_exact_below_2_24 (oldCount newCount : Z) (o : PruneOptions) :
  PruneFactor o = defaultPruneFactor ->
  oldCount < 2 ^ 24 -> 0 <= newCount < 2 ^ 24 ->
  (0 <= oldCount -> grown oldCount newCount o = (2 * oldCount <=? newCount))
  /\ shouldPrune oldCount newCount o = shouldPrune_exact oldCount newCount o.
Proof.
  intros Hf Ho Hn.
  assert (Hg : 0 <= oldCount ->
               grown oldCount newCount o = (2 * oldCount <=? newCount)).
  { intros H0. unfold grown. rewrite Hf. apply grown_small; lia. }
  split; [exact Hg|].
  unfold shouldPrune, shouldPrune_exact.
  destruct (oldCount <? 0) eqn:E; [reflexivity|]. apply Z.ltb_ge in E.
  rewrite GoInt_sub_exact
    by (unfold GoInt.is_int, GoInt.min_int, GoInt.max_int; lia).
  fold (grown oldCount newCount o). rewrite (Hg E), Hf.
  replace (exact_le_scaled oldCount defaultPruneFactor newCount)
    with (2 * oldCount <=? newCount); [reflexivity|].
  unfold defaultPruneFactor. rewrite two_float. unfold exact_le_scaled.
  cbn [Z.leb Z.compare Z.opp].
  destruct (Z.leb_spec (2 * oldCount) newCount);
    symmetry; [apply Z.leb_le | apply Z.leb_gt];
    change (2 ^ 22) with 4194304; lia.
Qed.

Lemma shouldPrune_exact_below_2_24_witness :
  shouldPrune 9000000 16000000 largeOptions
  = shouldPrune_exact 9000000 16000000 largeOptions.
Proof.
  apply (proj2 (shouldPrune_exact_below_2_24 9000000 16000000 largeOptions
                  eq_refl ltac:(lia) ltac:(lia))).
Defined.

(** X15.  The default decision in closed form.  When the factor and the
    two thresholds are left unset, then for counts below 2^24 the resolved
    options make [shouldPrune] answer prune exactly when there is no
    previous run, or at least 100 transactions were added and either more
    than 100000 were added or the count has at least doubled. *)
Theorem shouldPrune_default_decision
  (pruneMinTxnBatchSize : Z) (pruneOpts : PruneOptions) (oldCount newCount : Z) :
  eqb (PruneFactor pruneOpts) zero = true ->
  MinNewTransactions pruneOpts = 0 ->
  MaxNewTransactions pruneOpts = 0 ->
  oldCount < 2 ^ 24 -> 0 <= newCount < 2 ^ 24 ->
  fst (shouldPrune oldCount newCount
         (validatePruneOptions pruneMinTxnBatchSize pruneOpts))
  = defaultDecision oldCount newCount.
Proof.
  intros Hf Hmin Hmax Ho Hn.
  set (o := validatePruneOptions pruneMinTxnBatchSize pruneOpts).
  assert (Hf' : PruneFactor o = defaultPruneFactor).
  { unfold o. now rewrite validated_PruneFactor, Hf. }
  assert (Hmin' : MinNewTransactions o = defaultMinNewTransactions).
  { unfold o. now rewrite validated_MinNewTransactions, Hmin. }
  assert (Hmax' : MaxNewTransactions o = defaultMaxNewTransactions).
  { unfold o. now rewrite validated_MaxNewTransactions, Hmax. }
  unfold defaultDecision, shouldPrune.
  destruct (oldCount <? 0) eqn:E; [reflexivity|]. apply Z.ltb_ge in E.
  rewrite GoInt_sub_exact
    by (unfold GoInt.is_int, GoInt.min_int, GoInt.max_int; lia).
  rewrite Hmin', Hmax', Hf'. cbn [orb]. unfold defaultPruneFactor.
  rewrite (grown_small oldCount newCount) by lia.
  destruct (newCount - oldCount <? defaultMinNewTransactions) eqn:E1.
  - apply Z.ltb_lt in E1.
    replace (defaultMinNewTransactions <=? newCount - oldCount) with false
      by (symmetry; apply Z.leb_gt; lia).
    reflexivity.
  - apply Z.ltb_ge in E1.
    replace (defaultMinNewTransactions <=? newCount - oldCount) with true
      by (symmetry; apply Z.leb_le; lia).
    cbn [andb].
    destruct (defaultMaxNewTransactions <? newCount - oldCount); [reflexivity|].
    cbn [orb]. destruct (2 * oldCount <=? newCount); reflexivity.
Qed.

Lemma shouldPrune_default_decision_witness :
  fst (shouldPrune 4200 9000 (validatePruneOptions 10 unsetOptions)) = true.
Proof.
  apply (shouldPrune_default_decision 10 unsetOptions 4200 9000
           eq_refl eq_refl eq_refl ltac:(lia) ltac:(lia)).
Defined.

(** X16.  More growth never turns a prune into a skip.  With the default
    factor 2.0, for the same last count and counts below 2^24: if
    [shouldPrune] answers prune at the current count [newCount], it
    answers prune at every larger current count. *)
Theorem shouldPrune_monotone (oldCount newCount newCount' : Z) (o : PruneOptions) :
  PruneFactor o = defaultPruneFactor ->
  oldCount < 2 ^ 24 -> 0 <= newCount -> newCount <= newCount' -> newCount' < 2 ^ 24 ->
  fst (shouldPrune oldCount newCount o) = true ->
  fst (shouldPrune oldCount newCount' o) = true.
Proof.
  intros Hf Ho Hn Hle Hn'. unfold shouldPrune.
  destruct (oldCount <? 0) eqn:E; [reflexivity|]. apply Z.ltb_ge in E.
  rewrite !GoInt_sub_exact
    by (unfold GoInt.is_int, GoInt.min_int, GoInt.max_int; lia).
  rewrite Hf. unfold defaultPruneFactor.
  rewrite !grown_small by lia.
  destruct (newCount - oldCount <? MinNewTransactions o) eqn:E1; [discriminate|].
  apply Z.ltb_ge in E1.
  replace (newCount' - oldCount <? MinNewTransactions o) with false
    by (symmetry; apply Z.ltb_ge; lia).
  destruct (MaxNewTransactions o <? newCount' - oldCount) eqn:E2; [reflexivity|].
  apply Z.ltb_ge in E2.
  replace (MaxNewTransactions o <? newCount - oldCount) with false
    by (symmetry; apply Z.ltb_ge; lia).
  destruct (2 * oldCount <=? newCount) eqn:E3; [|discriminate].
  apply Z.leb_le in E3.
  replace (2 * oldCount <=? newCount') with true
    by (symmetry; apply Z.leb_le; lia).
  reflexivity.
Qed.

Lemma shouldPrune_monotone_witness :
  fst (shouldPrune 1000 5000 exampleOptions) = true.
Proof.
  apply (shouldPrune_monotone 1000 2100 5000 exampleOptions eq_refl
           ltac:(lia) ltac:(lia) ltac:(lia) ltac:(lia) eq_refl).
Defined.
